(** * ecs-math: Vector3, Quaternion, Matrix and Plane

    A shallow embedding of the TypeScript sources of the library.

    - A JavaScript [number] is an IEEE 754 binary64 value: the operations
      are the ones of [SpecFloat] at precision 53, with NaN, the two
      infinities and the two zeros.
    - Objects ([{x, y, z}], [{x, y, z, w}], matrices, planes) live in a
      heap and are passed by reference, so that writing through a
      reference (a [...ToRef] function) and rebinding a local variable
      are different things, as they are in JavaScript.
    - The module-level counter [_updateFlagSeed] of Matrix.ts is part of
      the state that every function threads.
    - Every division appends its divisor to a ghost log, which lets the
      theorems speak about which divisions a call performs. *)

From Stdlib Require Import ZArith Bool List Lia.
From Stdlib Require Import Floats.SpecFloat.
From stdpp Require Import base list.

Local Open Scope Z_scope.

(* ================================================================= *)
(** ** JavaScript numbers *)

Definition number : Type := spec_float.

Definition prec : Z := 53.
Definition emax : Z := 1024.

Definition fadd : number -> number -> number := SFadd prec emax.
Definition fsub : number -> number -> number := SFsub prec emax.
Definition fmul : number -> number -> number := SFmul prec emax.
Definition fdiv : number -> number -> number := SFdiv prec emax.
Definition fneg : number -> number := SFopp.
Definition Math_sqrt : number -> number := SFsqrt prec emax.

(** [===], [<] and [<=] on numbers; [>] and [>=] are written with the
    operands swapped. *)
Definition feqb : number -> number -> bool := SFeqb.
Definition fltb : number -> number -> bool := SFltb.
Definition fleb : number -> number -> bool := SFleb.

Declare Scope js_scope.
Delimit Scope js_scope with js.
Bind Scope js_scope with number.
Infix "+" := fadd : js_scope.
Infix "-" := fsub : js_scope.
Infix "*" := fmul : js_scope.
Notation "- x" := (fneg x) : js_scope.
Infix "===" := feqb (at level 70, no associativity) : js_scope.
Infix "!==" := (fun a b => negb (feqb a b)) (at level 70, no associativity) : js_scope.
Infix "<" := fltb : js_scope.
Infix "<=" := fleb : js_scope.
Notation "x > y" := (fltb y x) : js_scope.
Notation "x >= y" := (fleb y x) : js_scope.

(** An integer literal, and a decimal literal [n / 10^k]: both operands of
    the quotient are exact, so the quotient is the binary64 value nearest
    to the decimal, which is what the literal denotes. *)
Definition of_Z (z : Z) : number := binary_normalize prec emax z 0 false.
Definition of_decimal (n : Z) (k : Z) : number := fdiv (of_Z n) (of_Z (10 ^ k)).

Definition zero : number := Eval vm_compute in of_Z 0.
Definition one : number := Eval vm_compute in of_Z 1.
Definition two : number := Eval vm_compute in of_Z 2.
Definition half : number := Eval vm_compute in of_decimal 5 1.
Definition quarter : number := Eval vm_compute in of_decimal 25 2.
Definition NaN : number := S754_nan.

(** [Math.PI], the binary64 value 0x400921FB54442D18, and [DEG2RAD] of
    types.ts. *)
Definition Math_PI : number := S754_finite false 7074237752028440 (-51).
Definition DEG2RAD : number := Eval vm_compute in fdiv Math_PI (of_Z 180).

Definition is_finite (a : number) : bool :=
  match a with
  | S754_zero _ | S754_finite _ _ _ => true
  | S754_infinity _ | S754_nan => false
  end.

Definition is_nan (a : number) : bool :=
  match a with S754_nan => true | _ => false end.

(** A binary64 value proper: a finite one has a canonical mantissa and an
    exponent in range. *)
Definition is_binary64 (a : number) : bool := valid_binary prec emax a.

(* ================================================================= *)
(** ** Object shapes *)

(** A reference is the index of an object in the heap. *)
Abbreviation ref := nat (only parsing).

(** [Vector3.MutableVector3] *)
Module Vec3.
Record t : Type := mk { x : number; y : number; z : number }.
End Vec3.

(** [Quaternion.MutableQuaternion] *)
Module Quat.
Record t : Type := mk { x : number; y : number; z : number; w : number }.
End Quat.

(** [Matrix.Matrix4x4], a tuple of sixteen numbers. *)
Record Matrix4x4 : Type := M16 {
  e0 : number; e1 : number; e2 : number; e3 : number;
  e4 : number; e5 : number; e6 : number; e7 : number;
  e8 : number; e9 : number; e10 : number; e11 : number;
  e12 : number; e13 : number; e14 : number; e15 : number }.

(** [a[i]]; an index outside the tuple reads [undefined], which every
    arithmetic operator and comparison treats as NaN. *)
Definition get16 (a : Matrix4x4) (i : nat) : number :=
  match i with
  | 0%nat => e0 a | 1%nat => e1 a | 2%nat => e2 a | 3%nat => e3 a
  | 4%nat => e4 a | 5%nat => e5 a | 6%nat => e6 a | 7%nat => e7 a
  | 8%nat => e8 a | 9%nat => e9 a | 10%nat => e10 a | 11%nat => e11 a
  | 12%nat => e12 a | 13%nat => e13 a | 14%nat => e14 a | 15%nat => e15 a
  | _ => NaN
  end.

(** [a[i] = v] for an index of the tuple. *)
Definition set16 (a : Matrix4x4) (i : nat) (v : number) : Matrix4x4 :=
  let '(M16 a0 a1 a2 a3 a4 a5 a6 a7 a8 a9 a10 a11 a12 a13 a14 a15) := a in
  match i with
  | 0%nat => M16 v a1 a2 a3 a4 a5 a6 a7 a8 a9 a10 a11 a12 a13 a14 a15
  | 1%nat => M16 a0 v a2 a3 a4 a5 a6 a7 a8 a9 a10 a11 a12 a13 a14 a15
  | 2%nat => M16 a0 a1 v a3 a4 a5 a6 a7 a8 a9 a10 a11 a12 a13 a14 a15
  | 3%nat => M16 a0 a1 a2 v a4 a5 a6 a7 a8 a9 a10 a11 a12 a13 a14 a15
  | 4%nat => M16 a0 a1 a2 a3 v a5 a6 a7 a8 a9 a10 a11 a12 a13 a14 a15
  | 5%nat => M16 a0 a1 a2 a3 a4 v a6 a7 a8 a9 a10 a11 a12 a13 a14 a15
  | 6%nat => M16 a0 a1 a2 a3 a4 a5 v a7 a8 a9 a10 a11 a12 a13 a14 a15
  | 7%nat => M16 a0 a1 a2 a3 a4 a5 a6 v a8 a9 a10 a11 a12 a13 a14 a15
  | 8%nat => M16 a0 a1 a2 a3 a4 a5 a6 a7 v a9 a10 a11 a12 a13 a14 a15
  | 9%nat => M16 a0 a1 a2 a3 a4 a5 a6 a7 a8 v a10 a11 a12 a13 a14 a15
  | 10%nat => M16 a0 a1 a2 a3 a4 a5 a6 a7 a8 a9 v a11 a12 a13 a14 a15
  | 11%nat => M16 a0 a1 a2 a3 a4 a5 a6 a7 a8 a9 a10 v a12 a13 a14 a15
  | 12%nat => M16 a0 a1 a2 a3 a4 a5 a6 a7 a8 a9 a10 a11 v a13 a14 a15
  | 13%nat => M16 a0 a1 a2 a3 a4 a5 a6 a7 a8 a9 a10 a11 a12 v a14 a15
  | 14%nat => M16 a0 a1 a2 a3 a4 a5 a6 a7 a8 a9 a10 a11 a12 a13 v a15
  | 15%nat => M16 a0 a1 a2 a3 a4 a5 a6 a7 a8 a9 a10 a11 a12 a13 a14 v
  | _ => a
  end.

(** [Matrix.MutableMatrix]. [updateFlag] holds values of the integer
    counter [_updateFlagSeed]. *)
Module Mat.
Record t : Type := mk {
  updateFlag : Z;
  isIdentity : bool;
  isIdentity3x2 : bool;
  _isIdentityDirty : bool;
  _isIdentity3x2Dirty : bool;
  _m : Matrix4x4 }.
End Mat.

(** [Plane.MutablePlane]: the normal is a Vector3 object of its own. *)
Module Pln.
Record t : Type := mk { normal : ref; d : number }.
End Pln.

Inductive object : Type :=
| ObjVector3 (v : Vec3.t)
| ObjQuaternion (q : Quat.t)
| ObjMatrix (m : Mat.t)
| ObjPlane (p : Pln.t).

(* ================================================================= *)
(** ** The state and its monad *)

(** [_updateFlagSeed] is a number that starts at 0 and is only ever
    incremented: below 2^53 the increment is exact, and at 2^53 the
    binary64 sum [2^53 + 1] rounds back to 2^53 (see
    [binary64_increment_saturates]). *)
Definition seed_limit : Z := 2 ^ 53.

Definition seed_succ (s : Z) : Z := if s <? seed_limit then s + 1 else s.

Record world : Type := World {
  heap : list object;
  _updateFlagSeed : Z;
  divisors : list number }.

Definition initial_world : world := World [] 0 [].

(** A computation reads and updates the state; [None] is a reference
    that does not hold an object of the expected shape, which the
    TypeScript types exclude. *)
Definition M (A : Type) : Type := world -> option (A * world).

Definition ret {A} (a : A) : M A := fun w => Some (a, w).

Definition bind {A B} (c : M A) (k : A -> M B) : M B :=
  fun w => match c w with
           | Some (a, w') => k a w'
           | None => None
           end.

Definition fail {A} : M A := fun _ => None.

Notation "x <- c ;; k" := (bind c (fun x => k))
  (at level 100, c at next level, right associativity).
Notation "c ;; k" := (bind c (fun _ => k))
  (at level 100, right associativity).

(** [new]: a fresh object, at the end of the heap. *)
Definition alloc (o : object) : M ref :=
  fun w => Some (length (heap w),
                 World (heap w ++ [o]) (_updateFlagSeed w) (divisors w)).

Definition load (r : ref) : M object :=
  fun w => match heap w !! r with
           | Some o => Some (o, w)
           | None => None
           end.

Definition store (r : ref) (o : object) : M unit :=
  fun w => match heap w !! r with
           | Some _ => Some (tt, World (<[r := o]> (heap w)) (_updateFlagSeed w) (divisors w))
           | None => None
           end.

(** [_updateFlagSeed++] *)
Definition next_updateFlag : M Z :=
  fun w => Some (_updateFlagSeed w,
                 World (heap w) (seed_succ (_updateFlagSeed w)) (divisors w)).

(** [a / b], recording the divisor. *)
Definition div (a b : number) : M number :=
  fun w => Some (fdiv a b,
                 World (heap w) (_updateFlagSeed w) (divisors w ++ [b])).

Definition loadVector3 (r : ref) : M Vec3.t :=
  o <- load r ;; match o with ObjVector3 v => ret v | _ => fail end.
Definition loadQuaternion (r : ref) : M Quat.t :=
  o <- load r ;; match o with ObjQuaternion q => ret q | _ => fail end.
Definition loadMatrix (r : ref) : M Mat.t :=
  o <- load r ;; match o with ObjMatrix m => ret m | _ => fail end.
Definition loadPlane (r : ref) : M Pln.t :=
  o <- load r ;; match o with ObjPlane p => ret p | _ => fail end.

(** What a reference holds, for the statements. *)
Definition vector3_at (w : world) (r : ref) : option Vec3.t :=
  match heap w !! r with Some (ObjVector3 v) => Some v | _ => None end.
Definition quaternion_at (w : world) (r : ref) : option Quat.t :=
  match heap w !! r with Some (ObjQuaternion q) => Some q | _ => None end.
Definition matrix_at (w : world) (r : ref) : option Mat.t :=
  match heap w !! r with Some (ObjMatrix m) => Some m | _ => None end.
Definition plane_at (w : world) (r : ref) : option Pln.t :=
  match heap w !! r with Some (ObjPlane p) => Some p | _ => None end.

(** The divisors a run added to the log. *)
Definition new_divisors (w w' : world) : list number :=
  drop (length (divisors w)) (divisors w').

(** The run returned, with a result and a state that satisfy [Q]. *)
Definition returns {A} (o : option (A * world)) (Q : A -> world -> Prop) : Prop :=
  match o with Some (a, w') => Q a w' | None => False end.

Definition result_of {A} (o : option (A * world)) : option A :=
  match o with Some (a, _) => Some a | None => None end.

(** Field reads and writes through a reference: [r.f] and [r.f = e]. *)
Definition getVector3 (f : Vec3.t -> number) (r : ref) : M number :=
  v <- loadVector3 r ;; ret (f v).
Definition setVector3 (r : ref) (upd : Vec3.t -> Vec3.t) : M unit :=
  v <- loadVector3 r ;; store r (ObjVector3 (upd v)).
Definition getQuaternion (f : Quat.t -> number) (r : ref) : M number :=
  q <- loadQuaternion r ;; ret (f q).
Definition setQuaternion (r : ref) (upd : Quat.t -> Quat.t) : M unit :=
  q <- loadQuaternion r ;; store r (ObjQuaternion (upd q)).
Definition setMatrix (r : ref) (upd : Mat.t -> Mat.t) : M unit :=
  m <- loadMatrix r ;; store r (ObjMatrix (upd m)).
Definition setPlane (r : ref) (upd : Pln.t -> Pln.t) : M unit :=
  p <- loadPlane r ;; store r (ObjPlane (upd p)).

Definition with_x (e : number) (v : Vec3.t) : Vec3.t := Vec3.mk e (Vec3.y v) (Vec3.z v).
Definition with_y (e : number) (v : Vec3.t) : Vec3.t := Vec3.mk (Vec3.x v) e (Vec3.z v).
Definition with_z (e : number) (v : Vec3.t) : Vec3.t := Vec3.mk (Vec3.x v) (Vec3.y v) e.

Definition qwith_x (e : number) (q : Quat.t) : Quat.t :=
  Quat.mk e (Quat.y q) (Quat.z q) (Quat.w q).
Definition qwith_y (e : number) (q : Quat.t) : Quat.t :=
  Quat.mk (Quat.x q) e (Quat.z q) (Quat.w q).
Definition qwith_z (e : number) (q : Quat.t) : Quat.t :=
  Quat.mk (Quat.x q) (Quat.y q) e (Quat.w q).
Definition qwith_w (e : number) (q : Quat.t) : Quat.t :=
  Quat.mk (Quat.x q) (Quat.y q) (Quat.z q) e.

Definition with_m (i : nat) (e : number) (m : Mat.t) : Mat.t :=
  Mat.mk (Mat.updateFlag m) (Mat.isIdentity m) (Mat.isIdentity3x2 m)
         (Mat._isIdentityDirty m) (Mat._isIdentity3x2Dirty m) (set16 (Mat._m m) i e).
Definition with_updateFlag (f : Z) (m : Mat.t) : Mat.t :=
  Mat.mk f (Mat.isIdentity m) (Mat.isIdentity3x2 m)
         (Mat._isIdentityDirty m) (Mat._isIdentity3x2Dirty m) (Mat._m m).
Definition with_isIdentity (b : bool) (m : Mat.t) : Mat.t :=
  Mat.mk (Mat.updateFlag m) b (Mat.isIdentity3x2 m)
         (Mat._isIdentityDirty m) (Mat._isIdentity3x2Dirty m) (Mat._m m).
Definition with_isIdentity3x2 (b : bool) (m : Mat.t) : Mat.t :=
  Mat.mk (Mat.updateFlag m) (Mat.isIdentity m) b
         (Mat._isIdentityDirty m) (Mat._isIdentity3x2Dirty m) (Mat._m m).
Definition with_isIdentityDirty (b : bool) (m : Mat.t) : Mat.t :=
  Mat.mk (Mat.updateFlag m) (Mat.isIdentity m) (Mat.isIdentity3x2 m)
         b (Mat._isIdentity3x2Dirty m) (Mat._m m).
Definition with_isIdentity3x2Dirty (b : bool) (m : Mat.t) : Mat.t :=
  Mat.mk (Mat.updateFlag m) (Mat.isIdentity m) (Mat.isIdentity3x2 m)
         (Mat._isIdentityDirty m) b (Mat._m m).

Definition with_d (e : number) (p : Pln.t) : Pln.t := Pln.mk (Pln.normal p) e.

(* ================================================================= *)
(** ** Host functions that the language definition fixes *)

(** [isNaN] on numbers. *)
Definition isNaN : number -> bool := is_nan.

Definition is_pos_zero (a : number) : bool :=
  match a with S754_zero false => true | _ => false end.
Definition is_neg_zero (a : number) : bool :=
  match a with S754_zero true => true | _ => false end.

(** [Math.max] and [Math.min] of two arguments, as ECMA-262 runs them:
    the running result starts at -Infinity (at +Infinity), a NaN
    argument makes the result NaN, and [+0] counts as larger than
    [-0]. *)
Definition Math_max (value1 value2 : number) : number :=
  let step (highest number : number) :=
    if is_pos_zero number && is_neg_zero highest then number
    else if fltb highest number then number else highest in
  if isNaN value1 then NaN
  else
    let highest := step (S754_infinity true) value1 in
    if isNaN value2 then NaN else step highest value2.

Definition Math_min (value1 value2 : number) : number :=
  let step (lowest number : number) :=
    if is_neg_zero number && is_pos_zero lowest then number
    else if fltb number lowest then number else lowest in
  if isNaN value1 then NaN
  else
    let lowest := step (S754_infinity false) value1 in
    if isNaN value2 then NaN else step lowest value2.

Definition three : number := Eval vm_compute in of_Z 3.

(* ================================================================= *)
(** ** Scalar *)

Module Scalar.
Local Open Scope js_scope.

Definition withinEpsilon (a b epsilon : number) : bool :=
  let num := a - b in
  (- epsilon <= num) && (num <= epsilon).


(** [min] and [max] default to 0 and 1; the callers below pass them. *)
Definition clamp (value min max : number) : number :=
  Math_min max (Math_max min value).

Definition smoothStep (from to tx : number) : number :=
  let t := clamp tx zero one in
  let t := - two * t * t * t + three * t * t in
  to * t + from * (one - t).

Definition hermite (value1 tangent1 value2 tangent2 amount : number) : number :=
  let squared := amount * amount in
  let cubed := amount * squared in
  let part1 := two * cubed - three * squared + one in
  let part2 := - two * cubed + three * squared in
  let part3 := cubed - two * squared + amount in
  let part4 := cubed - squared in
  value1 * part1 + value2 * part2 + tangent1 * part3 + tangent2 * part4.
End Scalar.

(* ================================================================= *)
(** ** Vector3 *)

Module Vector3.
Import Vec3.
Local Open Scope js_scope.

Definition create (x y z : number) : M ref := alloc (ObjVector3 (mk x y z)).

Definition copyFrom (source dest : ref) : M unit :=
  sx <- getVector3 x source ;; setVector3 dest (with_x sx) ;;
  sy <- getVector3 y source ;; setVector3 dest (with_y sy) ;;
  sz <- getVector3 z source ;; setVector3 dest (with_z sz).

Definition clone (source : ref) : M ref :=
  s <- loadVector3 source ;; create (x s) (y s) (z s).

Definition length (vector : ref) : M number :=
  v <- loadVector3 vector ;;
  ret (Math_sqrt (x v * x v + y v * y v + z v * z v)).

Definition lengthSquared (vector : ref) : M number :=
  v <- loadVector3 vector ;;
  ret (x v * x v + y v * y v + z v * z v).

Definition scaleToRef (vector : ref) (scale : number) (result : ref) : M unit :=
  vx <- getVector3 x vector ;; setVector3 result (with_x (vx * scale)) ;;
  vy <- getVector3 y vector ;; setVector3 result (with_y (vy * scale)) ;;
  vz <- getVector3 z vector ;; setVector3 result (with_z (vz * scale)).

Definition scale (vector : ref) (scale : number) : M ref :=
  v <- loadVector3 vector ;;
  create (x v * scale) (y v * scale) (z v * scale).

Definition normalizeFromLengthToRef (vector : ref) (len : number) (result : ref) : M unit :=
  if (len === zero) || (len === one) then
    copyFrom vector result
  else
    s <- div one len ;;
    scaleToRef vector s result.

Definition normalizeFromLength (vector : ref) (len : number) : M ref :=
  result <- create zero zero zero ;;
  normalizeFromLengthToRef vector len result ;;
  ret result.

Definition normalize (vector : ref) : M ref :=
  len <- length vector ;;
  normalizeFromLength vector len.

Definition normalizeToRef (vector result : ref) : M unit :=
  len <- length vector ;;
  normalizeFromLengthToRef vector len result.

Definition Zero : M ref := create zero zero zero.
Definition One : M ref := create one one one.

Definition copyFromFloats (x y z : number) (dest : ref) : M unit :=
  setVector3 dest (with_x x) ;;
  setVector3 dest (with_y y) ;;
  setVector3 dest (with_z z).

Definition dot (left right : ref) : M number :=
  l <- loadVector3 left ;;
  r <- loadVector3 right ;;
  ret (x l * x r + y l * y r + z l * z r).

(** [const { x, y, z } = vector] and [const { x: qx, ... } = q] read
    the seven fields before the first write. *)
Definition rotateToRef (vector q result : ref) : M unit :=
  v <- loadVector3 vector ;;
  qq <- loadQuaternion q ;;
  let x := x v in let y := y v in let z := z v in
  let qx := Quat.x qq in let qy := Quat.y qq in
  let qz := Quat.z qq in let qw := Quat.w qq in
  let ix := qw * x + qy * z - qz * y in
  let iy := qw * y + qz * x - qx * z in
  let iz := qw * z + qx * y - qy * x in
  let iw := - qx * x - qy * y - qz * z in
  setVector3 result (with_x (ix * qw + iw * - qx + iy * - qz - iz * - qy)) ;;
  setVector3 result (with_y (iy * qw + iw * - qy + iz * - qx - ix * - qz)) ;;
  setVector3 result (with_z (iz * qw + iw * - qz + ix * - qy - iy * - qx)).

Definition rotate (vector q : ref) : M ref :=
  result <- create zero zero zero ;;
  rotateToRef vector q result ;;
  ret result.

Definition lerpToRef (start end_ : ref) (amount : number) (result : ref) : M unit :=
  sx <- getVector3 x start ;; ex <- getVector3 x end_ ;;
  setVector3 result (with_x (sx + (ex - sx) * amount)) ;;
  sy <- getVector3 y start ;; ey <- getVector3 y end_ ;;
  setVector3 result (with_y (sy + (ey - sy) * amount)) ;;
  sz <- getVector3 z start ;; ez <- getVector3 z end_ ;;
  setVector3 result (with_z (sz + (ez - sz) * amount)).

Definition lerp (start end_ : ref) (amount : number) : M ref :=
  result <- create zero zero zero ;;
  lerpToRef start end_ amount result ;;
  ret result.

(** Each of the three assignments reads its operands from the heap, so
    a [result] that is also an operand is read after it was written. *)
Definition crossToRef (left right result : ref) : M unit :=
  l <- loadVector3 left ;; r <- loadVector3 right ;;
  setVector3 result (with_x (y l * z r - z l * y r)) ;;
  l <- loadVector3 left ;; r <- loadVector3 right ;;
  setVector3 result (with_y (z l * x r - x l * z r)) ;;
  l <- loadVector3 left ;; r <- loadVector3 right ;;
  setVector3 result (with_z (x l * y r - y l * x r)).

Definition cross (left right : ref) : M ref :=
  result <- Zero ;;
  crossToRef left right result ;;
  ret result.

Definition transformCoordinatesFromFloatsToRef (x y z : number)
    (transformation result : ref) : M unit :=
  t <- loadMatrix transformation ;;
  let m := Mat._m t in
  let rx := x * get16 m 0 + y * get16 m 4 + z * get16 m 8 + get16 m 12 in
  let ry := x * get16 m 1 + y * get16 m 5 + z * get16 m 9 + get16 m 13 in
  let rz := x * get16 m 2 + y * get16 m 6 + z * get16 m 10 + get16 m 14 in
  rw <- div one (x * get16 m 3 + y * get16 m 7 + z * get16 m 11 + get16 m 15) ;;
  setVector3 result (with_x (rx * rw)) ;;
  setVector3 result (with_y (ry * rw)) ;;
  setVector3 result (with_z (rz * rw)).

Definition transformCoordinatesToRef (vector transformation result : ref) : M unit :=
  v <- loadVector3 vector ;;
  transformCoordinatesFromFloatsToRef (x v) (y v) (z v) transformation result.

Definition transformCoordinates (vector transformation : ref) : M ref :=
  result <- Zero ;;
  transformCoordinatesToRef vector transformation result ;;
  ret result.

Definition transformNormalFromFloatsToRef (x y z : number)
    (transformation result : ref) : M unit :=
  t <- loadMatrix transformation ;;
  let m := Mat._m t in
  setVector3 result (with_x (x * get16 m 0 + y * get16 m 4 + z * get16 m 8)) ;;
  setVector3 result (with_y (x * get16 m 1 + y * get16 m 5 + z * get16 m 9)) ;;
  setVector3 result (with_z (x * get16 m 2 + y * get16 m 6 + z * get16 m 10)).

Definition transformNormalToRef (vector transformation result : ref) : M unit :=
  v <- loadVector3 vector ;;
  transformNormalFromFloatsToRef (x v) (y v) (z v) transformation result.

Definition transformNormal (vector transformation : ref) : M ref :=
  result <- Zero ;;
  transformNormalToRef vector transformation result ;;
  ret result.

(** The three clamped coordinates are computed before [copyFromFloats]
    writes the first of them. *)
Definition clampToRef (value min max result : ref) : M unit :=
  v <- loadVector3 value ;;
  mn <- loadVector3 min ;;
  mx <- loadVector3 max ;;
  let x' := x v in
  let x' := if x' > x mx then x mx else x' in
  let x' := if x' < x mn then x mn else x' in
  let y' := y v in
  let y' := if y' > y mx then y mx else y' in
  let y' := if y' < y mn then y mn else y' in
  let z' := z v in
  let z' := if z' > z mx then z mx else z' in
  let z' := if z' < z mn then z mn else z' in
  copyFromFloats x' y' z' result.

Definition clamp (value min max : ref) : M ref :=
  v <- create zero zero zero ;;
  clampToRef value min max v ;;
  ret v.

Definition hermite (value1 tangent1 value2 tangent2 : ref) (amount : number) : M ref :=
  v1 <- loadVector3 value1 ;; t1 <- loadVector3 tangent1 ;;
  v2 <- loadVector3 value2 ;; t2 <- loadVector3 tangent2 ;;
  let squared := amount * amount in
  let cubed := amount * squared in
  let part1 := two * cubed - three * squared + one in
  let part2 := - two * cubed + three * squared in
  let part3 := cubed - two * squared + amount in
  let part4 := cubed - squared in
  let x' := x v1 * part1 + x v2 * part2 + x t1 * part3 + x t2 * part4 in
  let y' := y v1 * part1 + y v2 * part2 + y t1 * part3 + y t2 * part4 in
  let z' := z v1 * part1 + z v2 * part2 + z t1 * part3 + z t2 * part4 in
  create x' y' z'.

Definition maximizeInPlaceFromFloatsToRef (vector1 : ref) (x y z : number)
    (result : ref) : M unit :=
  v1x <- getVector3 Vec3.x vector1 ;;
  (if x > v1x then setVector3 result (with_x x)
   else setVector3 result (with_x v1x)) ;;
  v1y <- getVector3 Vec3.y vector1 ;;
  (if y > v1y then setVector3 result (with_y y)
   else setVector3 result (with_y v1y)) ;;
  v1z <- getVector3 Vec3.z vector1 ;;
  (if z > v1z then setVector3 result (with_z z)
   else setVector3 result (with_z v1z)).

Definition minimizeInPlaceFromFloatsToRef (vector1 : ref) (x y z : number)
    (result : ref) : M unit :=
  v1x <- getVector3 Vec3.x vector1 ;;
  (if x < v1x then setVector3 result (with_x x)
   else setVector3 result (with_x v1x)) ;;
  v1y <- getVector3 Vec3.y vector1 ;;
  (if y < v1y then setVector3 result (with_y y)
   else setVector3 result (with_y v1y)) ;;
  v1z <- getVector3 Vec3.z vector1 ;;
  (if z < v1z then setVector3 result (with_z z)
   else setVector3 result (with_z v1z)).

(** [minimize] passes [right] as the vector and the fields of [left] as
    the floats; [maximize] passes them the other way round. *)
Definition minimize (left right : ref) : M ref :=
  min <- create zero zero zero ;;
  l <- loadVector3 left ;;
  minimizeInPlaceFromFloatsToRef right (x l) (y l) (z l) min ;;
  ret min.

Definition maximize (left right : ref) : M ref :=
  max <- create zero zero zero ;;
  r <- loadVector3 right ;;
  maximizeInPlaceFromFloatsToRef left (x r) (y r) (z r) max ;;
  ret max.

Definition distanceSquared (value1 value2 : ref) : M number :=
  v1 <- loadVector3 value1 ;;
  v2 <- loadVector3 value2 ;;
  let x := x v1 - x v2 in
  let y := y v1 - y v2 in
  let z := z v1 - z v2 in
  ret (x * x + y * y + z * z).

Definition distance (value1 value2 : ref) : M number :=
  d2 <- distanceSquared value1 value2 ;;
  ret (Math_sqrt d2).

Definition equals (vector1 vector2 : ref) : M bool :=
  v1 <- loadVector3 vector1 ;;
  v2 <- loadVector3 vector2 ;;
  ret ((x v1 === x v2) && (y v1 === y v2) && (z v1 === z v2)).

(** [epsilon] defaults to [Epsilon]; the callers pass it. *)
Definition equalsWithEpsilon (vector1 vector2 : ref) (epsilon : number) : M bool :=
  v1 <- loadVector3 vector1 ;;
  v2 <- loadVector3 vector2 ;;
  ret (Scalar.withinEpsilon (x v1) (x v2) epsilon &&
       Scalar.withinEpsilon (y v1) (y v2) epsilon &&
       Scalar.withinEpsilon (z v1) (z v2) epsilon).
End Vector3.

(** The shorter Vector3 file of the repository, src/Vector3.ts, has its
    own [copy] and [normalizeFromLengthToRef]; its other functions used
    here are those of [Vector3]. *)
Module Vector3_ts.
Import Vec3.
Local Open Scope js_scope.

Definition copy (source dest : ref) : M unit :=
  sx <- getVector3 x source ;; setVector3 dest (with_x sx) ;;
  sx <- getVector3 x source ;; setVector3 dest (with_x sx) ;;
  sx <- getVector3 x source ;; setVector3 dest (with_x sx).

Definition normalizeFromLengthToRef (vector : ref) (len : number) (result : ref) : M unit :=
  if (len === zero) || (len === one) then
    copy vector result
  else
    s <- div one len ;;
    result <- Vector3.scale vector s ;;
    s <- div one len ;;
    Vector3.scaleToRef vector s result.

Definition normalizeFromLength (vector : ref) (len : number) : M ref :=
  result <- Vector3.create zero zero zero ;;
  normalizeFromLengthToRef vector len result ;;
  ret result.

Definition normalize (vector : ref) : M ref :=
  len <- Vector3.length vector ;;
  normalizeFromLength vector len.
End Vector3_ts.

(* ================================================================= *)
(** ** Quaternion *)

Module Quaternion.
Import Quat.
Local Open Scope js_scope.

Definition create (x y z w : number) : M ref := alloc (ObjQuaternion (mk x y z w)).

Definition lengthSquared (q : ref) : M number :=
  v <- loadQuaternion q ;;
  ret (x v * x v + y v * y v + z v * z v + w v * w v).

Definition length (q : ref) : M number :=
  l <- lengthSquared q ;; ret (Math_sqrt l).

Definition Identity : M ref := create zero zero zero one.

Definition Zero : M ref := create zero zero zero zero.

Definition normalize (q : ref) : M ref :=
  len <- length q ;;
  qLength <- div one len ;;
  v <- loadQuaternion q ;;
  create (x v * qLength) (y v * qLength) (z v * qLength) (w v * qLength).

Definition fromRotationMatrixToRef (matrix result : ref) : M unit :=
  mat <- loadMatrix matrix ;;
  let data := Mat._m mat in
  let m11 := get16 data 0 in let m12 := get16 data 4 in let m13 := get16 data 8 in
  let m21 := get16 data 1 in let m22 := get16 data 5 in let m23 := get16 data 9 in
  let m31 := get16 data 2 in let m32 := get16 data 6 in let m33 := get16 data 10 in
  let trace := m11 + m22 + m33 in
  if trace > zero then
    s <- div half (Math_sqrt (trace + one)) ;;
    rw <- div quarter s ;; setQuaternion result (qwith_w rw) ;;
    setQuaternion result (qwith_x ((m32 - m23) * s)) ;;
    setQuaternion result (qwith_y ((m13 - m31) * s)) ;;
    setQuaternion result (qwith_z ((m21 - m12) * s))
  else if (m11 > m22) && (m11 > m33) then
    let s := two * Math_sqrt (one + m11 - m22 - m33) in
    rw <- div (m32 - m23) s ;; setQuaternion result (qwith_w rw) ;;
    setQuaternion result (qwith_x (quarter * s)) ;;
    ry <- div (m12 + m21) s ;; setQuaternion result (qwith_y ry) ;;
    rz <- div (m13 + m31) s ;; setQuaternion result (qwith_z rz)
  else if m22 > m33 then
    let s := two * Math_sqrt (one + m22 - m11 - m33) in
    rw <- div (m13 - m31) s ;; setQuaternion result (qwith_w rw) ;;
    rx <- div (m12 + m21) s ;; setQuaternion result (qwith_x rx) ;;
    setQuaternion result (qwith_y (quarter * s)) ;;
    rz <- div (m23 + m32) s ;; setQuaternion result (qwith_z rz)
  else
    let s := two * Math_sqrt (one + m33 - m11 - m22) in
    rw <- div (m21 - m12) s ;; setQuaternion result (qwith_w rw) ;;
    rx <- div (m13 + m31) s ;; setQuaternion result (qwith_x rx) ;;
    ry <- div (m23 + m32) s ;; setQuaternion result (qwith_y ry) ;;
    setQuaternion result (qwith_z (quarter * s)).

Definition dot (left right : ref) : M number :=
  l <- loadQuaternion left ;;
  r <- loadQuaternion right ;;
  ret (x l * x r + y l * y r + z l * z r + w l * w r).

(** Each of the four assignments reads [self] and [q1] from the heap:
    when [result] is one of them, the later assignments see the
    components already written. *)
Definition multiplyToRef (self q1 result : ref) : M unit :=
  s <- loadQuaternion self ;; q <- loadQuaternion q1 ;;
  setQuaternion result (qwith_x (x s * w q + y s * z q - z s * y q + w s * x q)) ;;
  s <- loadQuaternion self ;; q <- loadQuaternion q1 ;;
  setQuaternion result (qwith_y (- x s * z q + y s * w q + z s * x q + w s * y q)) ;;
  s <- loadQuaternion self ;; q <- loadQuaternion q1 ;;
  setQuaternion result (qwith_z (x s * y q - y s * x q + z s * w q + w s * z q)) ;;
  s <- loadQuaternion self ;; q <- loadQuaternion q1 ;;
  setQuaternion result (qwith_w (- x s * x q - y s * y q - z s * z q + w s * w q)).

Definition multiply (self q1 : ref) : M ref :=
  result <- create zero zero zero one ;;
  multiplyToRef self q1 result ;;
  ret result.

(** [Math.sin], [Math.cos] and [Math.acos] are left to the host by the
    language definition: the functions that call them are stated for
    any three functions on numbers. *)
Section Trigonometry.
Variables Math_sin Math_cos Math_acos : number -> number.



Definition angleAxis (degress : number) (axis : ref) : M ref :=
  l2 <- Vector3.lengthSquared axis ;;
  if l2 === zero then
    Identity
  else
    result <- Identity ;;
    let radians := degress * DEG2RAD in
    let radians := radians * half in
    a2 <- Vector3.normalize axis ;;
    Vector3.scaleToRef a2 (Math_sin radians) a2 ;;
    a2x <- getVector3 Vec3.x a2 ;; setQuaternion result (qwith_x a2x) ;;
    a2y <- getVector3 Vec3.y a2 ;; setQuaternion result (qwith_y a2y) ;;
    a2z <- getVector3 Vec3.z a2 ;; setQuaternion result (qwith_z a2z) ;;
    setQuaternion result (qwith_w (Math_cos radians)) ;;
    normalize result.
End Trigonometry.
End Quaternion.

(* ================================================================= *)
(** ** Matrix *)

Module Matrix.
Import Mat.
Local Open Scope js_scope.

Definition _markAsUpdated (self : ref) : M unit :=
  f <- next_updateFlag ;; setMatrix self (with_updateFlag f) ;;
  setMatrix self (with_isIdentity false) ;;
  setMatrix self (with_isIdentity3x2 false) ;;
  setMatrix self (with_isIdentityDirty true) ;;
  setMatrix self (with_isIdentity3x2Dirty true).

(** The source gives the last three parameters the defaults [false],
    [false] and [true]; the callers below pass them. *)
Definition _updateIdentityStatus (self : ref) (isIdentity isIdentityDirty
    isIdentity3x2 isIdentity3x2Dirty : bool) : M unit :=
  f <- next_updateFlag ;; setMatrix self (with_updateFlag f) ;;
  setMatrix self (with_isIdentity isIdentity) ;;
  setMatrix self (with_isIdentity3x2 (isIdentity || isIdentity3x2)) ;;
  m <- loadMatrix self ;;
  setMatrix self (with_isIdentityDirty
                    (if Mat.isIdentity m then false else isIdentityDirty)) ;;
  m <- loadMatrix self ;;
  setMatrix self (with_isIdentity3x2Dirty
                    (if Mat.isIdentity3x2 m then false else isIdentity3x2Dirty)).

Definition create : M ref :=
  newMatrix <- alloc (ObjMatrix
    (mk 0%Z false true true true
        (M16 zero zero zero zero zero zero zero zero
             zero zero zero zero zero zero zero zero))) ;;
  _updateIdentityStatus newMatrix false false false true ;;
  ret newMatrix.

Definition fromValuesToRef
    (initialM11 initialM12 initialM13 initialM14
     initialM21 initialM22 initialM23 initialM24
     initialM31 initialM32 initialM33 initialM34
     initialM41 initialM42 initialM43 initialM44 : number)
    (result : ref) : M unit :=
  setMatrix result (with_m 0 initialM11) ;;
  setMatrix result (with_m 1 initialM12) ;;
  setMatrix result (with_m 2 initialM13) ;;
  setMatrix result (with_m 3 initialM14) ;;
  setMatrix result (with_m 4 initialM21) ;;
  setMatrix result (with_m 5 initialM22) ;;
  setMatrix result (with_m 6 initialM23) ;;
  setMatrix result (with_m 7 initialM24) ;;
  setMatrix result (with_m 8 initialM31) ;;
  setMatrix result (with_m 9 initialM32) ;;
  setMatrix result (with_m 10 initialM33) ;;
  setMatrix result (with_m 11 initialM34) ;;
  setMatrix result (with_m 12 initialM41) ;;
  setMatrix result (with_m 13 initialM42) ;;
  setMatrix result (with_m 14 initialM43) ;;
  setMatrix result (with_m 15 initialM44) ;;
  _markAsUpdated result.

Definition fromValues
    (initialM11 initialM12 initialM13 initialM14
     initialM21 initialM22 initialM23 initialM24
     initialM31 initialM32 initialM33 initialM34
     initialM41 initialM42 initialM43 initialM44 : number) : M ref :=
  result <- create ;;
  setMatrix result (with_m 0 initialM11) ;;
  setMatrix result (with_m 1 initialM12) ;;
  setMatrix result (with_m 2 initialM13) ;;
  setMatrix result (with_m 3 initialM14) ;;
  setMatrix result (with_m 4 initialM21) ;;
  setMatrix result (with_m 5 initialM22) ;;
  setMatrix result (with_m 6 initialM23) ;;
  setMatrix result (with_m 7 initialM24) ;;
  setMatrix result (with_m 8 initialM31) ;;
  setMatrix result (with_m 9 initialM32) ;;
  setMatrix result (with_m 10 initialM33) ;;
  setMatrix result (with_m 11 initialM34) ;;
  setMatrix result (with_m 12 initialM41) ;;
  setMatrix result (with_m 13 initialM42) ;;
  setMatrix result (with_m 14 initialM43) ;;
  setMatrix result (with_m 15 initialM44) ;;
  _markAsUpdated result ;;
  ret result.

Definition Identity : M ref :=
  identity <- fromValues one zero zero zero
                         zero one zero zero
                         zero zero one zero
                         zero zero zero one ;;
  _updateIdentityStatus identity true false false true ;;
  ret identity.

Definition IdentityToRef (result : ref) : M unit :=
  fromValuesToRef one zero zero zero
                  zero one zero zero
                  zero zero one zero
                  zero zero zero one result ;;
  _updateIdentityStatus result true false false true.

Definition Zero : M ref :=
  zero_ <- fromValues zero zero zero zero
                      zero zero zero zero
                      zero zero zero zero
                      zero zero zero zero ;;
  _updateIdentityStatus zero_ false false false true ;;
  ret zero_.

Definition determinant (self : ref) : M number :=
  s <- loadMatrix self ;;
  if Bool.eqb (isIdentity s) true then ret one
  else
    let m := _m s in
    let m00 := get16 m 0 in let m01 := get16 m 1 in
    let m02 := get16 m 2 in let m03 := get16 m 3 in
    let m10 := get16 m 4 in let m11 := get16 m 5 in
    let m12 := get16 m 6 in let m13 := get16 m 7 in
    let m20 := get16 m 8 in let m21 := get16 m 9 in
    let m22 := get16 m 10 in let m23 := get16 m 11 in
    let m30 := get16 m 12 in let m31 := get16 m 13 in
    let m32 := get16 m 14 in let m33 := get16 m 15 in
    let det_22_33 := m22 * m33 - m32 * m23 in
    let det_21_33 := m21 * m33 - m31 * m23 in
    let det_21_32 := m21 * m32 - m31 * m22 in
    let det_20_33 := m20 * m33 - m30 * m23 in
    let det_20_32 := m20 * m32 - m22 * m30 in
    let det_20_31 := m20 * m31 - m30 * m21 in
    let cofact_00 := m11 * det_22_33 - m12 * det_21_33 + m13 * det_21_32 in
    let cofact_01 := - (m10 * det_22_33 - m12 * det_20_33 + m13 * det_20_32) in
    let cofact_02 := m10 * det_21_33 - m11 * det_20_33 + m13 * det_20_31 in
    let cofact_03 := - (m10 * det_21_32 - m11 * det_20_32 + m12 * det_20_31) in
    ret (m00 * cofact_00 + m01 * cofact_01 + m02 * cofact_02 + m03 * cofact_03).

Definition setTranslationFromFloats (self : ref) (x y z : number) : M unit :=
  setMatrix self (with_m 12 x) ;;
  setMatrix self (with_m 13 y) ;;
  setMatrix self (with_m 14 z) ;;
  _markAsUpdated self.

(** [for (let index = 0; index < 16; index++)]: [n] iterations are
    left, the next one is at [index]. The destination array is the
    [_m] of the matrix [arrayDest]. *)
Fixpoint copyToArray_from (self arrayDest : ref) (offsetDest index n : nat) : M unit :=
  match n with
  | O => ret tt
  | S n' =>
      s <- loadMatrix self ;;
      setMatrix arrayDest (with_m (offsetDest + index) (get16 (_m s) index)) ;;
      copyToArray_from self arrayDest offsetDest (S index) n'
  end.

Definition copyToArray (self arrayDest : ref) (offsetDest : nat) : M unit :=
  copyToArray_from self arrayDest offsetDest 0 16.

Definition copy (from dest : ref) : M unit :=
  copyToArray from dest 0 ;;
  f <- loadMatrix from ;;
  _updateIdentityStatus dest (isIdentity f) (_isIdentityDirty f)
                        (isIdentity3x2 f) (_isIdentity3x2Dirty f).

Definition invertToRef (source result : ref) : M unit :=
  s <- loadMatrix source ;;
  if Bool.eqb (isIdentity s) true then copy source result
  else
    let m := _m s in
    let m00 := get16 m 0 in let m01 := get16 m 1 in
    let m02 := get16 m 2 in let m03 := get16 m 3 in
    let m10 := get16 m 4 in let m11 := get16 m 5 in
    let m12 := get16 m 6 in let m13 := get16 m 7 in
    let m20 := get16 m 8 in let m21 := get16 m 9 in
    let m22 := get16 m 10 in let m23 := get16 m 11 in
    let m30 := get16 m 12 in let m31 := get16 m 13 in
    let m32 := get16 m 14 in let m33 := get16 m 15 in
    let det_22_33 := m22 * m33 - m32 * m23 in
    let det_21_33 := m21 * m33 - m31 * m23 in
    let det_21_32 := m21 * m32 - m31 * m22 in
    let det_20_33 := m20 * m33 - m30 * m23 in
    let det_20_32 := m20 * m32 - m22 * m30 in
    let det_20_31 := m20 * m31 - m30 * m21 in
    let cofact_00 := m11 * det_22_33 - m12 * det_21_33 + m13 * det_21_32 in
    let cofact_01 := - (m10 * det_22_33 - m12 * det_20_33 + m13 * det_20_32) in
    let cofact_02 := m10 * det_21_33 - m11 * det_20_33 + m13 * det_20_31 in
    let cofact_03 := - (m10 * det_21_32 - m11 * det_20_32 + m12 * det_20_31) in
    let det := m00 * cofact_00 + m01 * cofact_01 + m02 * cofact_02 + m03 * cofact_03 in
    if det === zero then copy source result
    else
      detInv <- div one det ;;
      let det_12_33 := m12 * m33 - m32 * m13 in
      let det_11_33 := m11 * m33 - m31 * m13 in
      let det_11_32 := m11 * m32 - m31 * m12 in
      let det_10_33 := m10 * m33 - m30 * m13 in
      let det_10_32 := m10 * m32 - m30 * m12 in
      let det_10_31 := m10 * m31 - m30 * m11 in
      let det_12_23 := m12 * m23 - m22 * m13 in
      let det_11_23 := m11 * m23 - m21 * m13 in
      let det_11_22 := m11 * m22 - m21 * m12 in
      let det_10_23 := m10 * m23 - m20 * m13 in
      let det_10_22 := m10 * m22 - m20 * m12 in
      let det_10_21 := m10 * m21 - m20 * m11 in
      let cofact_10 := - (m01 * det_22_33 - m02 * det_21_33 + m03 * det_21_32) in
      let cofact_11 := m00 * det_22_33 - m02 * det_20_33 + m03 * det_20_32 in
      let cofact_12 := - (m00 * det_21_33 - m01 * det_20_33 + m03 * det_20_31) in
      let cofact_13 := m00 * det_21_32 - m01 * det_20_32 + m02 * det_20_31 in
      let cofact_20 := m01 * det_12_33 - m02 * det_11_33 + m03 * det_11_32 in
      let cofact_21 := - (m00 * det_12_33 - m02 * det_10_33 + m03 * det_10_32) in
      let cofact_22 := m00 * det_11_33 - m01 * det_10_33 + m03 * det_10_31 in
      let cofact_23 := - (m00 * det_11_32 - m01 * det_10_32 + m02 * det_10_31) in
      let cofact_30 := - (m01 * det_12_23 - m02 * det_11_23 + m03 * det_11_22) in
      let cofact_31 := m00 * det_12_23 - m02 * det_10_23 + m03 * det_10_22 in
      let cofact_32 := - (m00 * det_11_23 - m01 * det_10_23 + m03 * det_10_21) in
      let cofact_33 := m00 * det_11_22 - m01 * det_10_22 + m02 * det_10_21 in
      fromValuesToRef
        (cofact_00 * detInv) (cofact_10 * detInv) (cofact_20 * detInv) (cofact_30 * detInv)
        (cofact_01 * detInv) (cofact_11 * detInv) (cofact_21 * detInv) (cofact_31 * detInv)
        (cofact_02 * detInv) (cofact_12 * detInv) (cofact_22 * detInv) (cofact_32 * detInv)
        (cofact_03 * detInv) (cofact_13 * detInv) (cofact_23 * detInv) (cofact_33 * detInv)
        result.

Definition invert (source : ref) : M ref :=
  result <- create ;;
  invertToRef source result ;;
  ret result.

(** The three outputs are optional parameters. An assignment to a
    parameter ([translation = Vector3.create(...)]) binds the local
    variable to a new object; it does not write through the reference
    the caller passed. *)
Definition decompose (self : ref) (scale rotation translation : option ref) : M bool :=
  s <- loadMatrix self ;;
  if isIdentity s then
    translation <- match translation with
                   | Some _ => r <- Vector3.create zero zero zero ;; ret (Some r)
                   | None => ret None
                   end ;;
    scale <- match scale with
             | Some _ => r <- Vector3.create zero zero zero ;; ret (Some r)
             | None => ret None
             end ;;
    rotation <- match rotation with
                | Some _ => r <- Quaternion.create zero zero zero one ;; ret (Some r)
                | None => ret None
                end ;;
    ret true
  else
    let m := _m s in
    translation <- match translation with
                   | Some _ =>
                       r <- Vector3.create (get16 m 12) (get16 m 13) (get16 m 14) ;;
                       ret (Some r)
                   | None => ret None
                   end ;;
    usedScale <- match scale with
                 | Some r => ret r
                 | None => Vector3.Zero
                 end ;;
    setVector3 usedScale
      (with_x (Math_sqrt (get16 m 0 * get16 m 0 + get16 m 1 * get16 m 1 + get16 m 2 * get16 m 2))) ;;
    setVector3 usedScale
      (with_y (Math_sqrt (get16 m 4 * get16 m 4 + get16 m 5 * get16 m 5 + get16 m 6 * get16 m 6))) ;;
    setVector3 usedScale
      (with_z (Math_sqrt (get16 m 8 * get16 m 8 + get16 m 9 * get16 m 9 + get16 m 10 * get16 m 10))) ;;
    det <- determinant self ;;
    (if det <= zero then
       uy <- getVector3 Vec3.y usedScale ;;
       setVector3 usedScale (with_y (uy * - one))
     else ret tt) ;;
    us <- loadVector3 usedScale ;;
    if (Vec3.x us === zero) || (Vec3.y us === zero) || (Vec3.z us === zero) then
      rotation <- match rotation with
                  | Some _ => r <- Quaternion.create zero zero zero one ;; ret (Some r)
                  | None => ret None
                  end ;;
      ret false
    else
      match rotation with
      | Some rotation =>
          us <- loadVector3 usedScale ;;
          sx <- div one (Vec3.x us) ;;
          sy <- div one (Vec3.y us) ;;
          sz <- div one (Vec3.z us) ;;
          tmpMatrix <- create ;;
          fromValuesToRef
            (get16 m 0 * sx) (get16 m 1 * sx) (get16 m 2 * sx) zero
            (get16 m 4 * sy) (get16 m 5 * sy) (get16 m 6 * sy) zero
            (get16 m 8 * sz) (get16 m 9 * sz) (get16 m 10 * sz) zero
            zero zero zero one
            tmpMatrix ;;
          Quaternion.fromRotationMatrixToRef tmpMatrix rotation ;;
          ret true
      | None => ret true
      end.

Definition getRotationMatrixToRef (self result : ref) : M unit :=
  scale <- Vector3.Zero ;;
  ok <- decompose self (Some scale) None None ;;
  if negb ok then
    result <- Identity ;;
    ret tt
  else
    s <- loadMatrix self ;;
    let m := _m s in
    sc <- loadVector3 scale ;;
    sx <- div one (Vec3.x sc) ;;
    sy <- div one (Vec3.y sc) ;;
    sz <- div one (Vec3.z sc) ;;
    fromValuesToRef
      (get16 m 0 * sx) (get16 m 1 * sx) (get16 m 2 * sx) zero
      (get16 m 4 * sy) (get16 m 5 * sy) (get16 m 6 * sy) zero
      (get16 m 8 * sz) (get16 m 9 * sz) (get16 m 10 * sz) zero
      zero zero zero one
      result.

Definition getRotationMatrix (self : ref) : M ref :=
  result <- create ;;
  getRotationMatrixToRef self result ;;
  ret result.

Definition scalingToRef (x y z : number) (result : ref) : M unit :=
  fromValuesToRef x zero zero zero
                  zero y zero zero
                  zero zero z zero
                  zero zero zero one result ;;
  _updateIdentityStatus result ((x === one) && (y === one) && (z === one))
                        false false true.

Definition scaling (x y z : number) : M ref :=
  result <- create ;;
  scalingToRef x y z result ;;
  ret result.

Definition translationToRef (x y z : number) (result : ref) : M unit :=
  fromValuesToRef one zero zero zero
                  zero one zero zero
                  zero zero one zero
                  x y z one result ;;
  _updateIdentityStatus result ((x === zero) && (y === zero) && (z === zero))
                        false false true.

Definition translation (x y z : number) : M ref :=
  result <- create ;;
  translationToRef x y z result ;;
  ret result.

(** [for (let index = 0; index < 16; index++)] of [lerpToRef]: [n]
    iterations are left, the next one is at [index]. *)
Fixpoint lerpToRef_from (startValue endValue : ref) (gradient : number)
    (result : ref) (index n : nat) : M unit :=
  match n with
  | O => ret tt
  | S n' =>
      s <- loadMatrix startValue ;;
      e <- loadMatrix endValue ;;
      setMatrix result
        (with_m index (get16 (_m s) index * (one - gradient) + get16 (_m e) index * gradient)) ;;
      lerpToRef_from startValue endValue gradient result (S index) n'
  end.

Definition lerpToRef (startValue endValue : ref) (gradient : number)
    (result : ref) : M unit :=
  lerpToRef_from startValue endValue gradient result 0 16 ;;
  _markAsUpdated result.

Definition lerp (startValue endValue : ref) (gradient : number) : M ref :=
  result <- create ;;
  lerpToRef startValue endValue gradient result ;;
  ret result.

(** [rm] and [mm] are the arrays of [result] and [matrix]: each
    assignment reads [mm] as it is at that point. *)
Definition transposeToRef (matrix result : ref) : M unit :=
  mm <- loadMatrix matrix ;; setMatrix result (with_m 0 (get16 (_m mm) 0)) ;;
  mm <- loadMatrix matrix ;; setMatrix result (with_m 1 (get16 (_m mm) 4)) ;;
  mm <- loadMatrix matrix ;; setMatrix result (with_m 2 (get16 (_m mm) 8)) ;;
  mm <- loadMatrix matrix ;; setMatrix result (with_m 3 (get16 (_m mm) 12)) ;;
  mm <- loadMatrix matrix ;; setMatrix result (with_m 4 (get16 (_m mm) 1)) ;;
  mm <- loadMatrix matrix ;; setMatrix result (with_m 5 (get16 (_m mm) 5)) ;;
  mm <- loadMatrix matrix ;; setMatrix result (with_m 6 (get16 (_m mm) 9)) ;;
  mm <- loadMatrix matrix ;; setMatrix result (with_m 7 (get16 (_m mm) 13)) ;;
  mm <- loadMatrix matrix ;; setMatrix result (with_m 8 (get16 (_m mm) 2)) ;;
  mm <- loadMatrix matrix ;; setMatrix result (with_m 9 (get16 (_m mm) 6)) ;;
  mm <- loadMatrix matrix ;; setMatrix result (with_m 10 (get16 (_m mm) 10)) ;;
  mm <- loadMatrix matrix ;; setMatrix result (with_m 11 (get16 (_m mm) 14)) ;;
  mm <- loadMatrix matrix ;; setMatrix result (with_m 12 (get16 (_m mm) 3)) ;;
  mm <- loadMatrix matrix ;; setMatrix result (with_m 13 (get16 (_m mm) 7)) ;;
  mm <- loadMatrix matrix ;; setMatrix result (with_m 14 (get16 (_m mm) 11)) ;;
  mm <- loadMatrix matrix ;; setMatrix result (with_m 15 (get16 (_m mm) 15)) ;;
  mm <- loadMatrix matrix ;;
  _updateIdentityStatus result (isIdentity mm) (_isIdentityDirty mm) false true.

Definition transpose (matrix : ref) : M ref :=
  result <- create ;;
  transposeToRef matrix result ;;
  ret result.

Definition isIdentityUpdate (self : ref) : M bool :=
  s <- loadMatrix self ;;
  (if _isIdentityDirty s then
     setMatrix self (with_isIdentityDirty false) ;;
     s <- loadMatrix self ;;
     let m := _m s in
     setMatrix self (with_isIdentity
       ((get16 m 0 === one) && (get16 m 1 === zero) &&
        (get16 m 2 === zero) && (get16 m 3 === zero) &&
        (get16 m 4 === zero) && (get16 m 5 === one) &&
        (get16 m 6 === zero) && (get16 m 7 === zero) &&
        (get16 m 8 === zero) && (get16 m 9 === zero) &&
        (get16 m 10 === one) && (get16 m 11 === zero) &&
        (get16 m 12 === zero) && (get16 m 13 === zero) &&
        (get16 m 14 === zero) && (get16 m 15 === one)))
   else ret tt) ;;
  s <- loadMatrix self ;;
  ret (isIdentity s).

Definition isIdentityAs3x2Update (self : ref) : M bool :=
  s <- loadMatrix self ;;
  (if _isIdentity3x2Dirty s then
     setMatrix self (with_isIdentity3x2Dirty false) ;;
     s <- loadMatrix self ;;
     let m := _m s in
     if (get16 m 0 !== one) || (get16 m 5 !== one) || (get16 m 15 !== one) then
       setMatrix self (with_isIdentity3x2 false)
     else if (get16 m 1 !== zero) || (get16 m 2 !== zero) ||
             (get16 m 3 !== zero) || (get16 m 4 !== zero) ||
             (get16 m 6 !== zero) || (get16 m 7 !== zero) ||
             (get16 m 8 !== zero) || (get16 m 9 !== zero) ||
             (get16 m 10 !== zero) || (get16 m 11 !== zero) ||
             (get16 m 12 !== zero) || (get16 m 13 !== zero) ||
             (get16 m 14 !== zero) then
       setMatrix self (with_isIdentity3x2 false)
     else
       setMatrix self (with_isIdentity3x2 true)
   else ret tt) ;;
  s <- loadMatrix self ;;
  ret (isIdentity3x2 s).

Definition reset (self : ref) : M unit :=
  fromValuesToRef zero zero zero zero
                  zero zero zero zero
                  zero zero zero zero
                  zero zero zero zero self ;;
  _updateIdentityStatus self false false false true.

Definition setTranslation (self vector3 : ref) : M unit :=
  v <- loadVector3 vector3 ;;
  setTranslationFromFloats self (Vec3.x v) (Vec3.y v) (Vec3.z v).

Definition getTranslation (self : ref) : M ref :=
  s <- loadMatrix self ;;
  Vector3.create (get16 (_m s) 12) (get16 (_m s) 13) (get16 (_m s) 14).

(** The four entries of the last row are read as arguments before
    [fromValuesToRef] writes, and read again for the status. *)
Definition removeRotationAndScaling (self : ref) : M ref :=
  s <- loadMatrix self ;;
  let m := _m s in
  fromValuesToRef one zero zero zero
                  zero one zero zero
                  zero zero one zero
                  (get16 m 12) (get16 m 13) (get16 m 14) (get16 m 15) self ;;
  s <- loadMatrix self ;;
  let m := _m s in
  _updateIdentityStatus self
    ((get16 m 12 === zero) && (get16 m 13 === zero) &&
     (get16 m 14 === zero) && (get16 m 15 === one))
    false false true ;;
  ret self.

(** The destination array is the [_m] of the matrix [result]. The
    thirty-two operands are read into locals before the first write. *)
Definition multiplyToArray (self other result : ref) (offset : nat) : M unit :=
  s <- loadMatrix self ;;
  o <- loadMatrix other ;;
  let m := _m s in
  let otherM := _m o in
  let tm0 := get16 m 0 in let tm1 := get16 m 1 in
  let tm2 := get16 m 2 in let tm3 := get16 m 3 in
  let tm4 := get16 m 4 in let tm5 := get16 m 5 in
  let tm6 := get16 m 6 in let tm7 := get16 m 7 in
  let tm8 := get16 m 8 in let tm9 := get16 m 9 in
  let tm10 := get16 m 10 in let tm11 := get16 m 11 in
  let tm12 := get16 m 12 in let tm13 := get16 m 13 in
  let tm14 := get16 m 14 in let tm15 := get16 m 15 in
  let om0 := get16 otherM 0 in let om1 := get16 otherM 1 in
  let om2 := get16 otherM 2 in let om3 := get16 otherM 3 in
  let om4 := get16 otherM 4 in let om5 := get16 otherM 5 in
  let om6 := get16 otherM 6 in let om7 := get16 otherM 7 in
  let om8 := get16 otherM 8 in let om9 := get16 otherM 9 in
  let om10 := get16 otherM 10 in let om11 := get16 otherM 11 in
  let om12 := get16 otherM 12 in let om13 := get16 otherM 13 in
  let om14 := get16 otherM 14 in let om15 := get16 otherM 15 in
  setMatrix result (with_m offset (tm0 * om0 + tm1 * om4 + tm2 * om8 + tm3 * om12)) ;;
  setMatrix result (with_m (offset + 1) (tm0 * om1 + tm1 * om5 + tm2 * om9 + tm3 * om13)) ;;
  setMatrix result (with_m (offset + 2) (tm0 * om2 + tm1 * om6 + tm2 * om10 + tm3 * om14)) ;;
  setMatrix result (with_m (offset + 3) (tm0 * om3 + tm1 * om7 + tm2 * om11 + tm3 * om15)) ;;
  setMatrix result (with_m (offset + 4) (tm4 * om0 + tm5 * om4 + tm6 * om8 + tm7 * om12)) ;;
  setMatrix result (with_m (offset + 5) (tm4 * om1 + tm5 * om5 + tm6 * om9 + tm7 * om13)) ;;
  setMatrix result (with_m (offset + 6) (tm4 * om2 + tm5 * om6 + tm6 * om10 + tm7 * om14)) ;;
  setMatrix result (with_m (offset + 7) (tm4 * om3 + tm5 * om7 + tm6 * om11 + tm7 * om15)) ;;
  setMatrix result (with_m (offset + 8) (tm8 * om0 + tm9 * om4 + tm10 * om8 + tm11 * om12)) ;;
  setMatrix result (with_m (offset + 9) (tm8 * om1 + tm9 * om5 + tm10 * om9 + tm11 * om13)) ;;
  setMatrix result (with_m (offset + 10) (tm8 * om2 + tm9 * om6 + tm10 * om10 + tm11 * om14)) ;;
  setMatrix result (with_m (offset + 11) (tm8 * om3 + tm9 * om7 + tm10 * om11 + tm11 * om15)) ;;
  setMatrix result (with_m (offset + 12) (tm12 * om0 + tm13 * om4 + tm14 * om8 + tm15 * om12)) ;;
  setMatrix result (with_m (offset + 13) (tm12 * om1 + tm13 * om5 + tm14 * om9 + tm15 * om13)) ;;
  setMatrix result (with_m (offset + 14) (tm12 * om2 + tm13 * om6 + tm14 * om10 + tm15 * om14)) ;;
  setMatrix result (with_m (offset + 15) (tm12 * om3 + tm13 * om7 + tm14 * om11 + tm15 * om15)).

Definition multiplyToRef (self other result : ref) : M unit :=
  s <- loadMatrix self ;;
  if isIdentity s then copy other result
  else
    o <- loadMatrix other ;;
    if isIdentity o then copy self result
    else
      multiplyToArray self other result 0 ;;
      _markAsUpdated result.

Definition multiply (self other : ref) : M ref :=
  result <- create ;;
  multiplyToRef self other result ;;
  ret result.

(** A reference is never falsy, so [if (!other) return false] does not
    fire. The two nested tests on the identity flags are one
    conjunction here; when it fails the entries are compared. *)
Definition equals (self value : ref) : M bool :=
  let other := value in
  s <- loadMatrix self ;;
  o <- loadMatrix other ;;
  if (isIdentity s || isIdentity o) &&
     (negb (_isIdentityDirty s) && negb (_isIdentityDirty o)) then
    ret (isIdentity s && isIdentity o)
  else
    let m := _m s in
    let om := _m o in
    ret ((get16 m 0 === get16 om 0) && (get16 m 1 === get16 om 1) &&
         (get16 m 2 === get16 om 2) && (get16 m 3 === get16 om 3) &&
         (get16 m 4 === get16 om 4) && (get16 m 5 === get16 om 5) &&
         (get16 m 6 === get16 om 6) && (get16 m 7 === get16 om 7) &&
         (get16 m 8 === get16 om 8) && (get16 m 9 === get16 om 9) &&
         (get16 m 10 === get16 om 10) && (get16 m 11 === get16 om 11) &&
         (get16 m 12 === get16 om 12) && (get16 m 13 === get16 om 13) &&
         (get16 m 14 === get16 om 14) && (get16 m 15 === get16 om 15)).

Definition clone (self : ref) : M ref :=
  result <- create ;;
  copy self result ;;
  ret result.

Definition toggleModelMatrixHandInPlace (self : ref) : M unit :=
  s <- loadMatrix self ;; setMatrix self (with_m 2 (get16 (_m s) 2 * - one)) ;;
  s <- loadMatrix self ;; setMatrix self (with_m 6 (get16 (_m s) 6 * - one)) ;;
  s <- loadMatrix self ;; setMatrix self (with_m 8 (get16 (_m s) 8 * - one)) ;;
  s <- loadMatrix self ;; setMatrix self (with_m 9 (get16 (_m s) 9 * - one)) ;;
  s <- loadMatrix self ;; setMatrix self (with_m 14 (get16 (_m s) 14 * - one)) ;;
  _markAsUpdated self.

Definition toggleProjectionMatrixHandInPlace (self : ref) : M unit :=
  s <- loadMatrix self ;; setMatrix self (with_m 8 (get16 (_m s) 8 * - one)) ;;
  s <- loadMatrix self ;; setMatrix self (with_m 9 (get16 (_m s) 9 * - one)) ;;
  s <- loadMatrix self ;; setMatrix self (with_m 10 (get16 (_m s) 10 * - one)) ;;
  s <- loadMatrix self ;; setMatrix self (with_m 11 (get16 (_m s) 11 * - one)) ;;
  _markAsUpdated self.
End Matrix.

(* ================================================================= *)
(** ** Plane *)

Module Plane.
Import Pln.
Local Open Scope js_scope.

Definition create (a b c d : number) : M ref :=
  n <- Vector3.create a b c ;;
  alloc (ObjPlane (mk n d)).

Definition clone (plane : ref) : M ref :=
  p <- loadPlane plane ;;
  n <- loadVector3 (normal p) ;;
  create (Vec3.x n) (Vec3.y n) (Vec3.z n) (d p).

Definition normalize (plane : ref) : M ref :=
  result <- create zero zero zero zero ;;
  p <- loadPlane plane ;;
  n <- loadVector3 (normal p) ;;
  let norm := Math_sqrt (Vec3.x n * Vec3.x n + Vec3.y n * Vec3.y n + Vec3.z n * Vec3.z n) in
  magnitude <- (if norm !== zero then div one norm else ret zero) ;;
  rp <- loadPlane result ;;
  px <- getVector3 Vec3.x (normal p) ;;
  setVector3 (normal rp) (with_x (px * magnitude)) ;;
  py <- getVector3 Vec3.y (normal p) ;;
  setVector3 (normal rp) (with_y (py * magnitude)) ;;
  pz <- getVector3 Vec3.z (normal p) ;;
  setVector3 (normal rp) (with_z (pz * magnitude)) ;;
  rd <- loadPlane result ;;
  setPlane result (with_d (d rd * magnitude)) ;;
  ret plane.


Definition dotCoordinate (plane point : ref) : M number :=
  p <- loadPlane plane ;;
  n <- loadVector3 (normal p) ;;
  pt <- loadVector3 point ;;
  ret (Vec3.x n * Vec3.x pt + Vec3.y n * Vec3.y pt + Vec3.z n * Vec3.z pt + d p).

Definition signedDistanceTo (plane point : ref) : M number :=
  p <- loadPlane plane ;;
  dt <- Vector3.dot point (normal p) ;;
  p <- loadPlane plane ;;
  ret (dt + d p).

Definition copyFromPoints (point1 point2 point3 : ref) : M ref :=
  p1 <- loadVector3 point1 ;;
  p2 <- loadVector3 point2 ;;
  p3 <- loadVector3 point3 ;;
  let x1 := Vec3.x p2 - Vec3.x p1 in
  let y1 := Vec3.y p2 - Vec3.y p1 in
  let z1 := Vec3.z p2 - Vec3.z p1 in
  let x2 := Vec3.x p3 - Vec3.x p1 in
  let y2 := Vec3.y p3 - Vec3.y p1 in
  let z2 := Vec3.z p3 - Vec3.z p1 in
  let yz := y1 * z2 - z1 * y2 in
  let xz := z1 * x2 - x1 * z2 in
  let xy := x1 * y2 - y1 * x2 in
  let pyth := Math_sqrt (yz * yz + xz * xz + xy * xy) in
  invPyth <- (if pyth !== zero then div one pyth else ret zero) ;;
  normal <- Vector3.create (yz * invPyth) (xz * invPyth) (xy * invPyth) ;;
  n <- loadVector3 normal ;;
  p1 <- loadVector3 point1 ;;
  alloc (ObjPlane (mk normal
    (- (Vec3.x n * Vec3.x p1 + Vec3.y n * Vec3.y p1 + Vec3.z n * Vec3.z p1)))).
End Plane.

(* ================================================================= *)
(** ** Color4.checkColors4 *)

(** An element of a JavaScript array: a number, or [undefined], which
    is what an index outside the array reads. *)
Inductive element : Type :=
| Num (n : number)
| Undefined.

Definition array_get (a : list element) (i : nat) : element :=
  match a !! i with Some v => v | None => Undefined end.

(** [a[i] = v]: inside the array the element is replaced; at or after
    its end the array grows up to [i], the gap reading [undefined]. *)
Definition array_set (a : list element) (i : nat) (v : element) : list element :=
  if (i <? length a)%nat then <[i := v]> a
  else a ++ replicate (i - length a) Undefined ++ [v].

Module Color4.
(** [for (let index = 0; index < colors.length; index += 3)]: the next
    iteration is at [index]; [fuel] bounds the number of iterations.
    [index] is a multiple of 3, so [(index / 3) * 4] is exact. *)
Fixpoint checkColors4_from (colors colors4 : list element) (index fuel : nat)
    : list element :=
  match fuel with
  | O => colors4
  | S fuel' =>
      if (index <? length colors)%nat then
        let newIndex := (index / 3 * 4)%nat in
        let colors4 := array_set colors4 newIndex (array_get colors index) in
        let colors4 := array_set colors4 (newIndex + 1) (array_get colors (index + 1)) in
        let colors4 := array_set colors4 (newIndex + 2) (array_get colors (index + 2)) in
        let colors4 := array_set colors4 (newIndex + 3) (Num one) in
        checkColors4_from colors colors4 (index + 3) fuel'
      else colors4
  end.

(** [count] is a number of colors, a natural number. The loop runs at
    most once per element of [colors]. *)
Definition checkColors4 (colors : list element) (count : nat) : list element :=
  if (length colors =? count * 3)%nat then
    checkColors4_from colors [] 0 (length colors)
  else colors.
End Color4.

(* ================================================================= *)
(** ** Values and programs used in the statements *)

(** Componentwise [===] of two quaternions, and the quaternion [-q]. *)
Definition quat_eqb (p q : Quat.t) : bool :=
  feqb (Quat.x p) (Quat.x q) && feqb (Quat.y p) (Quat.y q) &&
  feqb (Quat.z p) (Quat.z q) && feqb (Quat.w p) (Quat.w q).


Definition quat_all (P : number -> bool) (q : Quat.t) : bool :=
  P (Quat.x q) && P (Quat.y q) && P (Quat.z q) && P (Quat.w q).

Definition vec3_all (P : number -> bool) (v : Vec3.t) : bool :=
  P (Vec3.x v) && P (Vec3.y v) && P (Vec3.z v).

(** A finite binary64 value. *)
Definition finite64 (a : number) : bool := is_binary64 a && is_finite a.

(** The sixteen entries of a matrix. *)
Definition entries (a : Matrix4x4) : list number :=
  [e0 a; e1 a; e2 a; e3 a; e4 a; e5 a; e6 a; e7 a;
   e8 a; e9 a; e10 a; e11 a; e12 a; e13 a; e14 a; e15 a].

(** What [Matrix.determinant] returns on a matrix object, and what
    [Quaternion.lengthSquared] and [Quaternion.length] return on a
    quaternion object: the functions themselves, run on a heap that
    holds just that object. *)
Definition determinant_of (m : Mat.t) : number :=
  match Matrix.determinant 0%nat (World [ObjMatrix m] 0 []) with
  | Some (det, _) => det
  | None => NaN
  end.

Definition quaternion_length_of (q : Quat.t) : number :=
  match Quaternion.length 0%nat (World [ObjQuaternion q] 0 []) with
  | Some (len, _) => len
  | None => NaN
  end.


(** test/matrix.spec.ts, 'Matrix.decompose identity case': the three
    outputs start as NaN; the result is the returned boolean and the
    three output objects after the call. *)
Definition decompose_identity_case : M (bool * Vec3.t * Quat.t * Vec3.t) :=
  tOut <- Vector3.create NaN NaN NaN ;;
  sOut <- Vector3.create NaN NaN NaN ;;
  rOut <- Quaternion.create NaN NaN NaN NaN ;;
  i <- Matrix.Identity ;;
  ok <- Matrix.decompose i (Some sOut) (Some rOut) (Some tOut) ;;
  s <- loadVector3 sOut ;;
  r <- loadQuaternion rOut ;;
  t <- loadVector3 tOut ;;
  ret (ok, s, r, t).

(** The same with the matrix of scale (2, 2, 2), no rotation and
    translation (1, 2, 3), which is what [Matrix.compose] builds from
    these three. *)
Definition decompose_scaled_translated_case : M (bool * Vec3.t * Quat.t * Vec3.t) :=
  tOut <- Vector3.create NaN NaN NaN ;;
  sOut <- Vector3.create NaN NaN NaN ;;
  rOut <- Quaternion.create NaN NaN NaN NaN ;;
  m <- Matrix.fromValues two zero zero zero
                         zero two zero zero
                         zero zero two zero
                         one two (of_Z 3) one ;;
  ok <- Matrix.decompose m (Some sOut) (Some rOut) (Some tOut) ;;
  s <- loadVector3 sOut ;;
  r <- loadQuaternion rOut ;;
  t <- loadVector3 tOut ;;
  ret (ok, s, r, t).

(** [Plane.normalize(Plane.create(2, 0, 0, 4))]: the returned reference,
    the plane it holds and that plane's normal. *)
Definition plane_normalize_case : M (bool * Pln.t * Vec3.t) :=
  plane <- Plane.create two zero zero (of_Z 4) ;;
  result <- Plane.normalize plane ;;
  p <- loadPlane result ;;
  n <- loadVector3 (Pln.normal p) ;;
  ret (Nat.eqb result plane, p, n).

(** [Quaternion.normalize(Quaternion.Zero())] *)
Definition quaternion_normalize_zero_case : M Quat.t :=
  q <- Quaternion.Zero ;;
  r <- Quaternion.normalize q ;;
  loadQuaternion r.




(** [v] with every component multiplied by [k]. *)
Definition scaled (v : Vec3.t) (k : number) : Vec3.t :=
  Vec3.mk (Vec3.x v * k)%js (Vec3.y v * k)%js (Vec3.z v * k)%js.

(** A heap with the vector (1, 0, 0) and an output vector. *)
Definition unit_x_world : world :=
  World [ObjVector3 (Vec3.mk one zero zero); ObjVector3 (Vec3.mk NaN NaN NaN)] 0 [].


(** A sample host for the witnesses: [Math.sin], [Math.cos] and
    [Math.acos] as the first terms of their series, in binary64. *)
Definition series_sin (a : number) : number :=
  (a - fdiv (a * a * a) (of_Z 6))%js.
Definition series_cos (a : number) : number :=
  (one - fdiv (a * a) two)%js.

(** A heap with the quaternions (0, 0, 0, 1) and (0, 0, 0, -1), and one
    with the zero vector. *)
Definition opposite_quaternions_world : world :=
  World [ObjQuaternion (Quat.mk zero zero zero one);
         ObjQuaternion (Quat.mk zero zero zero (fneg one))] 0 [].

Definition zero_vector_world : world :=
  World [ObjVector3 (Vec3.mk zero zero zero)] 0 [].

(** The sixteen zeros of a new matrix and the entries of the identity. *)
Definition zero16 : Matrix4x4 :=
  M16 zero zero zero zero zero zero zero zero
      zero zero zero zero zero zero zero zero.

Definition identity16 : Matrix4x4 :=
  M16 one zero zero zero zero one zero zero
      zero zero one zero zero zero zero one.

(** A matrix after [_markAsUpdated], and after [_updateIdentityStatus],
    when the counter is at [s]. *)
Definition marked (s : Z) (m : Mat.t) : Mat.t :=
  Mat.mk s false false true true (Mat._m m).

Definition with_status (s : Z) (isIdentity isIdentityDirty isIdentity3x2
    isIdentity3x2Dirty : bool) (m : Mat.t) : Mat.t :=
  Mat.mk s isIdentity (isIdentity || isIdentity3x2)
         (if isIdentity then false else isIdentityDirty)
         (if isIdentity || isIdentity3x2 then false else isIdentity3x2Dirty)
         (Mat._m m).



(** Two matrices of a young process. *)
Definition two_matrices_world : world :=
  World [ObjMatrix (Mat.mk 0 false false false true zero16);
         ObjMatrix (Mat.mk 1 false false false true zero16)]
        2 [].

(** The matrix [dst] after the iterations [index], ..., [index + n - 1]
    of the loop of [copyToArray] have copied entries of [src] into it,
    and a matrix after the same iterations have copied it onto itself. *)
Fixpoint copy_entries (src : Matrix4x4) (index n : nat) (dst : Mat.t) : Mat.t :=
  match n with
  | O => dst
  | S n' => copy_entries src (S index) n' (with_m index (get16 src index) dst)
  end.

Fixpoint copy_onto_itself (index n : nat) (m : Mat.t) : Mat.t :=
  match n with
  | O => m
  | S n' => copy_onto_itself (S index) n' (with_m index (get16 (Mat._m m) index) m)
  end.

(** The scale [decompose] is to extract from a matrix: the magnitudes of
    the three rows of the upper-left 3x3 block, the second one multiplied
    by -1 when the determinant is not positive. *)
Definition row_magnitude (a b c : number) : number :=
  Math_sqrt (a * a + b * b + c * c)%js.

Definition extracted_scale (m : Mat.t) : Vec3.t :=
  let a := Mat._m m in
  Vec3.mk (row_magnitude (e0 a) (e1 a) (e2 a))
          (if (determinant_of m <= zero)%js
           then (row_magnitude (e4 a) (e5 a) (e6 a) * - one)%js
           else row_magnitude (e4 a) (e5 a) (e6 a))
          (row_magnitude (e8 a) (e9 a) (e10 a)).

(** [normalize] of src/Vector3.ts on the unit vector (0, 1, 0). *)
Definition vector3_ts_normalize_unit_y : M Vec3.t :=
  v <- Vector3.create zero one zero ;;
  r <- Vector3_ts.normalize v ;;
  loadVector3 r.

(* ================================================================= *)
(** ** More values used in the statements *)

(** Two numbers that [===] cannot tell apart and that every operation
    treats alike but for the sign of a zero result: the same value, or
    two zeros. *)
Definition same_value (a b : number) : Prop :=
  a = b \/ exists s s', a = S754_zero s /\ b = S754_zero s'.

(** A zero of either sign. *)
Definition is_zero (a : number) : Prop := exists s, a = S754_zero s.

(** Componentwise [===] of two vectors. *)
Definition vec3_eqb (u v : Vec3.t) : bool :=
  feqb (Vec3.x u) (Vec3.x v) && feqb (Vec3.y u) (Vec3.y v) &&
  feqb (Vec3.z u) (Vec3.z v).

(** The same for the sixteen entries of two matrices. *)
Definition entries_eqb (a b : Matrix4x4) : bool :=
  forallb (fun p => feqb (fst p) (snd p)) (combine (entries a) (entries b)).

(** The transpose of sixteen entries. *)
Definition transposed (a : Matrix4x4) : Matrix4x4 :=
  M16 (e0 a) (e4 a) (e8 a) (e12 a)
      (e1 a) (e5 a) (e9 a) (e13 a)
      (e2 a) (e6 a) (e10 a) (e14 a)
      (e3 a) (e7 a) (e11 a) (e15 a).

(** Componentwise [<=] of two vectors. *)
Definition vec3_leb (u v : Vec3.t) : bool :=
  fleb (Vec3.x u) (Vec3.x v) && fleb (Vec3.y u) (Vec3.y v) &&
  fleb (Vec3.z u) (Vec3.z v).

(** The componentwise difference [u - v]. *)
Definition vec3_sub (u v : Vec3.t) : Vec3.t :=
  Vec3.mk (fsub (Vec3.x u) (Vec3.x v)) (fsub (Vec3.y u) (Vec3.y v))
          (fsub (Vec3.z u) (Vec3.z v)).

(** A heap with the vectors (2, -1, 0.5), (0, 0, 0) and (1, 1, 1). *)
Definition three_vectors_world : world :=
  World [ObjVector3 (Vec3.mk two (fneg one) half);
         ObjVector3 (Vec3.mk zero zero zero);
         ObjVector3 (Vec3.mk one one one)] 0 [].

(** A heap with the vectors (10^16, 10^16, 10^16) and (1, 1, 1). *)
Definition far_vectors_world : world :=
  World [ObjVector3 (Vec3.mk (of_Z (10 ^ 16)) (of_Z (10 ^ 16)) (of_Z (10 ^ 16)));
         ObjVector3 (Vec3.mk one one one)] 0 [].

(** A heap with the vector (2, -1, 0.5), a matrix that holds the entries
    of the identity and is not flagged as the identity, and the
    quaternion (0, 0, 0, 1). *)
Definition identity_operands_world : world :=
  World [ObjVector3 (Vec3.mk two (fneg one) half);
         ObjMatrix (Mat.mk 0 false false true true identity16);
         ObjQuaternion (Quat.mk zero zero zero one)] 1 [].

(** A matrix object with other entries. *)
Definition with_entries (a : Matrix4x4) (m : Mat.t) : Mat.t :=
  Mat.mk (Mat.updateFlag m) (Mat.isIdentity m) (Mat.isIdentity3x2 m)
         (Mat._isIdentityDirty m) (Mat._isIdentity3x2Dirty m) a.

(** The sixteen sums of products that [multiplyToArray] stores. *)
Definition product16 (a b : Matrix4x4) : Matrix4x4 :=
  M16 (e0 a * e0 b + e1 a * e4 b + e2 a * e8 b + e3 a * e12 b)%js
      (e0 a * e1 b + e1 a * e5 b + e2 a * e9 b + e3 a * e13 b)%js
      (e0 a * e2 b + e1 a * e6 b + e2 a * e10 b + e3 a * e14 b)%js
      (e0 a * e3 b + e1 a * e7 b + e2 a * e11 b + e3 a * e15 b)%js
      (e4 a * e0 b + e5 a * e4 b + e6 a * e8 b + e7 a * e12 b)%js
      (e4 a * e1 b + e5 a * e5 b + e6 a * e9 b + e7 a * e13 b)%js
      (e4 a * e2 b + e5 a * e6 b + e6 a * e10 b + e7 a * e14 b)%js
      (e4 a * e3 b + e5 a * e7 b + e6 a * e11 b + e7 a * e15 b)%js
      (e8 a * e0 b + e9 a * e4 b + e10 a * e8 b + e11 a * e12 b)%js
      (e8 a * e1 b + e9 a * e5 b + e10 a * e9 b + e11 a * e13 b)%js
      (e8 a * e2 b + e9 a * e6 b + e10 a * e10 b + e11 a * e14 b)%js
      (e8 a * e3 b + e9 a * e7 b + e10 a * e11 b + e11 a * e15 b)%js
      (e12 a * e0 b + e13 a * e4 b + e14 a * e8 b + e15 a * e12 b)%js
      (e12 a * e1 b + e13 a * e5 b + e14 a * e9 b + e15 a * e13 b)%js
      (e12 a * e2 b + e13 a * e6 b + e14 a * e10 b + e15 a * e14 b)%js
      (e12 a * e3 b + e13 a * e7 b + e14 a * e11 b + e15 a * e15 b)%js.

(** Sixteen entries computed one by one from those of two matrices, as
    the loop over [index] of [lerpToRef] does. *)
Definition map2_16 (f : number -> number -> number) (a b : Matrix4x4) : Matrix4x4 :=
  M16 (f (e0 a) (e0 b)) (f (e1 a) (e1 b)) (f (e2 a) (e2 b)) (f (e3 a) (e3 b))
      (f (e4 a) (e4 b)) (f (e5 a) (e5 b)) (f (e6 a) (e6 b)) (f (e7 a) (e7 b))
      (f (e8 a) (e8 b)) (f (e9 a) (e9 b)) (f (e10 a) (e10 b)) (f (e11 a) (e11 b))
      (f (e12 a) (e12 b)) (f (e13 a) (e13 b)) (f (e14 a) (e14 b)) (f (e15 a) (e15 b)).

(** What [transposeToRef] leaves in a matrix that is both its operand
    and its result: the entries below the diagonal, copied above it. *)
Definition lower_symmetric (a : Matrix4x4) : Matrix4x4 :=
  M16 (e0 a) (e4 a) (e8 a) (e12 a)
      (e4 a) (e5 a) (e9 a) (e13 a)
      (e8 a) (e9 a) (e10 a) (e14 a)
      (e12 a) (e13 a) (e14 a) (e15 a).

(** The entries of a matrix are [===] to those of the identity: the
    test that [isIdentityUpdate] makes on a matrix marked dirty. *)
Definition identity_test_of (m : Mat.t) : bool :=
  entries_eqb (Mat._m m) identity16.

(** The test that [isIdentityAs3x2Update] makes on a matrix marked
    dirty: entries 0, 5 and 15 are [===] to 1 and the thirteen others
    to 0. *)
Definition identity3x2_test_of (m : Mat.t) : bool :=
  let a := Mat._m m in
  (e0 a === one)%js && (e5 a === one)%js && (e15 a === one)%js &&
  forallb (fun x => x === zero)%js
    [e1 a; e2 a; e3 a; e4 a; e6 a; e7 a; e8 a; e9 a; e10 a; e11 a; e12 a; e13 a; e14 a].

(** The cached [isIdentity] of a matrix tells the truth: it is set
    only on a matrix that is not marked dirty, and on such a matrix it
    is what the test on the entries gives. *)
Definition truthful (m : Mat.t) : Prop :=
  Mat.isIdentity m = negb (Mat._isIdentityDirty m) && identity_test_of m.

(** The reference holds a matrix whose flag tells the truth. *)
Definition truthful_at (r : ref) (w : world) : Prop :=
  exists m, matrix_at w r = Some m /\ truthful m.

(** A matrix that is not flagged as the identity, is not marked dirty
    and differs from the identity in its second entry only. *)
Definition almost_identity : Mat.t :=
  Mat.mk 0 false false false true
         (M16 one two zero zero zero one zero zero
              zero zero one zero zero zero zero one).

(** The product of two quaternions and the cross product of two
    vectors, as [Quaternion.multiplyToRef] and [Vector3.crossToRef]
    compute their components. *)
Definition quaternion_product (s q : Quat.t) : Quat.t :=
  Quat.mk (Quat.x s * Quat.w q + Quat.y s * Quat.z q - Quat.z s * Quat.y q
           + Quat.w s * Quat.x q)%js
          (- Quat.x s * Quat.z q + Quat.y s * Quat.w q + Quat.z s * Quat.x q
           + Quat.w s * Quat.y q)%js
          (Quat.x s * Quat.y q - Quat.y s * Quat.x q + Quat.z s * Quat.w q
           + Quat.w s * Quat.z q)%js
          (- Quat.x s * Quat.x q - Quat.y s * Quat.y q - Quat.z s * Quat.z q
           + Quat.w s * Quat.w q)%js.

Definition cross_product (l r : Vec3.t) : Vec3.t :=
  Vec3.mk (Vec3.y l * Vec3.z r - Vec3.z l * Vec3.y r)%js
          (Vec3.z l * Vec3.x r - Vec3.x l * Vec3.z r)%js
          (Vec3.x l * Vec3.y r - Vec3.y l * Vec3.x r)%js.

(** The same products when the result is stored, component after
    component, in the first operand: each component is computed from
    the operand as the earlier stores left it. *)
Definition quaternion_product_in_place (s q : Quat.t) : Quat.t :=
  let s1 := qwith_x (Quat.x (quaternion_product s q)) s in
  let s2 := qwith_y (Quat.y (quaternion_product s1 q)) s1 in
  let s3 := qwith_z (Quat.z (quaternion_product s2 q)) s2 in
  qwith_w (Quat.w (quaternion_product s3 q)) s3.

Definition cross_product_in_place (l r : Vec3.t) : Vec3.t :=
  let l1 := with_x (Vec3.x (cross_product l r)) l in
  let l2 := with_y (Vec3.y (cross_product l1 r)) l1 in
  with_z (Vec3.z (cross_product l2 r)) l2.

(** A heap with the quaternions i = (1, 0, 0, 0) and k = (0, 0, 1, 0)
    and the vectors (1, 0, 0) and (0, 0, 1). *)
Definition units_world : world :=
  World [ObjQuaternion (Quat.mk one zero zero zero);
         ObjQuaternion (Quat.mk zero zero one zero);
         ObjVector3 (Vec3.mk one zero zero);
         ObjVector3 (Vec3.mk zero zero one)] 0 [].

(** The array of the components of a list of colors given as triples:
    three elements per color, or four with an alpha of 1. *)
Definition rgb_elements (l : list (element * element * element)) : list element :=
  flat_map (fun c => [c.1.1; c.1.2; c.2]) l.

Definition rgba_elements (l : list (element * element * element)) : list element :=
  flat_map (fun c => [c.1.1; c.1.2; c.2; Num one]) l.
(* ================================================================= *)
(** * Facts about numbers *)

Section NumberFacts.
Implicit Types a b x y : number.

Lemma feqb_zero_inv a : feqb a zero = true -> exists s, a = S754_zero s.
Proof.
  destruct a as [s|s| |s m e]; cbn; try discriminate.
  - eauto.
  - destruct s; discriminate.
  - destruct s; discriminate.
Qed.

Lemma feqb_one_inv a : feqb a one = true -> a = one.
Proof.
  unfold feqb, SFeqb, one, SFcompare.
  destruct a as [s|s| |s m e]; try destruct s; try discriminate.
  destruct (Z.compare_spec e (-52)) as [->| |]; try discriminate.
  rewrite Pos.compare_cont_spec. unfold Pos.switch_Eq.
  destruct (Pos.compare_spec m 4503599627370496) as [->| |]; try discriminate.
  reflexivity.
Qed.

Lemma feqb_refl a : is_finite a = true -> feqb a a = true.
Proof.
  destruct a as [s|s| |s m e]; cbn; try discriminate; intros _.
  - reflexivity.
  - unfold feqb, SFeqb, SFcompare.
    rewrite Z.compare_refl.
    rewrite Pos.compare_cont_spec, Pos.compare_refl.
    destruct s; reflexivity.
Qed.

Lemma feqb_zero_finite a : feqb a zero = true -> is_finite a = true.
Proof. intros H. apply feqb_zero_inv in H as [s ->]. reflexivity. Qed.

Lemma fdiv_one_zero s : fdiv one (S754_zero s) = S754_infinity s.
Proof. destruct s; reflexivity. Qed.

Lemma fmul_infinity_not_finite x s : is_finite (fmul x (S754_infinity s)) = false.
Proof. destruct x as [sx|sx| |sx m e]; reflexivity. Qed.

(** A finite sum, difference or product has finite operands. *)
Lemma fadd_finite a b : is_finite (fadd a b) = true -> is_finite a = true /\ is_finite b = true.
Proof.
  intros H.
  destruct a as [sa|sa| |sa ma ea], b as [sb|sb| |sb mb eb];
    try (split; reflexivity); exfalso; revert H;
    try destruct sa; try destruct sb; cbn; discriminate.
Qed.

Lemma fsub_finite a b : is_finite (fsub a b) = true -> is_finite a = true /\ is_finite b = true.
Proof.
  intros H.
  destruct a as [sa|sa| |sa ma ea], b as [sb|sb| |sb mb eb];
    try (split; reflexivity); exfalso; revert H;
    try destruct sa; try destruct sb; cbn; discriminate.
Qed.

Lemma fmul_finite a b : is_finite (fmul a b) = true -> is_finite a = true /\ is_finite b = true.
Proof.
  intros H.
  destruct a as [sa|sa| |sa ma ea], b as [sb|sb| |sb mb eb];
    try (split; reflexivity); exfalso; revert H; cbn; discriminate.
Qed.

Lemma fneg_finite a : is_finite (fneg a) = true -> is_finite a = true.
Proof. destruct a; cbn; intros H; first [discriminate H | reflexivity]. Qed.

(** Multiplication by 1 and by -1 is exact on binary64 values. *)
Lemma digits_times_2p52 m :
  Zpos (digits2_pos (4503599627370496 * m)) = Zpos (digits2_pos m) + 52.
Proof.
  change (4503599627370496 * m)%positive with (Pos.iter xO m 52).
  cbv [Pos.iter]. cbn [digits2_pos]. rewrite !Pos2Z.inj_succ. lia.
Qed.

Lemma shr_2p52 m :
  SpecFloat.iter_pos shr_1 52 (Build_shr_record (Zpos (4503599627370496 * m)) false false)
  = Build_shr_record (Zpos m) false false.
Proof. reflexivity. Qed.

Lemma round_times_one s m e :
  bounded prec emax m e = true ->
  binary_round_aux prec emax s (Zpos (4503599627370496 * m)) (-52 + e) loc_Exact
  = S754_finite s m e.
Proof.
  intros Hb. unfold bounded, canonical_mantissa in Hb.
  apply andb_prop in Hb as [Hc He].
  apply Z.eqb_eq in Hc.
  unfold binary_round_aux, shr_fexp.
  cbn [Zdigits2 shr_record_of_loc].
  rewrite digits_times_2p52.
  replace (Z.pos (digits2_pos m) + 52 + (-52 + e)) with (Z.pos (digits2_pos m) + e) by lia.
  rewrite Hc.
  replace (e - (-52 + e)) with 52 by lia.
  cbn [shr]. rewrite shr_2p52.
  cbn [shr_m loc_of_shr_record round_nearest_even Zdigits2 shr_record_of_loc].
  replace (-52 + e + 52) with e by lia.
  rewrite Hc, Z.sub_diag. cbn [shr shr_m].
  rewrite He. reflexivity.
Qed.


Lemma fmul_one_r x : is_binary64 x = true -> fmul x one = x.
Proof.
  destruct x as [s|s| |s m e]; intros Hv; try (destruct s; reflexivity); try reflexivity.
  cbn in Hv. unfold fmul, one, SFmul.
  rewrite Pos.mul_comm, Z.add_comm, xorb_false_r.
  apply round_times_one. exact Hv.
Qed.

Lemma fmul_neg_one_l x : is_binary64 x = true -> fmul (fneg one) x = fneg x.
Proof.
  destruct x as [s|s| |s m e]; intros Hv; try reflexivity.
  cbn in Hv. unfold fmul, one, fneg, SFmul, SFopp. cbn [xorb negb].
  apply round_times_one. exact Hv.
Qed.

Lemma fmul_zero_l s x : is_finite x = true -> exists s', fmul (S754_zero s) x = S754_zero s'.
Proof. destruct x as [sx|sx| |sx m e]; cbn; try discriminate; eauto. Qed.



Lemma fneg_preserves_finite64 x : finite64 x = true -> finite64 (fneg x) = true.
Proof. destruct x; cbn; intros H; first [discriminate H | exact H]. Qed.

(** The squared length of a vector of zeros, of either sign, is [+0]. *)
Lemma zero_lengthSquared s1 s2 s3 :
  fadd (fadd (fmul (S754_zero s1) (S754_zero s1)) (fmul (S754_zero s2) (S754_zero s2)))
       (fmul (S754_zero s3) (S754_zero s3)) = zero.
Proof. destruct s1, s2, s3; reflexivity. Qed.

(** At 2^53 the binary64 increment does not advance. *)
Lemma binary64_increment_saturates :
  fadd (of_Z seed_limit) one = of_Z seed_limit.
Proof. vm_compute. reflexivity. Qed.

Lemma binary64_increment_below_limit :
  fadd (of_Z (seed_limit - 1)) one = of_Z seed_limit.
Proof. vm_compute. reflexivity. Qed.
End NumberFacts.

(* ================================================================= *)
(** * More facts about numbers *)

Section Commutativity.
Implicit Types a b x y : number.

Lemma fmul_comm a b : fmul a b = fmul b a.
Proof.
  destruct a as [sa|sa| |sa ma ea], b as [sb|sb| |sb mb eb];
    unfold fmul, SFmul; try reflexivity;
    try (rewrite (xorb_comm sa sb); reflexivity).
  rewrite (xorb_comm sa sb), (Pos.mul_comm ma mb), (Z.add_comm ea eb).
  reflexivity.
Qed.

Lemma fadd_comm a b : fadd a b = fadd b a.
Proof.
  destruct a as [sa|sa| |sa ma ea], b as [sb|sb| |sb mb eb];
    unfold fadd, SFadd; try reflexivity;
    try (destruct sa, sb; reflexivity).
  rewrite (Z.min_comm ea eb), Z.add_comm. reflexivity.
Qed.

Lemma fneg_involutive a : fneg (fneg a) = a.
Proof. destruct a; cbn; rewrite ?negb_involutive; reflexivity. Qed.

Lemma fsub_diag a : is_finite a = true -> fsub a a = zero.
Proof.
  destruct a as [s|s| |s m e]; try discriminate; intros _.
  - destruct s; reflexivity.
  - unfold fsub, SFsub. rewrite Z.sub_diag. reflexivity.
Qed.

(** Rounding does not look at the sign. *)
Lemma binary_round_aux_opp s m e l :
  binary_round_aux prec emax (negb s) m e l
  = fneg (binary_round_aux prec emax s m e l).
Proof.
  unfold binary_round_aux.
  destruct (shr_fexp prec emax m e l) as [mrs' e'].
  destruct (shr_fexp prec emax _ e' loc_Exact) as [mrs'' e''].
  destruct (shr_m mrs''); try reflexivity.
  destruct (e'' <=? emax - prec); reflexivity.
Qed.

Lemma binary_round_opp s m e :
  binary_round prec emax (negb s) m e = fneg (binary_round prec emax s m e).
Proof.
  unfold binary_round.
  destruct (shl_align m e _) as [mz ez].
  apply binary_round_aux_opp.
Qed.

Lemma binary_normalize_opp m e :
  m <> 0 ->
  binary_normalize prec emax (- m) e false = fneg (binary_normalize prec emax m e false).
Proof.
  destruct m as [|p|p]; intros Hm; try congruence; cbn [Z.opp binary_normalize].
  - apply (binary_round_opp false).
  - rewrite (binary_round_opp false), fneg_involutive. reflexivity.
Qed.

(** [b - a] is [-(a - b)], or both are [+0]. *)
Lemma fsub_swap a b :
  fsub b a = fneg (fsub a b) \/ (fsub a b = zero /\ fsub b a = zero).
Proof.
  destruct a as [sa|sa| |sa ma ea], b as [sb|sb| |sb mb eb];
    try (left; reflexivity);
    try (destruct sa, sb; first [left; reflexivity | right; split; reflexivity]).
  unfold fsub, SFsub. rewrite (Z.min_comm eb ea).
  set (ez := Z.min ea eb).
  set (A := cond_Zopp sa (Z.pos (fst (shl_align ma ea ez)))).
  set (B := cond_Zopp sb (Z.pos (fst (shl_align mb eb ez)))).
  destruct (Z.eq_dec (A - B) 0) as [E|E].
  - right. replace (B - A) with 0 by lia. rewrite E. split; reflexivity.
  - left. replace (B - A) with (- (A - B)) by lia.
    apply binary_normalize_opp. exact E.
Qed.

Lemma fmul_fneg_fneg a b : fmul (fneg a) (fneg b) = fmul a b.
Proof.
  destruct a as [sa|sa| |sa ma ea], b as [sb|sb| |sb mb eb];
    unfold fmul, fneg, SFmul, SFopp; try reflexivity;
    destruct sa, sb; reflexivity.
Qed.

Lemma fsub_square_swap a b :
  fmul (fsub a b) (fsub a b) = fmul (fsub b a) (fsub b a).
Proof.
  destruct (fsub_swap a b) as [E|[E1 E2]].
  - rewrite E, fmul_fneg_fneg. reflexivity.
  - rewrite E1, E2. reflexivity.
Qed.

Lemma fmul_neg_one_r x : is_binary64 x = true -> fmul x (fneg one) = fneg x.
Proof. intros H. rewrite fmul_comm. apply fmul_neg_one_l. exact H. Qed.

Lemma fmul_zero_r s x : is_finite x = true -> exists s', fmul x (S754_zero s) = S754_zero s'.
Proof. intros H. rewrite fmul_comm. apply fmul_zero_l. exact H. Qed.
End Commutativity.

Section Order.
Implicit Types a b x y : number.

Lemma SFcompare_antisym a b :
  SFcompare b a = option_map CompOpp (SFcompare a b).
Proof.
  destruct a as [sa|sa| |sa ma ea], b as [sb|sb| |sb mb eb];
    unfold SFcompare; try reflexivity;
    try (destruct sa; reflexivity); try (destruct sb; reflexivity);
    try (destruct sa, sb; reflexivity).
  destruct sa, sb; try reflexivity; cbn [option_map];
    rewrite (Z.compare_antisym ea eb);
    destruct (ea ?= eb); cbn [CompOpp]; try reflexivity;
    rewrite (Pos.compare_cont_antisym ma mb Eq); cbn [CompOpp];
    rewrite ?CompOpp_involutive; reflexivity.
Qed.

Lemma SFcompare_nan a b :
  is_nan a = false -> is_nan b = false -> exists c, SFcompare a b = Some c.
Proof.
  destruct a as [sa|sa| |sa ma ea], b as [sb|sb| |sb mb eb];
    try discriminate; intros _ _; unfold SFcompare; eauto.
Qed.

Lemma SFcompare_refl a : is_nan a = false -> SFcompare a a = Some Eq.
Proof.
  destruct a as [s|s| |s m e]; try discriminate; intros _; unfold SFcompare.
  - reflexivity.
  - destruct s; reflexivity.
  - rewrite Z.compare_refl, Pos.compare_cont_refl. destruct s; reflexivity.
Qed.

Lemma feqb_sym a b : feqb a b = feqb b a.
Proof.
  unfold feqb, SFeqb. rewrite (SFcompare_antisym a b).
  destruct (SFcompare a b) as [[ | | ]|]; reflexivity.
Qed.

Lemma fleb_refl a : is_nan a = false -> fleb a a = true.
Proof. intros H. unfold fleb, SFleb. rewrite SFcompare_refl by exact H. reflexivity. Qed.

Lemma fleb_not_nan a b : fleb a b = true -> is_nan a = false /\ is_nan b = false.
Proof.
  destruct a as [sa|sa| |sa ma ea], b as [sb|sb| |sb mb eb];
    try (split; reflexivity); intros H; exfalso; revert H;
    unfold fleb, SFleb, SFcompare; discriminate.
Qed.

(** [a <= b] excludes [b < a], and without a NaN one of them holds. *)
Lemma fleb_fltb a b : fleb a b = true -> fltb b a = false.
Proof.
  unfold fleb, fltb, SFleb, SFltb. rewrite (SFcompare_antisym a b).
  destruct (SFcompare a b) as [[ | | ]|]; cbn; congruence.
Qed.

Lemma fltb_fleb a b : fltb a b = true -> fleb a b = true.
Proof.
  unfold fleb, fltb, SFleb, SFltb.
  destruct (SFcompare a b) as [[ | | ]|]; congruence.
Qed.

Lemma not_fltb_fleb a b :
  is_nan a = false -> is_nan b = false -> fltb b a = false -> fleb a b = true.
Proof.
  intros Ha Hb. unfold fleb, fltb, SFleb, SFltb. rewrite (SFcompare_antisym a b).
  destruct (SFcompare_nan a b Ha Hb) as [c ->].
  destruct c; cbn; congruence.
Qed.

Lemma fltb_not_nan a b : fltb a b = true -> is_nan a = false /\ is_nan b = false.
Proof. intros H. apply fleb_not_nan, fltb_fleb, H. Qed.

(** Comparisons of opposites. *)
Lemma SFcompare_fneg a b : SFcompare (fneg a) (fneg b) = SFcompare b a.
Proof.
  rewrite (SFcompare_antisym a b).
  destruct a as [sa|sa| |sa ma ea], b as [sb|sb| |sb mb eb];
    unfold fneg, SFopp, SFcompare; try reflexivity;
    try (destruct sa; reflexivity); try (destruct sb; reflexivity);
    try (destruct sa, sb; reflexivity).
  destruct sa, sb; cbn [negb option_map CompOpp]; try reflexivity;
    destruct (ea ?= eb); cbn [CompOpp]; rewrite ?CompOpp_involutive; reflexivity.
Qed.

Lemma fleb_fneg_swap a b : fleb (fneg a) b = fleb (fneg b) a.
Proof.
  unfold fleb, SFleb.
  rewrite <- (fneg_involutive b) at 1. rewrite SFcompare_fneg. reflexivity.
Qed.
End Order.

Section SameValue.
Implicit Types a b x y : number.

Lemma same_value_refl a : same_value a a.
Proof. left. reflexivity. Qed.

Lemma same_value_zero s s' : same_value (S754_zero s) (S754_zero s').
Proof. right. eauto. Qed.

Lemma same_value_finite a x : same_value a x -> is_finite x = true -> is_finite a = true.
Proof. intros [->|(s & s' & -> & ->)] H; [exact H | reflexivity]. Qed.

Lemma same_value_finite64 a x : same_value a x -> finite64 x = true -> finite64 a = true.
Proof. intros [->|(s & s' & -> & ->)] H; [exact H | reflexivity]. Qed.

Lemma same_value_feqb a x : same_value a x -> is_finite x = true -> feqb a x = true.
Proof.
  intros [->|(s & s' & -> & ->)] H; [apply feqb_refl; exact H | reflexivity].
Qed.

Lemma same_value_trans a b c : same_value a b -> same_value b c -> same_value a c.
Proof.
  intros [E|(s & s' & Ea & Eb)] [E'|(t & t' & Eb' & Ec)]; subst.
  - apply same_value_refl.
  - right. eauto.
  - right. eauto.
  - right. eauto.
Qed.

(** Adding a zero, on either side, keeps the value of a finite number. *)
Lemma same_value_fadd_zero_r a x s :
  same_value a x -> is_finite x = true -> same_value (fadd a (S754_zero s)) x.
Proof.
  intros [->|(t & t' & -> & ->)] H.
  - destruct x as [sx|sx| |sx m e]; try discriminate.
    + destruct sx, s; apply same_value_zero.
    + left. reflexivity.
  - destruct t, s; apply same_value_zero.
Qed.

Lemma same_value_fadd_zero_l a x s :
  same_value a x -> is_finite x = true -> same_value (fadd (S754_zero s) a) x.
Proof. rewrite fadd_comm. apply same_value_fadd_zero_r. Qed.

Lemma same_value_fsub_zero_r a x s :
  same_value a x -> is_finite x = true -> same_value (fsub a (S754_zero s)) x.
Proof.
  intros [->|(t & t' & -> & ->)] H.
  - destruct x as [sx|sx| |sx m e]; try discriminate.
    + destruct sx, s; apply same_value_zero.
    + left. reflexivity.
  - destruct t, s; apply same_value_zero.
Qed.

(** Multiplying by 1 keeps a binary64 value, multiplying a finite
    number by a zero gives a zero. *)
Lemma same_value_fmul_one_r a x :
  same_value a x -> finite64 x = true -> same_value (fmul a one) x.
Proof.
  intros Ha Hx. pose proof (same_value_finite64 _ _ Ha Hx) as Hf.
  apply andb_prop in Hf as [Hb _]. rewrite (fmul_one_r _ Hb). exact Ha.
Qed.

Lemma same_value_fmul_one_l a x :
  same_value a x -> finite64 x = true -> same_value (fmul one a) x.
Proof. rewrite fmul_comm. apply same_value_fmul_one_r. Qed.

Lemma finite64_finite a : finite64 a = true -> is_finite a = true.
Proof. intros H. apply andb_prop in H as [_ H]. exact H. Qed.

Lemma finite64_binary64 a : finite64 a = true -> is_binary64 a = true.
Proof. intros H. apply andb_prop in H as [H _]. exact H. Qed.

(** Zeros, of either sign. *)
Lemma is_zero_zero : is_zero zero.
Proof. exists false. reflexivity. Qed.

Lemma is_zero_S754_zero s : is_zero (S754_zero s).
Proof. exists s. reflexivity. Qed.

Lemma is_zero_fmul_r a z : is_finite a = true -> is_zero z -> is_zero (fmul a z).
Proof. intros H [s ->]. apply fmul_zero_r. exact H. Qed.

Lemma is_zero_fmul_l a z : is_zero z -> is_finite a = true -> is_zero (fmul z a).
Proof. intros [s ->] H. apply fmul_zero_l. exact H. Qed.

Lemma is_zero_fadd z1 z2 : is_zero z1 -> is_zero z2 -> is_zero (fadd z1 z2).
Proof. intros [s1 ->] [s2 ->]. destruct s1, s2; cbn; eexists; reflexivity. Qed.

Lemma is_zero_fsub z1 z2 : is_zero z1 -> is_zero z2 -> is_zero (fsub z1 z2).
Proof. intros [s1 ->] [s2 ->]. destruct s1, s2; cbn; eexists; reflexivity. Qed.

Lemma is_zero_fneg z : is_zero z -> is_zero (fneg z).
Proof. intros [s ->]. cbn. eexists; reflexivity. Qed.

Lemma is_zero_finite z : is_zero z -> is_finite z = true.
Proof. intros [s ->]. reflexivity. Qed.

Lemma is_finite_fneg a : is_finite a = true -> is_finite (fneg a) = true.
Proof. destruct a; intros H; try discriminate H; reflexivity. Qed.

Lemma is_zero_finite64 z : is_zero z -> finite64 z = true.
Proof. intros [s ->]. reflexivity. Qed.

Lemma is_zero_feqb z : is_zero z -> feqb z zero = true.
Proof. intros [s ->]. reflexivity. Qed.

Lemma same_value_is_zero a z : is_zero a -> is_zero z -> same_value a z.
Proof. intros [s ->] [s' ->]. apply same_value_zero. Qed.

Lemma same_value_plus_zero a z x :
  same_value a x -> is_zero z -> is_finite x = true -> same_value (fadd a z) x.
Proof. intros Ha [s ->] Hx. apply same_value_fadd_zero_r; assumption. Qed.

Lemma same_value_zero_plus z a x :
  is_zero z -> same_value a x -> is_finite x = true -> same_value (fadd z a) x.
Proof. intros [s ->] Ha Hx. apply same_value_fadd_zero_l; assumption. Qed.

Lemma same_value_minus_zero a z x :
  same_value a x -> is_zero z -> is_finite x = true -> same_value (fsub a z) x.
Proof. intros Ha [s ->] Hx. apply same_value_fsub_zero_r; assumption. Qed.
End SameValue.

Section MoreZeros.
Lemma is_zero_plus_finite z a :
  is_zero z -> is_finite a = true -> is_zero a \/ fadd z a = a.
Proof.
  intros [s ->] Ha. destruct a as [sa|sa| |sa m e]; try discriminate.
  - left. apply is_zero_S754_zero.
  - right. reflexivity.
Qed.

Lemma zero_plus_one z : is_zero z -> fadd z one = one.
Proof. intros [s ->]. reflexivity. Qed.

Lemma fdiv_one_one : fdiv one one = one.
Proof. vm_compute. reflexivity. Qed.
End MoreZeros.
(* ================================================================= *)
(** * Running a computation *)

Section Running.
Context {A B : Type}.

Lemma run_bind (c : M A) (k : A -> M B) w a w' :
  c w = Some (a, w') -> bind c k w = k a w'.
Proof. unfold bind. intros ->. reflexivity. Qed.

Lemma run_bind_assoc {C} (c : M A) (k1 : A -> M B) (k2 : B -> M C) w :
  bind (bind c k1) k2 w = bind c (fun a => bind (k1 a) k2) w.
Proof. unfold bind. destruct (c w) as [[a w']|]; reflexivity. Qed.

Lemma run_ret (a : A) w : ret a w = Some (a, w).
Proof. reflexivity. Qed.

Lemma returns_bind (c : M A) (k : A -> M B) w (Q1 : A -> world -> Prop)
    (Q : B -> world -> Prop) :
  returns (c w) Q1 ->
  (forall a w1, Q1 a w1 -> returns (k a w1) Q) ->
  returns (bind c k w) Q.
Proof.
  unfold returns, bind. destruct (c w) as [[a w1]|]; [|intros []].
  intros H1 Hk. apply (Hk a w1 H1).
Qed.
End Running.

Section HeapFacts.
Implicit Types (h : list object) (r : ref) (o : object).

Lemma lookup_snoc_new h o : (h ++ [o]) !! length h = Some o.
Proof. apply list_lookup_middle. reflexivity. Qed.

Lemma lookup_snoc_old h o r x : h !! r = Some x -> (h ++ [o]) !! r = Some x.
Proof. intros H. rewrite lookup_app_l; [exact H | exact (lookup_lt_Some _ _ _ H)]. Qed.

Lemma lookup_insert_same h r o x : h !! r = Some x -> <[r:=o]> h !! r = Some o.
Proof. intros H. apply list_lookup_insert_eq. exact (lookup_lt_Some _ _ _ H). Qed.

Lemma lookup_insert_other h r r' o x :
  r <> r' -> h !! r' = Some x -> <[r:=o]> h !! r' = Some x.
Proof. intros Hne H. rewrite list_lookup_insert_ne; assumption. Qed.

Lemma insert_insert_same h r o1 o2 : <[r:=o2]> (<[r:=o1]> h) = <[r:=o2]> h.
Proof. apply list_insert_insert_eq. Qed.

Lemma insert_snoc_new h o o' : <[length h:=o']> (h ++ [o]) = h ++ [o'].
Proof.
  rewrite insert_app_r_alt by lia. rewrite Nat.sub_diag. reflexivity.
Qed.

Lemma vector3_at_heap h s d r v :
  vector3_at (World h s d) r = Some v <-> h !! r = Some (ObjVector3 v).
Proof.
  unfold vector3_at. cbn [heap].
  destruct (h !! r) as [[ | | | ]|]; split; intros H; try discriminate H; congruence.
Qed.

Lemma quaternion_at_heap h s d r q :
  quaternion_at (World h s d) r = Some q <-> h !! r = Some (ObjQuaternion q).
Proof.
  unfold quaternion_at. cbn [heap].
  destruct (h !! r) as [[ | | | ]|]; split; intros H; try discriminate H; congruence.
Qed.

Lemma matrix_at_heap h s d r m :
  matrix_at (World h s d) r = Some m <-> h !! r = Some (ObjMatrix m).
Proof.
  unfold matrix_at. cbn [heap].
  destruct (h !! r) as [[ | | | ]|]; split; intros H; try discriminate H; congruence.
Qed.

Lemma plane_at_heap h s d r p :
  plane_at (World h s d) r = Some p <-> h !! r = Some (ObjPlane p).
Proof.
  unfold plane_at. cbn [heap].
  destruct (h !! r) as [[ | | | ]|]; split; intros H; try discriminate H; congruence.
Qed.

Lemma vector3_at_lookup w r v :
  heap w !! r = Some (ObjVector3 v) -> vector3_at w r = Some v.
Proof. intros H. unfold vector3_at. rewrite H. reflexivity. Qed.

Lemma new_divisors_same h s d h' s' : new_divisors (World h s d) (World h' s' d) = [].
Proof. unfold new_divisors. cbn [divisors]. apply drop_ge. lia. Qed.

Lemma new_divisors_app h s d h' s' l :
  new_divisors (World h s d) (World h' s' (d ++ l)) = l.
Proof. unfold new_divisors. cbn [divisors]. apply drop_app_length. Qed.
End HeapFacts.

Section Primitives.
Implicit Types (h : list object) (r : ref) (s : Z) (d : list number).

Lemma run_alloc o h s d :
  alloc o (World h s d) = Some (length h, World (h ++ [o]) s d).
Proof. reflexivity. Qed.

Lemma run_div a b h s d :
  div a b (World h s d) = Some (fdiv a b, World h s (d ++ [b])).
Proof. reflexivity. Qed.

Lemma run_next_updateFlag h s d :
  next_updateFlag (World h s d) = Some (s, World h (seed_succ s) d).
Proof. reflexivity. Qed.

Lemma run_load r o h s d :
  h !! r = Some o -> load r (World h s d) = Some (o, World h s d).
Proof. unfold load. cbn [heap]. intros ->. reflexivity. Qed.

Lemma run_store r o x h s d :
  h !! r = Some x -> store r o (World h s d) = Some (tt, World (<[r:=o]> h) s d).
Proof. unfold store. cbn [heap]. intros ->. reflexivity. Qed.

Lemma run_loadVector3 r v h s d :
  h !! r = Some (ObjVector3 v) -> loadVector3 r (World h s d) = Some (v, World h s d).
Proof.
  intros H. unfold loadVector3.
  rewrite (run_bind _ _ _ _ _ (run_load _ _ _ _ _ H)). reflexivity.
Qed.

Lemma run_loadQuaternion r q h s d :
  h !! r = Some (ObjQuaternion q) -> loadQuaternion r (World h s d) = Some (q, World h s d).
Proof.
  intros H. unfold loadQuaternion.
  rewrite (run_bind _ _ _ _ _ (run_load _ _ _ _ _ H)). reflexivity.
Qed.

Lemma run_loadMatrix r m h s d :
  h !! r = Some (ObjMatrix m) -> loadMatrix r (World h s d) = Some (m, World h s d).
Proof.
  intros H. unfold loadMatrix.
  rewrite (run_bind _ _ _ _ _ (run_load _ _ _ _ _ H)). reflexivity.
Qed.

Lemma run_loadPlane r p h s d :
  h !! r = Some (ObjPlane p) -> loadPlane r (World h s d) = Some (p, World h s d).
Proof.
  intros H. unfold loadPlane.
  rewrite (run_bind _ _ _ _ _ (run_load _ _ _ _ _ H)). reflexivity.
Qed.

Lemma run_getVector3 f r v h s d :
  h !! r = Some (ObjVector3 v) -> getVector3 f r (World h s d) = Some (f v, World h s d).
Proof.
  intros H. unfold getVector3.
  rewrite (run_bind _ _ _ _ _ (run_loadVector3 _ _ _ _ _ H)). reflexivity.
Qed.

Lemma run_setVector3 r upd v h s d :
  h !! r = Some (ObjVector3 v) ->
  setVector3 r upd (World h s d) = Some (tt, World (<[r:=ObjVector3 (upd v)]> h) s d).
Proof.
  intros H. unfold setVector3.
  rewrite (run_bind _ _ _ _ _ (run_loadVector3 _ _ _ _ _ H)).
  apply (run_store _ _ _ _ _ _ H).
Qed.

Lemma run_getQuaternion f r q h s d :
  h !! r = Some (ObjQuaternion q) ->
  getQuaternion f r (World h s d) = Some (f q, World h s d).
Proof.
  intros H. unfold getQuaternion.
  rewrite (run_bind _ _ _ _ _ (run_loadQuaternion _ _ _ _ _ H)). reflexivity.
Qed.

Lemma run_setQuaternion r upd q h s d :
  h !! r = Some (ObjQuaternion q) ->
  setQuaternion r upd (World h s d) = Some (tt, World (<[r:=ObjQuaternion (upd q)]> h) s d).
Proof.
  intros H. unfold setQuaternion.
  rewrite (run_bind _ _ _ _ _ (run_loadQuaternion _ _ _ _ _ H)).
  apply (run_store _ _ _ _ _ _ H).
Qed.

Lemma run_setMatrix r upd m h s d :
  h !! r = Some (ObjMatrix m) ->
  setMatrix r upd (World h s d) = Some (tt, World (<[r:=ObjMatrix (upd m)]> h) s d).
Proof.
  intros H. unfold setMatrix.
  rewrite (run_bind _ _ _ _ _ (run_loadMatrix _ _ _ _ _ H)).
  apply (run_store _ _ _ _ _ _ H).
Qed.

Lemma run_setPlane r upd p h s d :
  h !! r = Some (ObjPlane p) ->
  setPlane r upd (World h s d) = Some (tt, World (<[r:=ObjPlane (upd p)]> h) s d).
Proof.
  intros H. unfold setPlane.
  rewrite (run_bind _ _ _ _ _ (run_loadPlane _ _ _ _ _ H)).
  apply (run_store _ _ _ _ _ _ H).
Qed.

(** The three constructors of objects. *)
Lemma run_Vector3_create x y z h s d :
  Vector3.create x y z (World h s d)
  = Some (length h, World (h ++ [ObjVector3 (Vec3.mk x y z)]) s d).
Proof. reflexivity. Qed.

Lemma run_Vector3_Zero h s d :
  Vector3.Zero (World h s d)
  = Some (length h, World (h ++ [ObjVector3 (Vec3.mk zero zero zero)]) s d).
Proof. reflexivity. Qed.

Lemma run_Quaternion_create x y z w h s d :
  Quaternion.create x y z w (World h s d)
  = Some (length h, World (h ++ [ObjQuaternion (Quat.mk x y z w)]) s d).
Proof. reflexivity. Qed.

Lemma run_Quaternion_Identity h s d :
  Quaternion.Identity (World h s d)
  = Some (length h, World (h ++ [ObjQuaternion (Quat.mk zero zero zero one)]) s d).
Proof. reflexivity. Qed.
End Primitives.

(** Two references differ: by hypothesis, or because one of them is the
    length of a heap the other one indexes. *)
Ltac heap_bounds :=
  repeat match goal with
         | H : ?h !! ?r = Some _ |- _ =>
             lazymatch goal with
             | _ : (r < length h)%nat |- _ => fail
             | _ => pose proof (lookup_lt_Some _ _ _ H)
             end
         end.

Ltac solve_neq :=
  first [ assumption
        | apply not_eq_sym; assumption
        | let E := fresh in intro E; subst; congruence
        | heap_bounds; rewrite ?length_app, ?length_insert; cbn [length]; lia ].

(** A lookup in a heap built from the initial one by allocations and
    stores. *)
Ltac solve_lookup :=
  lazymatch goal with
  | |- (?h ++ [_]) !! length ?h = Some _ => apply lookup_snoc_new
  | |- (?h ++ [_]) !! _ = Some _ => apply lookup_snoc_old; solve_lookup
  | |- <[?r:=_]> _ !! ?r = Some _ => eapply lookup_insert_same; solve_lookup
  | |- <[_:=_]> _ !! _ = Some _ => eapply lookup_insert_other; [solve_neq | solve_lookup]
  | |- _ => eassumption
  end.

Ltac run_prim :=
  lazymatch goal with
  | |- ret _ _ = _ => apply run_ret
  | |- alloc _ _ = _ => apply run_alloc
  | |- div _ _ _ = _ => apply run_div
  | |- next_updateFlag _ = _ => apply run_next_updateFlag
  | |- loadVector3 _ _ = _ => eapply run_loadVector3; solve_lookup
  | |- loadQuaternion _ _ = _ => eapply run_loadQuaternion; solve_lookup
  | |- loadMatrix _ _ = _ => eapply run_loadMatrix; solve_lookup
  | |- loadPlane _ _ = _ => eapply run_loadPlane; solve_lookup
  | |- getVector3 _ _ _ = _ => eapply run_getVector3; solve_lookup
  | |- setVector3 _ _ _ = _ => eapply run_setVector3; solve_lookup
  | |- getQuaternion _ _ _ = _ => eapply run_getQuaternion; solve_lookup
  | |- setQuaternion _ _ _ = _ => eapply run_setQuaternion; solve_lookup
  | |- setMatrix _ _ _ = _ => eapply run_setMatrix; solve_lookup
  | |- setPlane _ _ _ = _ => eapply run_setPlane; solve_lookup
  | |- Vector3.create _ _ _ _ = _ => apply run_Vector3_create
  | |- Vector3.Zero _ = _ => apply run_Vector3_Zero
  | |- Quaternion.create _ _ _ _ _ = _ => apply run_Quaternion_create
  | |- Quaternion.Identity _ = _ => apply run_Quaternion_Identity
  end.

(** One statement of a run whose result is the left side of the goal;
    [last_step] is for the statement that ends the run. *)
Ltac step :=
  rewrite ?run_bind_assoc;
  lazymatch goal with
  | |- bind _ _ _ = _ =>
      etransitivity;
      [ eapply run_bind; run_prim
      | cbv beta iota zeta; cbn [fst snd Pln.normal]; rewrite ?insert_insert_same, ?insert_snoc_new ]
  end.

Ltac last_step :=
  etransitivity;
  [ run_prim | cbv beta iota zeta; rewrite ?insert_insert_same, ?insert_snoc_new ].

Ltac steps := repeat step; try last_step.

(** A sub-call with a lemma of its own. *)
Ltac step_with lem :=
  rewrite ?run_bind_assoc;
  etransitivity;
  [ eapply run_bind; eapply lem; solve_lookup
  | cbv beta iota zeta; cbn [fst snd Pln.normal]; rewrite ?insert_insert_same, ?insert_snoc_new ].

(** The same inside any goal that mentions the run. *)
Ltac rstep :=
  rewrite ?run_bind_assoc;
  erewrite run_bind by run_prim;
  cbv beta iota zeta; cbn [fst snd Pln.normal]; rewrite ?insert_insert_same, ?insert_snoc_new.

Ltac rstep_with lem :=
  rewrite ?run_bind_assoc;
  erewrite run_bind by (eapply lem; solve_lookup);
  cbv beta iota zeta; cbn [fst snd Pln.normal]; rewrite ?insert_insert_same, ?insert_snoc_new.

(** Goals [is_zero t] and [same_value t x], for a term [t] built from
    sums, differences and products in which every operand but [x]
    vanishes. *)
Ltac solve_finite :=
  first [ assumption
        | apply finite64_finite; assumption
        | reflexivity
        | apply is_finite_fneg; solve_finite
        | apply is_zero_finite; solve_zero ]
with solve_zero :=
  first [ assumption
        | apply is_zero_zero
        | apply is_zero_S754_zero
        | apply is_zero_fneg; solve_zero
        | apply is_zero_fmul_r; [solve_finite | solve_zero]
        | apply is_zero_fmul_l; [solve_zero | solve_finite]
        | apply is_zero_fadd; solve_zero
        | apply is_zero_fsub; solve_zero ].

Ltac solve_same :=
  first [ apply same_value_refl
        | assumption
        | apply same_value_fmul_one_r; [solve_same | assumption]
        | apply same_value_fmul_one_l; [solve_same | assumption]
        | apply same_value_plus_zero; [solve_same | solve_zero | solve_finite]
        | apply same_value_zero_plus; [solve_zero | solve_same | solve_finite]
        | apply same_value_minus_zero; [solve_same | solve_zero | solve_finite] ].

(** Closed sums, differences and products are replaced by their
    values. *)
Ltac closed_number t :=
  lazymatch t with
  | fadd ?a ?b => closed_number a; closed_number b
  | fsub ?a ?b => closed_number a; closed_number b
  | fmul ?a ?b => closed_number a; closed_number b
  | fneg ?a => closed_number a
  | zero => idtac
  | one => idtac
  | two => idtac
  | three => idtac
  | half => idtac
  | quarter => idtac
  | NaN => idtac
  | S754_nan => idtac
  | S754_zero true => idtac
  | S754_zero false => idtac
  | S754_infinity true => idtac
  | S754_infinity false => idtac
  | S754_finite true ?m _ => lazymatch m with xH => idtac | xO _ => idtac | xI _ => idtac end
  | S754_finite false ?m _ => lazymatch m with xH => idtac | xO _ => idtac | xI _ => idtac end
  end.

Ltac eval_number t :=
  closed_number t;
  let v := eval vm_compute in t in change t with v.

Ltac eval_numbers :=
  repeat match goal with
         | |- context [fadd ?a ?b] => eval_number (fadd a b)
         | |- context [fsub ?a ?b] => eval_number (fsub a b)
         | |- context [fmul ?a ?b] => eval_number (fmul a b)
         | |- context [fneg ?a] => eval_number (fneg a)
         end.

(** A run that returns with [P] returns with anything [P] implies. *)
Lemma returns_impl {A} (o : option (A * world)) (P Q : A -> world -> Prop) :
  (forall a w, P a w -> Q a w) -> returns o P -> returns o Q.
Proof. intros H. destruct o as [[a w]|]; [apply H|exact (fun f => f)]. Defined.

(* ================================================================= *)
(** * Vector3 *)

Section Vector3Facts.
Local Open Scope js_scope.
Implicit Types (h : list object) (s : Z) (d : list number) (v : Vec3.t).

Lemma run_Vector3_length vector v h s d :
  h !! vector = Some (ObjVector3 v) ->
  Vector3.length vector (World h s d)
  = Some (Math_sqrt (Vec3.x v * Vec3.x v + Vec3.y v * Vec3.y v + Vec3.z v * Vec3.z v),
          World h s d).
Proof. intros Hv. unfold Vector3.length. steps. reflexivity. Qed.

Lemma run_Vector3_lengthSquared vector v h s d :
  h !! vector = Some (ObjVector3 v) ->
  Vector3.lengthSquared vector (World h s d)
  = Some (Vec3.x v * Vec3.x v + Vec3.y v * Vec3.y v + Vec3.z v * Vec3.z v, World h s d).
Proof. intros Hv. unfold Vector3.lengthSquared. steps. reflexivity. Qed.

Lemma run_Vector3_copyFrom source dest v r0 h s d :
  h !! source = Some (ObjVector3 v) ->
  h !! dest = Some (ObjVector3 r0) ->
  Vector3.copyFrom source dest (World h s d)
  = Some (tt, World (<[dest:=ObjVector3 v]> h) s d).
Proof.
  intros Hv Hr. unfold Vector3.copyFrom.
  destruct (decide (source = dest)) as [->|Hne].
  - rewrite Hv in Hr. injection Hr as <-. steps. destruct v; reflexivity.
  - steps. destruct v, r0; reflexivity.
Qed.


Lemma run_Vector3_scaleToRef vector scale result v r0 h s d :
  h !! vector = Some (ObjVector3 v) ->
  h !! result = Some (ObjVector3 r0) ->
  Vector3.scaleToRef vector scale result (World h s d)
  = Some (tt, World (<[result:=ObjVector3 (scaled v scale)]> h) s d).
Proof.
  intros Hv Hr. unfold Vector3.scaleToRef, scaled.
  destruct (decide (vector = result)) as [->|Hne].
  - rewrite Hv in Hr. injection Hr as <-. steps. destruct v; reflexivity.
  - steps. destruct v, r0; reflexivity.
Qed.

Lemma run_Vector3_normalizeFromLengthToRef_copy vector len result v r0 h s d :
  h !! vector = Some (ObjVector3 v) ->
  h !! result = Some (ObjVector3 r0) ->
  (len === zero) || (len === one) = true ->
  Vector3.normalizeFromLengthToRef vector len result (World h s d)
  = Some (tt, World (<[result:=ObjVector3 v]> h) s d).
Proof.
  intros Hv Hr Hlen. unfold Vector3.normalizeFromLengthToRef. rewrite Hlen.
  eapply run_Vector3_copyFrom; eassumption.
Qed.

Lemma run_Vector3_normalizeFromLengthToRef_scale vector len result v r0 h s d :
  h !! vector = Some (ObjVector3 v) ->
  h !! result = Some (ObjVector3 r0) ->
  (len === zero) || (len === one) = false ->
  Vector3.normalizeFromLengthToRef vector len result (World h s d)
  = Some (tt, World (<[result:=ObjVector3 (scaled v (fdiv one len))]> h) s (d ++ [len])).
Proof.
  intros Hv Hr Hlen. unfold Vector3.normalizeFromLengthToRef. rewrite Hlen.
  step. eapply run_Vector3_scaleToRef; eassumption.
Qed.

Lemma run_Vector3_normalizeFromLength_copy vector len v h s d :
  h !! vector = Some (ObjVector3 v) ->
  (len === zero) || (len === one) = true ->
  Vector3.normalizeFromLength vector len (World h s d)
  = Some (length h, World (h ++ [ObjVector3 v]) s d).
Proof.
  intros Hv Hlen. unfold Vector3.normalizeFromLength.
  step_with run_Vector3_create.
  etransitivity.
  { eapply run_bind. eapply run_Vector3_normalizeFromLengthToRef_copy; [solve_lookup .. | exact Hlen]. }
  cbv beta. rewrite insert_snoc_new. reflexivity.
Qed.

Lemma run_Vector3_normalizeFromLength_scale vector len v h s d :
  h !! vector = Some (ObjVector3 v) ->
  (len === zero) || (len === one) = false ->
  Vector3.normalizeFromLength vector len (World h s d)
  = Some (length h, World (h ++ [ObjVector3 (scaled v (fdiv one len))]) s (d ++ [len])).
Proof.
  intros Hv Hlen. unfold Vector3.normalizeFromLength.
  step_with run_Vector3_create.
  etransitivity.
  { eapply run_bind. eapply run_Vector3_normalizeFromLengthToRef_scale; [solve_lookup .. | exact Hlen]. }
  cbv beta. rewrite insert_snoc_new. reflexivity.
Qed.

(** C6. [Vector3.normalize] of a vector whose computed length is
    exactly 0 or exactly 1 returns a vector with the same components
    (and leaves the input as it was), [normalizeToRef] copies the
    input into the output, and, for every input vector, the only
    division either of them performs has a divisor that is not zero. *)
Theorem Vector3_normalize_zero_or_unit_length :
  forall (w : world) (vector result : ref) (v r0 : Vec3.t) (len : number),
    vector3_at w vector = Some v ->
    vector3_at w result = Some r0 ->
    result_of (Vector3.length vector w) = Some len ->
    (exists r w',
        Vector3.normalize vector w = Some (r, w') /\
        Forall (fun k => (k === zero) = false) (new_divisors w w') /\
        vector3_at w' vector = Some v /\
        ((len === zero) || (len === one) = true -> vector3_at w' r = Some v)) /\
    (exists w',
        Vector3.normalizeToRef vector result w = Some (tt, w') /\
        Forall (fun k => (k === zero) = false) (new_divisors w w') /\
        ((len === zero) || (len === one) = true -> vector3_at w' result = Some v)).
Proof.
  intros [h s d] vector result v r0 len Hv Hr Hlen.
  apply vector3_at_heap in Hv. apply vector3_at_heap in Hr.
  rewrite (run_Vector3_length _ _ _ _ _ Hv) in Hlen. cbn [result_of] in Hlen.
  injection Hlen as Hlen.
  destruct ((len === zero) || (len === one)) eqn:Hc.
  - split.
    + exists (length h), (World (h ++ [ObjVector3 v]) s d).
      split; [|split; [|split]].
      * unfold Vector3.normalize.
        step_with run_Vector3_length. rewrite Hlen.
        apply run_Vector3_normalizeFromLength_copy; assumption.
      * rewrite new_divisors_same. constructor.
      * apply vector3_at_heap. solve_lookup.
      * intros _. apply vector3_at_heap. solve_lookup.
    + exists (World (<[result:=ObjVector3 v]> h) s d).
      split; [|split].
      * unfold Vector3.normalizeToRef.
        step_with run_Vector3_length. rewrite Hlen.
        eapply run_Vector3_normalizeFromLengthToRef_copy; eassumption.
      * rewrite new_divisors_same. constructor.
      * intros _. apply vector3_at_heap. solve_lookup.
  - pose proof Hc as Hc'. apply orb_false_elim in Hc' as [Hz _].
    split.
    + exists (length h), (World (h ++ [ObjVector3 (scaled v (fdiv one len))]) s (d ++ [len])).
      split; [|split; [|split]].
      * unfold Vector3.normalize.
        step_with run_Vector3_length. rewrite Hlen.
        apply run_Vector3_normalizeFromLength_scale; assumption.
      * rewrite new_divisors_app. repeat constructor. exact Hz.
      * apply vector3_at_heap. solve_lookup.
      * intros H. discriminate H.
    + exists (World (<[result:=ObjVector3 (scaled v (fdiv one len))]> h) s (d ++ [len])).
      split; [|split].
      * unfold Vector3.normalizeToRef.
        step_with run_Vector3_length. rewrite Hlen.
        eapply run_Vector3_normalizeFromLengthToRef_scale; eassumption.
      * rewrite new_divisors_app. repeat constructor. exact Hz.
      * intros H. discriminate H.
Qed.

Lemma Vector3_normalize_zero_or_unit_length_witness :
  (exists r w',
      Vector3.normalize 0%nat unit_x_world = Some (r, w') /\
      Forall (fun k => (k === zero) = false) (new_divisors unit_x_world w') /\
      vector3_at w' 0%nat = Some (Vec3.mk one zero zero) /\
      ((one === zero) || (one === one) = true ->
       vector3_at w' r = Some (Vec3.mk one zero zero))) /\
  (exists w',
      Vector3.normalizeToRef 0%nat 1%nat unit_x_world = Some (tt, w') /\
      Forall (fun k => (k === zero) = false) (new_divisors unit_x_world w') /\
      ((one === zero) || (one === one) = true ->
       vector3_at w' 1%nat = Some (Vec3.mk one zero zero))).
Proof.
  exact (Vector3_normalize_zero_or_unit_length unit_x_world 0%nat 1%nat
           (Vec3.mk one zero zero) (Vec3.mk NaN NaN NaN) one
           eq_refl eq_refl eq_refl).
Defined.

(** The statement of C6 is about the Vector3 file that has [copyFrom]. In
    src/Vector3.ts, [copy] assigns [dest.x] three times, and [normalize]
    of the unit vector (0, 1, 0) is (0, 0, 0). *)
Lemma Vector3_ts_normalize_unit_y :
  result_of (vector3_ts_normalize_unit_y initial_world) = Some (Vec3.mk zero zero zero).
Proof. vm_compute. reflexivity. Qed.
End Vector3Facts.

(* ================================================================= *)
(** * Quaternion *)

Section QuaternionFacts.
Local Open Scope js_scope.
Implicit Types (h : list object) (s : Z) (d : list number) (q : Quat.t).

Lemma quaternion_length_of_eq q :
  quaternion_length_of q
  = Math_sqrt (Quat.x q * Quat.x q + Quat.y q * Quat.y q + Quat.z q * Quat.z q
               + Quat.w q * Quat.w q).
Proof. reflexivity. Qed.

Lemma run_Quaternion_length r q h s d :
  h !! r = Some (ObjQuaternion q) ->
  Quaternion.length r (World h s d) = Some (quaternion_length_of q, World h s d).
Proof.
  intros Hq. unfold Quaternion.length, Quaternion.lengthSquared.
  steps. rewrite quaternion_length_of_eq. reflexivity.
Qed.

Lemma run_Quaternion_normalize r q h s d :
  h !! r = Some (ObjQuaternion q) ->
  Quaternion.normalize r (World h s d)
  = Some (length h,
          World (h ++ [ObjQuaternion
                         (Quat.mk (Quat.x q * fdiv one (quaternion_length_of q))
                                  (Quat.y q * fdiv one (quaternion_length_of q))
                                  (Quat.z q * fdiv one (quaternion_length_of q))
                                  (Quat.w q * fdiv one (quaternion_length_of q)))])
                s (d ++ [quaternion_length_of q])).
Proof.
  intros Hq. unfold Quaternion.normalize.
  step_with run_Quaternion_length.
  steps. apply run_Quaternion_create.
Qed.

(** C4, the counterexample. [Quaternion.normalize] of the zero quaternion
    is (NaN, NaN, NaN, NaN): no component is finite. *)
Lemma Quaternion_normalize_zero_is_NaN :
  result_of (quaternion_normalize_zero_case initial_world)
  = Some (Quat.mk NaN NaN NaN NaN)
  /\ quat_all is_finite (Quat.mk NaN NaN NaN NaN) = false.
Proof. split; vm_compute; reflexivity. Qed.

(** C4, as amended. [Quaternion.normalize] returns a quaternion for
    every input and raises nothing, but it has no fallback for a zero
    length: when the computed length of [q] is 0, every component of the
    result is NaN or an infinity; when the computed length is exactly 1,
    the result has the components of [q]. *)
Theorem Quaternion_normalize_without_fallback :
  forall (w : world) (q : ref) (v : Quat.t),
    quaternion_at w q = Some v ->
    exists r w' v',
      Quaternion.normalize q w = Some (r, w') /\
      quaternion_at w' r = Some v' /\
      ((quaternion_length_of v === zero) = true ->
       quat_all (fun a => negb (is_finite a)) v' = true) /\
      ((quaternion_length_of v === one) = true ->
       quat_all is_binary64 v = true -> v' = v).
Proof.
  intros [h s d] q v Hq. apply quaternion_at_heap in Hq.
  eexists _, _, _. split; [apply (run_Quaternion_normalize _ _ _ _ _ Hq)|].
  split; [apply quaternion_at_heap; solve_lookup|].
  split.
  - intros Hz. apply feqb_zero_inv in Hz as [sz ->].
    rewrite fdiv_one_zero. unfold quat_all. cbn [Quat.x Quat.y Quat.z Quat.w].
    rewrite !fmul_infinity_not_finite. reflexivity.
  - intros H1 Hb. apply feqb_one_inv in H1. rewrite H1.
    change (fdiv one one) with one.
    unfold quat_all in Hb.
    apply andb_prop in Hb as [Hb Hw]. apply andb_prop in Hb as [Hb Hz].
    apply andb_prop in Hb as [Hx Hy].
    rewrite !fmul_one_r by assumption. destruct v; reflexivity.
Qed.

Lemma Quaternion_normalize_without_fallback_witness :
  exists r w' v',
    Quaternion.normalize 0%nat opposite_quaternions_world = Some (r, w') /\
    quaternion_at w' r = Some v' /\
    ((quaternion_length_of (Quat.mk zero zero zero one) === zero) = true ->
     quat_all (fun a => negb (is_finite a)) v' = true) /\
    ((quaternion_length_of (Quat.mk zero zero zero one) === one) = true ->
     quat_all is_binary64 (Quat.mk zero zero zero one) = true ->
     v' = Quat.mk zero zero zero one).
Proof.
  exact (Quaternion_normalize_without_fallback opposite_quaternions_world 0%nat
           (Quat.mk zero zero zero one) eq_refl).
Defined.








(** C9. [Quaternion.angleAxis] with a zero axis returns the identity
    quaternion (0, 0, 0, 1) for every angle and every host: no component
    is NaN and no division is performed. *)
Theorem Quaternion_angleAxis_zero_axis :
  forall (Math_sin Math_cos : number -> number) (w : world) (degress : number)
         (axis : ref) (v : Vec3.t),
    vector3_at w axis = Some v ->
    vec3_all (fun a => a === zero) v = true ->
    exists r w',
      Quaternion.angleAxis Math_sin Math_cos degress axis w = Some (r, w') /\
      quaternion_at w' r = Some (Quat.mk zero zero zero one) /\
      quat_all (fun a => negb (is_nan a)) (Quat.mk zero zero zero one) = true /\
      new_divisors w w' = [].
Proof.
  intros Math_sin Math_cos [h s d] degress axis v Hv Hz.
  apply vector3_at_heap in Hv.
  unfold vec3_all in Hz.
  apply andb_prop in Hz as [Hz Hz3]. apply andb_prop in Hz as [Hz1 Hz2].
  apply feqb_zero_inv in Hz1 as [s1 H1], Hz2 as [s2 H2], Hz3 as [s3 H3].
  destruct v as [vx vy vz]. cbn [Vec3.x Vec3.y Vec3.z] in H1, H2, H3. subst vx vy vz.
  eexists _, _. split; [|split; [|split]].
  - unfold Quaternion.angleAxis.
    step_with run_Vector3_lengthSquared.
    cbn [Vec3.x Vec3.y Vec3.z]. rewrite zero_lengthSquared.
    change (zero === zero) with true. cbv iota.
    apply run_Quaternion_Identity.
  - apply quaternion_at_heap. solve_lookup.
  - reflexivity.
  - apply new_divisors_same.
Qed.

Lemma Quaternion_angleAxis_zero_axis_witness :
  exists r w',
    Quaternion.angleAxis series_sin series_cos (of_Z 90) 0%nat zero_vector_world
    = Some (r, w') /\
    quaternion_at w' r = Some (Quat.mk zero zero zero one) /\
    quat_all (fun a => negb (is_nan a)) (Quat.mk zero zero zero one) = true /\
    new_divisors zero_vector_world w' = [].
Proof.
  exact (Quaternion_angleAxis_zero_axis series_sin series_cos zero_vector_world
           (of_Z 90) 0%nat (Vec3.mk zero zero zero) eq_refl eq_refl).
Defined.

(** [fromRotationMatrixToRef] writes to its result and to nothing else. *)
Lemma fromRotationMatrixToRef_frame matrix result mm q0 h s d :
  h !! matrix = Some (ObjMatrix mm) ->
  h !! result = Some (ObjQuaternion q0) ->
  returns (Quaternion.fromRotationMatrixToRef matrix result (World h s d))
          (fun _ w' => forall r o, r <> result -> h !! r = Some o -> heap w' !! r = Some o).
Proof.
  intros Hm Hq. unfold Quaternion.fromRotationMatrixToRef.
  rstep.
  repeat match goal with
         | |- context [if ?c then _ else _] => destruct c
         end;
    repeat rstep.
  all: try (erewrite run_setQuaternion by solve_lookup).
  all: cbv [returns]; cbn [heap]; intros r o Hne Hr; solve_lookup.
Qed.

End QuaternionFacts.

(* ================================================================= *)
(** * Matrix *)

Section MatrixFacts.
Local Open Scope js_scope.
Implicit Types (h : list object) (s : Z) (d : list number) (m : Mat.t).

Lemma run__markAsUpdated self m h s d :
  h !! self = Some (ObjMatrix m) ->
  Matrix._markAsUpdated self (World h s d)
  = Some (tt, World (<[self:=ObjMatrix (marked s m)]> h) (seed_succ s) d).
Proof. intros Hm. unfold Matrix._markAsUpdated. steps. reflexivity. Qed.

Lemma run__updateIdentityStatus self i id i32 i32d m h s d :
  h !! self = Some (ObjMatrix m) ->
  Matrix._updateIdentityStatus self i id i32 i32d (World h s d)
  = Some (tt, World (<[self:=ObjMatrix (with_status s i id i32 i32d m)]> h) (seed_succ s) d).
Proof. intros Hm. unfold Matrix._updateIdentityStatus. steps. reflexivity. Qed.

Lemma run_Matrix_create h s d :
  Matrix.create (World h s d)
  = Some (length h,
          World (h ++ [ObjMatrix (Mat.mk s false false false true zero16)]) (seed_succ s) d).
Proof.
  unfold Matrix.create. step.
  step_with run__updateIdentityStatus.
  last_step. reflexivity.
Qed.

Lemma run_fromValuesToRef a0 a1 a2 a3 a4 a5 a6 a7 a8 a9 a10 a11 a12 a13 a14 a15
    result m h s d :
  h !! result = Some (ObjMatrix m) ->
  Matrix.fromValuesToRef a0 a1 a2 a3 a4 a5 a6 a7 a8 a9 a10 a11 a12 a13 a14 a15 result
    (World h s d)
  = Some (tt,
          World (<[result:=ObjMatrix
                     (Mat.mk s false false true true
                        (M16 a0 a1 a2 a3 a4 a5 a6 a7 a8 a9 a10 a11 a12 a13 a14 a15))]> h)
                (seed_succ s) d).
Proof.
  intros Hm. unfold Matrix.fromValuesToRef.
  do 16 step.
  etransitivity; [eapply run__markAsUpdated; solve_lookup|].
  rewrite insert_insert_same.
  destruct m as [f i i32 id i32d [b0 b1 b2 b3 b4 b5 b6 b7 b8 b9 b10 b11 b12 b13 b14 b15]].
  reflexivity.
Qed.

Lemma run_fromValues a0 a1 a2 a3 a4 a5 a6 a7 a8 a9 a10 a11 a12 a13 a14 a15 h s d :
  Matrix.fromValues a0 a1 a2 a3 a4 a5 a6 a7 a8 a9 a10 a11 a12 a13 a14 a15 (World h s d)
  = Some (length h,
          World (h ++ [ObjMatrix
                         (Mat.mk (seed_succ s) false false true true
                            (M16 a0 a1 a2 a3 a4 a5 a6 a7 a8 a9 a10 a11 a12 a13 a14 a15))])
                (seed_succ (seed_succ s)) d).
Proof.
  unfold Matrix.fromValues.
  step_with run_Matrix_create.
  do 16 step.
  step_with run__markAsUpdated.
  last_step. reflexivity.
Qed.

Lemma run_Matrix_Identity h s d :
  Matrix.Identity (World h s d)
  = Some (length h,
          World (h ++ [ObjMatrix
                         (Mat.mk (seed_succ (seed_succ s)) true true false false identity16)])
                (seed_succ (seed_succ (seed_succ s))) d).
Proof.
  unfold Matrix.Identity.
  step_with run_fromValues.
  step_with run__updateIdentityStatus.
  last_step. reflexivity.
Qed.

Lemma run_determinant self m h s d :
  h !! self = Some (ObjMatrix m) ->
  Matrix.determinant self (World h s d) = Some (determinant_of m, World h s d).
Proof.
  intros Hm. unfold determinant_of, Matrix.determinant.
  step.
  etransitivity; [|symmetry].
  2:{ erewrite run_bind by (eapply run_loadMatrix; reflexivity). cbv beta zeta. reflexivity. }
  destruct (Bool.eqb (Mat.isIdentity m) true); reflexivity.
Qed.

(** The loop of [copyToArray], by induction on the iterations left: once
    for two distinct matrices, once for a matrix copied onto itself. *)
Lemma run_copyToArray_from_distinct self arrayDest ms :
  forall n index md h s d,
    h !! self = Some (ObjMatrix ms) ->
    h !! arrayDest = Some (ObjMatrix md) ->
    self <> arrayDest ->
    Matrix.copyToArray_from self arrayDest 0 index n (World h s d)
    = Some (tt, World (<[arrayDest:=ObjMatrix (copy_entries (Mat._m ms) index n md)]> h) s d).
Proof.
  induction n as [|n IH]; intros index md h s d Hs Hd Hne.
  - cbn [Matrix.copyToArray_from copy_entries].
    rewrite (list_insert_id _ _ _ Hd). reflexivity.
  - cbn [Matrix.copyToArray_from copy_entries Nat.add].
    step. step.
    erewrite IH; [| solve_lookup | solve_lookup | exact Hne].
    rewrite insert_insert_same. reflexivity.
Qed.

Lemma run_copyToArray_from_itself self :
  forall n index m h s d,
    h !! self = Some (ObjMatrix m) ->
    Matrix.copyToArray_from self self 0 index n (World h s d)
    = Some (tt, World (<[self:=ObjMatrix (copy_onto_itself index n m)]> h) s d).
Proof.
  induction n as [|n IH]; intros index m h s d Hs.
  - cbn [Matrix.copyToArray_from copy_onto_itself].
    rewrite (list_insert_id _ _ _ Hs). reflexivity.
  - cbn [Matrix.copyToArray_from copy_onto_itself Nat.add].
    step. step.
    erewrite IH by solve_lookup.
    rewrite insert_insert_same. reflexivity.
Qed.

Lemma copy_entries_all src md :
  copy_entries src 0 16 md
  = Mat.mk (Mat.updateFlag md) (Mat.isIdentity md) (Mat.isIdentity3x2 md)
           (Mat._isIdentityDirty md) (Mat._isIdentity3x2Dirty md) src.
Proof.
  destruct src as [b0 b1 b2 b3 b4 b5 b6 b7 b8 b9 b10 b11 b12 b13 b14 b15].
  destruct md as [f i i32 id i32d [c0 c1 c2 c3 c4 c5 c6 c7 c8 c9 c10 c11 c12 c13 c14 c15]].
  reflexivity.
Qed.

Lemma copy_onto_itself_all m : copy_onto_itself 0 16 m = m.
Proof.
  destruct m as [f i i32 id i32d [c0 c1 c2 c3 c4 c5 c6 c7 c8 c9 c10 c11 c12 c13 c14 c15]].
  reflexivity.
Qed.

Lemma run_copyToArray self arrayDest ms md h s d :
  h !! self = Some (ObjMatrix ms) ->
  h !! arrayDest = Some (ObjMatrix md) ->
  Matrix.copyToArray self arrayDest 0 (World h s d)
  = Some (tt,
          World (<[arrayDest:=ObjMatrix
                     (Mat.mk (Mat.updateFlag md) (Mat.isIdentity md) (Mat.isIdentity3x2 md)
                             (Mat._isIdentityDirty md) (Mat._isIdentity3x2Dirty md)
                             (Mat._m ms))]> h) s d).
Proof.
  intros Hs Hd. unfold Matrix.copyToArray.
  destruct (decide (self = arrayDest)) as [->|Hne].
  - rewrite Hs in Hd. injection Hd as <-.
    rewrite (run_copyToArray_from_itself _ _ _ _ _ _ _ Hs), copy_onto_itself_all.
    destruct ms; reflexivity.
  - rewrite (run_copyToArray_from_distinct _ _ _ _ _ _ _ _ _ Hs Hd Hne), copy_entries_all.
    reflexivity.
Qed.

(** [copy]: the destination receives the sixteen entries and the
    identity status of the source, and a new stamp. *)
Lemma run_Matrix_copy from dest mf md h s d :
  h !! from = Some (ObjMatrix mf) ->
  h !! dest = Some (ObjMatrix md) ->
  Matrix.copy from dest (World h s d)
  = Some (tt,
          World (<[dest:=ObjMatrix
                     (with_status s (Mat.isIdentity mf) (Mat._isIdentityDirty mf)
                        (Mat.isIdentity3x2 mf) (Mat._isIdentity3x2Dirty mf) mf)]> h)
                (seed_succ s) d).
Proof.
  intros Hf Hd. unfold Matrix.copy.
  step_with run_copyToArray.
  destruct (decide (from = dest)) as [->|Hne].
  - rewrite Hf in Hd. injection Hd as <-.
    step. etransitivity; [eapply run__updateIdentityStatus; solve_lookup|].
    rewrite insert_insert_same. reflexivity.
  - step. etransitivity; [eapply run__updateIdentityStatus; solve_lookup|].
    rewrite insert_insert_same. reflexivity.
Qed.

Lemma run_invertToRef_identity source result ms mr h s d :
  h !! source = Some (ObjMatrix ms) ->
  h !! result = Some (ObjMatrix mr) ->
  Mat.isIdentity ms = true ->
  Matrix.invertToRef source result (World h s d)
  = Matrix.copy source result (World h s d).
Proof.
  intros Hs Hr Hi. unfold Matrix.invertToRef.
  step. rewrite Hi. reflexivity.
Qed.

Lemma run_invertToRef_singular source result ms mr h s d :
  h !! source = Some (ObjMatrix ms) ->
  h !! result = Some (ObjMatrix mr) ->
  Mat.isIdentity ms = false ->
  (determinant_of ms === zero) = true ->
  Matrix.invertToRef source result (World h s d)
  = Matrix.copy source result (World h s d).
Proof.
  intros Hs Hr Hi Hdet. unfold Matrix.invertToRef.
  step. rewrite Hi. cbn [Bool.eqb].
  unfold determinant_of, Matrix.determinant in Hdet.
  erewrite run_bind in Hdet by (eapply run_loadMatrix; reflexivity).
  cbv beta zeta in Hdet. rewrite Hi in Hdet. cbn [Bool.eqb] in Hdet.
  change (ret ?a ?w) with (Some (a, w)) in Hdet. cbv beta iota in Hdet.
  rewrite Hdet. reflexivity.
Qed.

(** A determinant that is [0] was computed from sixteen finite entries. *)
Lemma determinant_zero_finite_entries m :
  Mat.isIdentity m = false ->
  (determinant_of m === zero) = true ->
  Forall (fun e => is_finite e = true) (entries (Mat._m m)).
Proof.
  intros Hi Hdet. apply feqb_zero_finite in Hdet.
  unfold determinant_of, Matrix.determinant in Hdet.
  erewrite run_bind in Hdet by (eapply run_loadMatrix; reflexivity).
  cbv beta zeta in Hdet. rewrite Hi in Hdet. cbn [Bool.eqb] in Hdet.
  change (ret ?a ?w) with (Some (a, w)) in Hdet. cbv beta iota in Hdet.
  destruct m as [f i i32 id i32d [b0 b1 b2 b3 b4 b5 b6 b7 b8 b9 b10 b11 b12 b13 b14 b15]].
  cbn [Mat._m get16 e0 e1 e2 e3 e4 e5 e6 e7 e8 e9 e10 e11 e12 e13 e14 e15] in Hdet.
  repeat match goal with
         | H : is_finite (fadd _ _) = true |- _ => apply fadd_finite in H as [? ?]
         | H : is_finite (fsub _ _) = true |- _ => apply fsub_finite in H as [? ?]
         | H : is_finite (fmul _ _) = true |- _ => apply fmul_finite in H as [? ?]
         | H : is_finite (fneg _) = true |- _ => apply fneg_finite in H
         end.
  unfold entries. cbn [Mat._m e0 e1 e2 e3 e4 e5 e6 e7 e8 e9 e10 e11 e12 e13 e14 e15].
  repeat constructor; assumption.
Qed.

(** C5. When the source's [isIdentity] flag is true, and when its
    determinant is exactly 0, [invertToRef] copies the sixteen entries of
    the source into the result and performs no division; in the second
    case the entries it stores are all finite. *)
Theorem Matrix_invertToRef_identity_or_singular :
  forall (w : world) (source result : ref) (ms mr : Mat.t),
    matrix_at w source = Some ms ->
    matrix_at w result = Some mr ->
    (Mat.isIdentity ms = true \/
     exists det, result_of (Matrix.determinant source w) = Some det /\ (det === zero) = true) ->
    exists w' mr',
      Matrix.invertToRef source result w = Some (tt, w') /\
      matrix_at w' result = Some mr' /\
      Mat._m mr' = Mat._m ms /\
      Mat.isIdentity mr' = Mat.isIdentity ms /\
      new_divisors w w' = [] /\
      (Mat.isIdentity ms = false ->
       Forall (fun e => is_finite e = true) (entries (Mat._m mr'))).
Proof.
  intros [h s d] source result ms mr Hs Hr Hcase.
  apply matrix_at_heap in Hs. apply matrix_at_heap in Hr.
  assert (Matrix.invertToRef source result (World h s d)
          = Matrix.copy source result (World h s d)
          /\ (Mat.isIdentity ms = false ->
              Forall (fun e => is_finite e = true) (entries (Mat._m ms)))) as [Hrun Hfin].
  { destruct Hcase as [Hi|[det [Hdet Hz]]].
    - split; [eapply run_invertToRef_identity; eassumption|].
      intros Hf. rewrite Hi in Hf. discriminate Hf.
    - rewrite (run_determinant _ _ _ _ _ Hs) in Hdet. cbn [result_of] in Hdet.
      injection Hdet as <-.
      destruct (Mat.isIdentity ms) eqn:Hi.
      + split; [eapply run_invertToRef_identity; eassumption|].
        intros Hf. discriminate Hf.
      + split; [eapply run_invertToRef_singular; eassumption|].
        intros _. apply determinant_zero_finite_entries; assumption. }
  eexists _, _.
  split; [rewrite Hrun; eapply run_Matrix_copy; eassumption|].
  split; [apply matrix_at_heap; solve_lookup|].
  split; [reflexivity|].
  split; [reflexivity|].
  split; [apply new_divisors_same|].
  exact Hfin.
Qed.

Lemma Matrix_invertToRef_identity_or_singular_witness :
  exists w' mr',
    Matrix.invertToRef 0%nat 1%nat two_matrices_world = Some (tt, w') /\
    matrix_at w' 1%nat = Some mr' /\
    Mat._m mr' = zero16 /\
    Mat.isIdentity mr' = false /\
    new_divisors two_matrices_world w' = [] /\
    (false = false -> Forall (fun e => is_finite e = true) (entries (Mat._m mr'))).
Proof.
  exact (Matrix_invertToRef_identity_or_singular two_matrices_world 0%nat 1%nat
           (Mat.mk 0 false false false true zero16) (Mat.mk 1 false false false true zero16)
           eq_refl eq_refl
           (or_intror (ex_intro _ zero (conj eq_refl eq_refl)))).
Defined.

(** With only the scale output, [decompose] writes to that vector and
    to nothing else that was in the heap. *)
Lemma decompose_scale_only_frame self sc ms v0 h s d :
  h !! self = Some (ObjMatrix ms) ->
  h !! sc = Some (ObjVector3 v0) ->
  returns (Matrix.decompose self (Some sc) None None (World h s d))
          (fun _ w' => forall r o, r <> sc -> h !! r = Some o -> heap w' !! r = Some o).
Proof.
  intros Hm Hv. unfold Matrix.decompose.
  rstep. destruct (Mat.isIdentity ms).
  - repeat rstep. cbv [returns ret]; cbn [heap]. intros r o _ Hr. solve_lookup.
  - repeat rstep.
    rstep_with run_determinant.
    destruct (determinant_of ms <= zero).
    + repeat rstep.
      match goal with |- context [if ?c then _ else _] => destruct c end.
      * repeat rstep. cbv [returns ret]; cbn [heap]. intros r o Hne Hr. solve_lookup.
      * cbv [returns ret]; cbn [heap]. intros r o Hne Hr. solve_lookup.
    + repeat rstep.
      match goal with |- context [if ?c then _ else _] => destruct c end.
      * repeat rstep. cbv [returns ret]; cbn [heap]. intros r o Hne Hr. solve_lookup.
      * cbv [returns ret]; cbn [heap]. intros r o Hne Hr. solve_lookup.
Qed.

(** With only the scale output, [decompose] returns false exactly when
    the matrix is not flagged as the identity and a component of the
    extracted scale is 0. *)
Lemma Matrix_decompose_scale_only_result :
  forall (w : world) (self sc : ref) (ms : Mat.t) (vs : Vec3.t),
    matrix_at w self = Some ms ->
    vector3_at w sc = Some vs ->
    result_of (Matrix.decompose self (Some sc) None None w)
    = Some (Mat.isIdentity ms
            || negb ((Vec3.x (extracted_scale ms) === zero)
                     || (Vec3.y (extracted_scale ms) === zero)
                     || (Vec3.z (extracted_scale ms) === zero))).
Proof.
  intros [h s d] self sc ms vs Hs Hsc.
  apply matrix_at_heap in Hs. apply vector3_at_heap in Hsc.
  unfold Matrix.decompose.
  rstep. destruct (Mat.isIdentity ms); cbn [orb].
  - repeat rstep. reflexivity.
  - do 5 rstep.
    rstep_with run_determinant.
    unfold extracted_scale, row_magnitude. cbv zeta.
    destruct (determinant_of ms <= zero) eqn:Hdet; repeat rstep;
      cbn [with_x with_y with_z Vec3.x Vec3.y Vec3.z get16];
      match goal with
      | |- result_of ((if ?c then _ else _) _) = _ => destruct c eqn:Hz
      end;
      repeat rstep; reflexivity.
Qed.
(** C10. When the call of [decompose] inside [getRotationMatrixToRef]
    returns false, [getRotationMatrixToRef] returns and the matrix the
    caller passed as [result] is the object it was: its sixteen entries,
    its flags and its update flag are unchanged. *)
Theorem Matrix_getRotationMatrixToRef_failure_keeps_result :
  forall (w : world) (self result : ref) (ms mr : Mat.t),
    matrix_at w self = Some ms ->
    matrix_at w result = Some mr ->
    result_of ((scale <- Vector3.Zero ;; Matrix.decompose self (Some scale) None None) w)
    = Some false ->
    exists w',
      Matrix.getRotationMatrixToRef self result w = Some (tt, w') /\
      matrix_at w' result = Some mr.
Proof.
  intros [h s d] self result ms mr Hs Hr Hfail.
  apply matrix_at_heap in Hs. apply matrix_at_heap in Hr.
  unfold Matrix.getRotationMatrixToRef.
  rewrite (run_bind _ _ _ _ _ (run_Vector3_Zero h s d)) in Hfail.
  rewrite (run_bind _ _ _ _ _ (run_Vector3_Zero h s d)).
  cbv beta in Hfail |- *.
  assert (H0 : (h ++ [ObjVector3 (Vec3.mk zero zero zero)]) !! self = Some (ObjMatrix ms))
    by solve_lookup.
  assert (H1 : (h ++ [ObjVector3 (Vec3.mk zero zero zero)]) !! length h
               = Some (ObjVector3 (Vec3.mk zero zero zero))) by solve_lookup.
  pose proof (decompose_scale_only_frame self (length h) ms _ _ s d H0 H1) as Hframe.
  match type of Hfail with
  | result_of ?run = _ =>
      destruct run as [[b [h1 s1 d1]]|] eqn:Hdec; cbn [result_of] in Hfail;
      [|discriminate Hfail]
  end.
  injection Hfail as ->.
  cbv [returns] in Hframe. cbn [heap] in Hframe.
  assert (Hr1 : h1 !! result = Some (ObjMatrix mr)).
  { apply Hframe; [solve_neq | solve_lookup]. }
  rewrite (run_bind _ _ _ _ _ Hdec). cbn [negb].
  eexists. split.
  - step_with run_Matrix_Identity. last_step. reflexivity.
  - apply matrix_at_heap. solve_lookup.
Qed.

Lemma Matrix_getRotationMatrixToRef_failure_keeps_result_witness :
  exists w',
    Matrix.getRotationMatrixToRef 0%nat 1%nat two_matrices_world = Some (tt, w') /\
    matrix_at w' 1%nat = Some (Mat.mk 1 false false false true zero16).
Proof.
  exact (Matrix_getRotationMatrixToRef_failure_keeps_result two_matrices_world 0%nat 1%nat
           (Mat.mk 0 false false false true zero16) (Mat.mk 1 false false false true zero16)
           eq_refl eq_refl eq_refl).
Defined.

(** With the [isIdentity] flag set, [decompose] returns true and only
    allocates: every object of the heap, the three outputs among them,
    is what it was before the call. *)
Lemma Matrix_decompose_identity_keeps_heap :
  forall (w : world) (self : ref) (ms : Mat.t) (scale rotation translation : option ref),
    matrix_at w self = Some ms ->
    Mat.isIdentity ms = true ->
    returns (Matrix.decompose self scale rotation translation w)
            (fun ok w' => ok = true /\
                          forall r o, heap w !! r = Some o -> heap w' !! r = Some o).
Proof.
  intros [h s d] self ms scale rotation translation Hs Hi.
  apply matrix_at_heap in Hs. unfold Matrix.decompose.
  rstep. rewrite Hi.
  destruct translation, scale, rotation; repeat rstep;
    cbv [returns ret]; cbn [heap]; (split; [reflexivity|]); intros r' o Hr'; solve_lookup.
Qed.

(** C1, on the code. 'Matrix.decompose identity case' of the test suite:
    [decompose] returns true and the three outputs still hold the NaN
    they were created with; the translation is not (0, 0, 0) and the
    scale is not (0, 0, 0). *)
Theorem Matrix_decompose_identity_case_outputs :
  result_of (decompose_identity_case initial_world)
  = Some (true, Vec3.mk NaN NaN NaN, Quat.mk NaN NaN NaN NaN, Vec3.mk NaN NaN NaN).
Proof. vm_compute. reflexivity. Qed.

(** C2, on the code. For the matrix of scale (2, 2, 2) and translation
    (1, 2, 3), [decompose] returns true and writes the scale (2, 2, 2)
    and the rotation (0, 0, 0, 1), but the translation output still
    holds the NaN it was created with, not (1, 2, 3). *)
Theorem Matrix_decompose_translation_output_untouched :
  result_of (decompose_scaled_translated_case initial_world)
  = Some (true, Vec3.mk two two two, Quat.mk zero zero zero one, Vec3.mk NaN NaN NaN).
Proof. vm_compute. reflexivity. Qed.

(** For a matrix that is not flagged as the identity, [decompose] writes
    the extracted scale into the caller's scale vector and returns false
    exactly when one of its components is 0, but the caller's
    translation vector is what it was, whatever the matrix. *)
Lemma Matrix_decompose_writes_scale_not_translation :
  forall (w : world) (self sc ro tr : ref) (ms : Mat.t) (vs vt : Vec3.t) (qr : Quat.t),
    matrix_at w self = Some ms ->
    Mat.isIdentity ms = false ->
    vector3_at w sc = Some vs ->
    quaternion_at w ro = Some qr ->
    vector3_at w tr = Some vt ->
    sc <> tr ->
    returns (Matrix.decompose self (Some sc) (Some ro) (Some tr) w)
            (fun ok w' =>
               vector3_at w' sc = Some (extracted_scale ms) /\
               vector3_at w' tr = Some vt /\
               ok = negb ((Vec3.x (extracted_scale ms) === zero)
                          || (Vec3.y (extracted_scale ms) === zero)
                          || (Vec3.z (extracted_scale ms) === zero))).
Proof.
  intros [h s d] self sc ro tr ms vs vt qr Hs Hi Hsc Hro Htr Hne.
  apply matrix_at_heap in Hs. apply vector3_at_heap in Hsc, Htr.
  apply quaternion_at_heap in Hro.
  unfold Matrix.decompose.
  rstep. rewrite Hi.
  do 6 rstep.
  rstep_with run_determinant.
  unfold extracted_scale, row_magnitude. cbv zeta.
  destruct (determinant_of ms <= zero) eqn:Hdet; repeat rstep;
    cbn [with_x with_y with_z Vec3.x Vec3.y Vec3.z get16];
    match goal with
    | |- returns ((if ?c then _ else _) _) _ => destruct c eqn:Hz
    end.
  all: repeat rstep.
  all: try (rstep_with run_Matrix_create; rstep_with run_fromValuesToRef;
            eapply returns_bind;
            [ eapply fromRotationMatrixToRef_frame; solve_lookup
            | cbv beta; intros _ w1 Hframe ]).
  all: cbv [returns ret]; cbn [negb].
  all: split; [|split; [|reflexivity]].
  all: first [ apply vector3_at_heap; solve_lookup
             | apply vector3_at_lookup; apply Hframe; [solve_neq | solve_lookup] ].
Qed.

(** ** The update flag *)


Lemma seed_succ_at_limit : seed_succ seed_limit = seed_limit.
Proof. reflexivity. Qed.



(** The mutators take the stamp from the counter: the matrix they wrote
    to carries the value the counter had at the last stamp of the call. *)
Lemma Matrix_mutators_stamp :
  forall (h : list object) (s : Z) (d : list number) (self other : ref) (m mo : Mat.t)
         (x y z : number),
    h !! self = Some (ObjMatrix m) ->
    h !! other = Some (ObjMatrix mo) ->
    returns (Matrix.setTranslationFromFloats self x y z (World h s d))
            (fun _ w' => exists m', matrix_at w' self = Some m' /\
                                    Mat.updateFlag m' = s /\
                                    _updateFlagSeed w' = seed_succ s) /\
    returns (Matrix.fromValuesToRef x y z x y z x y z x y z x y z x self (World h s d))
            (fun _ w' => exists m', matrix_at w' self = Some m' /\
                                    Mat.updateFlag m' = s /\
                                    _updateFlagSeed w' = seed_succ s) /\
    returns (Matrix.copy other self (World h s d))
            (fun _ w' => exists m', matrix_at w' self = Some m' /\
                                    Mat.updateFlag m' = s /\
                                    _updateFlagSeed w' = seed_succ s) /\
    returns (Matrix.IdentityToRef self (World h s d))
            (fun _ w' => exists m', matrix_at w' self = Some m' /\
                                    Mat.updateFlag m' = seed_succ s /\
                                    _updateFlagSeed w' = seed_succ (seed_succ s)).
Proof.
  intros h s d self other m mo x y z Hm Ho.
  split; [|split; [|split]].
  - unfold Matrix.setTranslationFromFloats. do 3 rstep.
    erewrite run__markAsUpdated by solve_lookup. cbv [returns].
    eexists. split; [apply matrix_at_heap; solve_lookup|]. split; reflexivity.
  - erewrite run_fromValuesToRef by solve_lookup. cbv [returns].
    eexists. split; [apply matrix_at_heap; solve_lookup|]. split; reflexivity.
  - erewrite run_Matrix_copy by solve_lookup. cbv [returns].
    eexists. split; [apply matrix_at_heap; solve_lookup|]. split; reflexivity.
  - unfold Matrix.IdentityToRef. rstep_with run_fromValuesToRef.
    erewrite run__updateIdentityStatus by solve_lookup. cbv [returns].
    eexists. split; [apply matrix_at_heap; solve_lookup|]. split; reflexivity.
Qed.




End MatrixFacts.

(* ================================================================= *)
(** * Plane *)

Section PlaneFacts.
Local Open Scope js_scope.

(** [Plane.normalize] returns the reference it was given, and neither
    the plane behind it nor its normal has changed: the normalized values
    went to a new plane that is dropped. *)
Lemma Plane_normalize_returns_its_argument :
  forall (w : world) (plane : ref) (p : Pln.t) (n : Vec3.t),
    plane_at w plane = Some p ->
    vector3_at w (Pln.normal p) = Some n ->
    returns (Plane.normalize plane w)
            (fun r w' => r = plane /\ plane_at w' plane = Some p /\
                         vector3_at w' (Pln.normal p) = Some n).
Proof.
  intros [h s d] plane p n Hp Hn.
  apply plane_at_heap in Hp. apply vector3_at_heap in Hn.
  unfold Plane.normalize, Plane.create.
  do 4 rstep.
  match goal with |- context [negb ?c] => destruct c end; cbn [negb];
    repeat rstep; cbv [returns ret];
    (split; [reflexivity|]);
    (split; [apply plane_at_heap | apply vector3_at_heap]); solve_lookup.
Qed.

(** C8, on the code. [Plane.normalize] of the plane with normal
    (2, 0, 0) and d = 4 returns that same plane object, whose normal is
    still (2, 0, 0), of length 2, and whose d is still 4. *)
Theorem Plane_normalize_case_unchanged :
  result_of (plane_normalize_case initial_world)
  = Some (true, Pln.mk 0%nat (of_Z 4), Vec3.mk two zero zero).
Proof. vm_compute. reflexivity. Qed.
End PlaneFacts.
(* ================================================================= *)
(** * Scalar *)

Section ScalarFacts.
Local Open Scope js_scope.
Implicit Types a b x y value min max : number.

Lemma feqb_same_value a b : (a === b) = true -> same_value a b.
Proof.
  unfold feqb, SFeqb, SFcompare.
  destruct a as [sa|sa| |sa ma ea], b as [sb|sb| |sb mb eb];
    try discriminate; try (destruct sa; discriminate); try (destruct sb; discriminate).
  - intros _. apply same_value_zero.
  - destruct sa, sb; try discriminate; intros _; left; reflexivity.
  - destruct sa, sb; try discriminate;
      destruct (Z.compare_spec ea eb) as [->| |]; try discriminate;
      rewrite Pos.compare_cont_spec; unfold Pos.switch_Eq;
      destruct (Pos.compare_spec ma mb) as [->| |]; try discriminate;
      intros _; left; reflexivity.
Qed.

Lemma same_value_feqb_not_nan a x : same_value a x -> is_nan x = false -> (a === x) = true.
Proof.
  intros [->|(s & s' & -> & ->)] H; [|reflexivity].
  unfold feqb, SFeqb. rewrite SFcompare_refl by exact H. reflexivity.
Qed.

Lemma SFcompare_same_value_l a b c : same_value a b -> SFcompare a c = SFcompare b c.
Proof. intros [->|(s & s' & -> & ->)]; [reflexivity | destruct c; reflexivity]. Qed.

Lemma SFcompare_same_value_r a b c : same_value a b -> SFcompare c a = SFcompare c b.
Proof. intros [->|(s & s' & -> & ->)]; [reflexivity | destruct c; reflexivity]. Qed.

Lemma fleb_same_value_l a b c : same_value a b -> (a <= c) = (b <= c).
Proof. intros H. unfold fleb, SFleb. rewrite (SFcompare_same_value_l a b c H). reflexivity. Qed.

Lemma fleb_same_value_r a b c : same_value a b -> (c <= a) = (c <= b).
Proof. intros H. unfold fleb, SFleb. rewrite (SFcompare_same_value_r a b c H). reflexivity. Qed.

(** [a <= b] without [a < b] is [a === b]. *)
Lemma fleb_not_fltb_feqb a b : (a <= b) = true -> (a < b) = false -> (a === b) = true.
Proof.
  unfold fleb, fltb, feqb, SFleb, SFltb, SFeqb.
  destruct (SFcompare a b) as [[ | | ]|]; congruence.
Qed.

Lemma feqb_fleb a b : (a === b) = true -> (a <= b) = true.
Proof.
  unfold fleb, feqb, SFleb, SFeqb.
  destruct (SFcompare a b) as [[ | | ]|]; congruence.
Qed.

(** The running results of [Math.max] and [Math.min] after the first
    argument. *)
Lemma Math_max_unfold a b :
  is_nan a = false -> is_nan b = false ->
  Math_max a b = if is_pos_zero b && is_neg_zero a then b
                 else if a < b then b else a.
Proof.
  intros Ha Hb. unfold Math_max, isNaN. rewrite Ha, Hb.
  replace (if is_pos_zero a && is_neg_zero (S754_infinity true) then a
           else if S754_infinity true < a then a else S754_infinity true) with a.
  - reflexivity.
  - destruct a as [s|s| |s m e]; try discriminate; destruct s; reflexivity.
Qed.

Lemma Math_min_unfold a b :
  is_nan a = false -> is_nan b = false ->
  Math_min a b = if is_neg_zero b && is_pos_zero a then b
                 else if b < a then b else a.
Proof.
  intros Ha Hb. unfold Math_min, isNaN. rewrite Ha, Hb.
  replace (if is_neg_zero a && is_pos_zero (S754_infinity false) then a
           else if a < S754_infinity false then a else S754_infinity false) with a.
  - reflexivity.
  - destruct a as [s|s| |s m e]; try discriminate; destruct s; reflexivity.
Qed.

Lemma Math_max_nan a b : is_nan a = true \/ is_nan b = true -> Math_max a b = NaN.
Proof.
  unfold Math_max, isNaN. destruct (is_nan a), (is_nan b); intros [H|H];
    first [reflexivity | discriminate H].
Qed.

Lemma Math_max_bounds a b :
  is_nan a = false -> is_nan b = false ->
  (a <= Math_max a b) = true /\ (b <= Math_max a b) = true /\
  (Math_max a b = a \/ Math_max a b = b).
Proof.
  intros Ha Hb. rewrite (Math_max_unfold a b Ha Hb).
  destruct (is_pos_zero b && is_neg_zero a) eqn:Hz.
  - apply andb_prop in Hz as [H1 H2].
    destruct a as [[|]| | |]; try discriminate H2.
    destruct b as [[|]| | |]; try discriminate H1.
    repeat split; auto.
  - destruct (a < b) eqn:Hlt.
    + repeat split; auto using fltb_fleb, fleb_refl.
    + repeat split; auto using not_fltb_fleb, fleb_refl.
Qed.

Lemma Math_min_bounds a b :
  is_nan a = false -> is_nan b = false ->
  (Math_min a b <= a) = true /\ (Math_min a b <= b) = true /\
  (Math_min a b = a \/ Math_min a b = b).
Proof.
  intros Ha Hb. rewrite (Math_min_unfold a b Ha Hb).
  destruct (is_neg_zero b && is_pos_zero a) eqn:Hz.
  - apply andb_prop in Hz as [H1 H2].
    destruct a as [[|]| | |]; try discriminate H2.
    destruct b as [[|]| | |]; try discriminate H1.
    repeat split; auto.
  - destruct (b < a) eqn:Hlt.
    + repeat split; auto using fltb_fleb, fleb_refl.
    + repeat split; auto using not_fltb_fleb, fleb_refl.
Qed.


(** [Scalar.clamp] with [min <= max] and a value that is not NaN returns
    a number between [min] and [max], which is [===] to the value when
    the value is between them; a NaN argument gives NaN. *)
Theorem Scalar_clamp_within_bounds :
  forall value min max,
    (min <= max) = true ->
    isNaN value = false ->
    (min <= Scalar.clamp value min max) = true /\
    (Scalar.clamp value min max <= max) = true /\
    ((min <= value) = true -> (value <= max) = true ->
     (Scalar.clamp value min max === value) = true) /\
    Scalar.clamp NaN min max = NaN /\
    Scalar.clamp value NaN max = NaN /\
    Scalar.clamp value min NaN = NaN.
Proof.
  intros value min max Hmm Hv.
  destruct (fleb_not_nan _ _ Hmm) as [Hmin Hmax].
  assert (HM : is_nan (Math_max min value) = false).
  { destruct (Math_max_bounds min value Hmin Hv) as (_ & _ & [->| ->]); assumption. }
  destruct (Math_max_bounds min value Hmin Hv) as (Hlo1 & Hlo2 & Hsel).
  destruct (Math_min_bounds max (Math_max min value) Hmax HM) as (Hup1 & Hup2 & Hsel').
  unfold Scalar.clamp.
  split; [|split; [|split; [|split; [|split]]]].
  - destruct Hsel' as [-> | ->]; assumption.
  - exact Hup1.
  - intros Hlo Hhi.
    assert (Hmv : same_value (Math_max min value) value).
    { destruct Hsel as [E|E]; rewrite E; [|apply same_value_refl].
      apply feqb_same_value, fleb_not_fltb_feqb; [exact Hlo|].
      apply fleb_fltb. rewrite <- E. exact Hlo2. }
    destruct Hsel' as [E|E]; rewrite E.
    + apply fleb_not_fltb_feqb.
      * rewrite <- (fleb_same_value_r _ _ max Hmv). rewrite E in Hup2. exact Hup2.
      * apply fleb_fltb. exact Hhi.
    + apply same_value_feqb_not_nan; assumption.
  - unfold Math_max, Math_min, isNaN. cbn [is_nan].
    destruct (is_nan min); [|]; destruct (is_nan max); reflexivity.
  - unfold Math_max, Math_min, isNaN. cbn [is_nan]. rewrite Hmax. reflexivity.
  - reflexivity.
Qed.

Lemma Scalar_clamp_within_bounds_witness :
  (zero <= one) = true /\ isNaN two = false /\
  (zero <= Scalar.clamp two zero one) = true /\
  (Scalar.clamp two zero one <= one) = true.
Proof.
  split; [reflexivity|]. split; [reflexivity|].
  destruct (Scalar_clamp_within_bounds two zero one eq_refl eq_refl) as (H1 & H2 & _).
  split; assumption.
Defined.

Lemma Scalar_clamp_below tx : (tx <= zero) = true -> Scalar.clamp tx zero one = zero.
Proof.
  destruct tx as [s|s| |s m e]; try destruct s; try discriminate; intros _; reflexivity.
Qed.

Lemma Scalar_clamp_above tx : (one <= tx) = true -> Scalar.clamp tx zero one = one.
Proof.
  intros H. pose proof (fleb_fltb _ _ H) as Hlt.
  destruct (fleb_not_nan _ _ H) as [_ Hn].
  unfold Scalar.clamp.
  assert (E : Math_max zero tx = tx).
  { rewrite Math_max_unfold by (reflexivity || exact Hn).
    destruct tx as [s|s| |s m e]; try destruct s; try discriminate; reflexivity. }
  rewrite E, Math_min_unfold by (reflexivity || exact Hn).
  rewrite Hlt. destruct tx as [[|]| | |]; try discriminate; reflexivity.
Qed.

(** [Scalar.smoothStep] saturates: for finite [from] and [to] it is
    [===] to [from] when [tx <= 0] and to [to] when [tx >= 1]. *)
Theorem Scalar_smoothStep_saturates :
  forall from to tx,
    finite64 from = true -> finite64 to = true ->
    ((tx <= zero) = true -> (Scalar.smoothStep from to tx === from) = true) /\
    ((tx >= one) = true -> (Scalar.smoothStep from to tx === to) = true).
Proof.
  intros from to tx Hf Ht. split; intros H; unfold Scalar.smoothStep.
  - rewrite (Scalar_clamp_below tx H). cbv zeta. eval_numbers.
    apply same_value_feqb; [solve_same | solve_finite].
  - rewrite (Scalar_clamp_above tx H). cbv zeta. eval_numbers.
    apply same_value_feqb; [solve_same | solve_finite].
Qed.

Lemma Scalar_smoothStep_saturates_witness :
  (Scalar.smoothStep two three (- one) === two) = true /\
  (Scalar.smoothStep two three two === three) = true.
Proof.
  destruct (Scalar_smoothStep_saturates two three (- one) eq_refl eq_refl) as [H1 _].
  destruct (Scalar_smoothStep_saturates two three two eq_refl eq_refl) as [_ H2].
  split; [apply H1 | apply H2]; reflexivity.
Defined.

Lemma withinEpsilon_sym a b epsilon :
  Scalar.withinEpsilon a b epsilon = Scalar.withinEpsilon b a epsilon.
Proof.
  unfold Scalar.withinEpsilon. cbv zeta.
  destruct (fsub_swap a b) as [E|[E1 E2]].
  - rewrite E. rewrite (fleb_fneg_swap epsilon (- (a - b))), fneg_involutive.
    rewrite <- (fleb_fneg_swap epsilon (a - b)). apply andb_comm.
  - rewrite E1, E2. reflexivity.
Qed.

Lemma withinEpsilon_self a epsilon :
  Scalar.withinEpsilon a a epsilon = is_finite a && (zero <= epsilon).
Proof.
  unfold Scalar.withinEpsilon. cbv zeta.
  destruct (is_finite a) eqn:Hfin.
  - rewrite (fsub_diag a Hfin). rewrite (fleb_fneg_swap epsilon zero).
    rewrite (fleb_same_value_l (- zero) zero epsilon) by apply same_value_zero.
    cbn [andb]. apply andb_diag.
  - destruct a as [s|s| |s m e]; try discriminate Hfin.
    + destruct s; cbn; destruct (- epsilon)%js; reflexivity.
    + cbn. destruct (- epsilon)%js; reflexivity.
Qed.

(** [Scalar.withinEpsilon] is symmetric in its two numbers, and a
    number is within epsilon of itself exactly when it is finite and
    epsilon is not negative: an infinity is not within any epsilon of
    itself. *)
Theorem Scalar_withinEpsilon_symmetric :
  forall a b epsilon,
    Scalar.withinEpsilon a b epsilon = Scalar.withinEpsilon b a epsilon /\
    Scalar.withinEpsilon a a epsilon = is_finite a && (zero <= epsilon).
Proof.
  intros a b epsilon. split; [apply withinEpsilon_sym | apply withinEpsilon_self].
Qed.
End ScalarFacts.
(* ================================================================= *)
(** * Vector3: products, distances, bounds and interpolation *)

Section Vector3Algebra.
Local Open Scope js_scope.
Implicit Types (h : list object) (s : Z) (d : list number).

Lemma run_Vector3_cross left right (l r : Vec3.t) h s d :
  h !! left = Some (ObjVector3 l) ->
  h !! right = Some (ObjVector3 r) ->
  Vector3.cross left right (World h s d)
  = Some (length h,
          World (h ++ [ObjVector3 (Vec3.mk
                   (Vec3.y l * Vec3.z r - Vec3.z l * Vec3.y r)
                   (Vec3.z l * Vec3.x r - Vec3.x l * Vec3.z r)
                   (Vec3.x l * Vec3.y r - Vec3.y l * Vec3.x r))]) s d).
Proof.
  intros Hl Hr. unfold Vector3.cross, Vector3.crossToRef. steps. reflexivity.
Qed.

(** The two products of a component of [cross(b, a)] are those of
    [cross(a, b)], subtracted the other way round. *)
Lemma cross_component_swap a1 b2 a2 b1 :
  same_value (b1 * a2 - b2 * a1) (- (a1 * b2 - a2 * b1)).
Proof.
  rewrite (fmul_comm b1 a2), (fmul_comm b2 a1).
  destruct (fsub_swap (a1 * b2) (a2 * b1)) as [E|[E1 E2]].
  - rewrite E. apply same_value_refl.
  - rewrite E1, E2. apply same_value_zero.
Qed.

(** [Vector3.cross] is anticommutative: each component of
    [cross(b, a)] is the opposite of the one of [cross(a, b)], up to
    the sign of a zero; and [cross(v, v)] is (0, 0, 0) when the
    products of the components of [v] do not overflow. Both operands
    are left as they were and the result is a new object. *)
Theorem Vector3_cross_anticommutative :
  forall (w : world) (a b : ref) (va vb : Vec3.t),
    vector3_at w a = Some va ->
    vector3_at w b = Some vb ->
    returns (Vector3.cross a b w) (fun r1 w1 =>
      returns (Vector3.cross b a w) (fun r2 w2 =>
        exists c1 c2,
          vector3_at w1 r1 = Some c1 /\ vector3_at w2 r2 = Some c2 /\
          vector3_at w1 a = Some va /\ vector3_at w1 b = Some vb /\
          vector3_at w r1 = None /\
          same_value (Vec3.x c2) (- Vec3.x c1) /\
          same_value (Vec3.y c2) (- Vec3.y c1) /\
          same_value (Vec3.z c2) (- Vec3.z c1))) /\
    (is_finite (Vec3.y va * Vec3.z va) = true ->
     is_finite (Vec3.z va * Vec3.x va) = true ->
     is_finite (Vec3.x va * Vec3.y va) = true ->
     returns (Vector3.cross a a w) (fun r w' =>
       vector3_at w' r = Some (Vec3.mk zero zero zero))).
Proof.
  intros [h s d] a b va vb Ha Hb.
  apply vector3_at_heap in Ha. apply vector3_at_heap in Hb.
  split.
  - rewrite (run_Vector3_cross a b va vb h s d Ha Hb).
    rewrite (run_Vector3_cross b a vb va h s d Hb Ha).
    cbn [returns].
    eexists _, _.
    split; [apply vector3_at_heap; solve_lookup|].
    split; [apply vector3_at_heap; solve_lookup|].
    split; [apply vector3_at_heap; solve_lookup|].
    split; [apply vector3_at_heap; solve_lookup|].
    split.
    { unfold vector3_at. cbn [heap]. rewrite lookup_ge_None_2; [reflexivity|lia]. }
    cbn [Vec3.x Vec3.y Vec3.z].
    repeat split; apply cross_component_swap.
  - intros Hyz Hzx Hxy.
    rewrite (run_Vector3_cross a a va va h s d Ha Ha). cbn [returns].
    apply vector3_at_heap.
    rewrite (fmul_comm (Vec3.z va) (Vec3.y va)), (fmul_comm (Vec3.x va) (Vec3.z va)),
            (fmul_comm (Vec3.y va) (Vec3.x va)).
    rewrite !fsub_diag by assumption.
    apply lookup_snoc_new.
Qed.

Lemma Vector3_cross_anticommutative_witness :
  returns (Vector3.cross 0%nat 0%nat unit_x_world) (fun r w' =>
    vector3_at w' r = Some (Vec3.mk zero zero zero)).
Proof.
  exact (proj2 (Vector3_cross_anticommutative unit_x_world 0%nat 0%nat
                  (Vec3.mk one zero zero) (Vec3.mk one zero zero) eq_refl eq_refl)
               eq_refl eq_refl eq_refl).
Defined.

(** [Vector3.dot] and [Quaternion.dot] do not depend on the order of
    their operands: the two calls return the same number, bit for
    bit, whatever the components are, and change nothing. *)
Theorem dot_commutative :
  forall (w : world) (left right : ref),
    Vector3.dot left right w = Vector3.dot right left w /\
    Quaternion.dot left right w = Quaternion.dot right left w /\
    (forall l r : Vec3.t,
       vector3_at w left = Some l -> vector3_at w right = Some r ->
       returns (Vector3.dot left right w) (fun v w' =>
         w' = w /\ Vector3.dot right left w = Some (v, w))) /\
    (forall p q : Quat.t,
       quaternion_at w left = Some p -> quaternion_at w right = Some q ->
       returns (Quaternion.dot left right w) (fun v w' =>
         w' = w /\ Quaternion.dot right left w = Some (v, w))).
Proof.
  intros [h s d] left right.
  assert (EV : Vector3.dot left right (World h s d) = Vector3.dot right left (World h s d)).
  { destruct (h !! left) as [ol|] eqn:El; destruct (h !! right) as [or|] eqn:Er;
      try destruct ol as [l|l|l|l]; try destruct or as [r|r|r|r];
      unfold Vector3.dot, loadVector3, load, bind, ret, fail;
      repeat first [progress cbn [heap] | rewrite El | rewrite Er];
      try reflexivity.
    rewrite (fmul_comm (Vec3.x l)), (fmul_comm (Vec3.y l)), (fmul_comm (Vec3.z l)).
    reflexivity. }
  assert (EQ : Quaternion.dot left right (World h s d)
               = Quaternion.dot right left (World h s d)).
  { destruct (h !! left) as [ol|] eqn:El; destruct (h !! right) as [or|] eqn:Er;
      try destruct ol as [l|l|l|l]; try destruct or as [r|r|r|r];
      unfold Quaternion.dot, loadQuaternion, load, bind, ret, fail;
      repeat first [progress cbn [heap] | rewrite El | rewrite Er];
      try reflexivity.
    rewrite (fmul_comm (Quat.x l)), (fmul_comm (Quat.y l)), (fmul_comm (Quat.z l)),
            (fmul_comm (Quat.w l)).
    reflexivity. }
  split; [exact EV|]. split; [exact EQ|]. split.
  - intros l r Hl Hr. apply vector3_at_heap in Hl, Hr.
    rewrite <- EV. unfold Vector3.dot. do 2 rstep. cbv [returns ret].
    split; reflexivity.
  - intros p q Hp Hq. apply quaternion_at_heap in Hp, Hq.
    rewrite <- EQ. unfold Quaternion.dot. do 2 rstep. cbv [returns ret].
    split; reflexivity.
Qed.

Lemma dot_commutative_witness :
  returns (Vector3.dot 0%nat 2%nat three_vectors_world) (fun v w' =>
    w' = three_vectors_world /\ Vector3.dot 2%nat 0%nat three_vectors_world = Some (v, w')).
Proof.
  refine (returns_impl _ _ _ _
            (proj1 (proj2 (proj2 (dot_commutative three_vectors_world 0%nat 2%nat)))
               (Vec3.mk two (- one) half) (Vec3.mk one one one) eq_refl eq_refl)).
  intros v w' [-> H]. split; [reflexivity|exact H].
Defined.

(** [Vector3.distanceSquared] and [Vector3.distance] are symmetric:
    the two orders of the operands give the same number, bit for bit;
    and the distance from a vector with finite components to itself
    is 0. Nothing is written. *)
Theorem Vector3_distance_symmetric :
  forall (w : world) (value1 value2 : ref),
    Vector3.distanceSquared value1 value2 w = Vector3.distanceSquared value2 value1 w /\
    Vector3.distance value1 value2 w = Vector3.distance value2 value1 w /\
    (forall v1 v2 : Vec3.t,
       vector3_at w value1 = Some v1 -> vector3_at w value2 = Some v2 ->
       returns (Vector3.distance value1 value2 w) (fun _ w' => w' = w)) /\
    (forall v : Vec3.t,
       vector3_at w value1 = Some v -> vec3_all is_finite v = true ->
       Vector3.distance value1 value1 w = Some (zero, w)).
Proof.
  intros [h s d] value1 value2.
  assert (E : Vector3.distanceSquared value1 value2 (World h s d)
              = Vector3.distanceSquared value2 value1 (World h s d)).
  { destruct (h !! value1) as [o1|] eqn:E1; destruct (h !! value2) as [o2|] eqn:E2;
      try destruct o1 as [v1|v1|v1|v1]; try destruct o2 as [v2|v2|v2|v2];
      unfold Vector3.distanceSquared, loadVector3, load, bind, ret, fail;
      repeat first [progress cbn [heap] | rewrite E1 | rewrite E2];
      try reflexivity.
    cbv zeta.
    rewrite (fsub_square_swap (Vec3.x v1)), (fsub_square_swap (Vec3.y v1)),
            (fsub_square_swap (Vec3.z v1)).
    reflexivity. }
  split; [exact E|]. split; [|split].
  - unfold Vector3.distance, bind. rewrite E. reflexivity.
  - intros v1 v2 H1 H2. apply vector3_at_heap in H1, H2.
    unfold Vector3.distance, Vector3.distanceSquared. do 3 rstep.
    cbv [returns ret]. reflexivity.
  - intros v Hv Hf. apply vector3_at_heap in Hv.
    unfold vec3_all in Hf.
    apply andb_prop in Hf as [Hf Fz]. apply andb_prop in Hf as [Fx Fy].
    unfold Vector3.distance, Vector3.distanceSquared.
    do 3 step. etransitivity; [apply run_ret|].
    rewrite (fsub_diag _ Fx), (fsub_diag _ Fy), (fsub_diag _ Fz).
    reflexivity.
Qed.

Lemma Vector3_distance_symmetric_witness :
  Vector3.distance 0%nat 0%nat three_vectors_world = Some (zero, three_vectors_world).
Proof.
  exact (proj2 (proj2 (proj2 (Vector3_distance_symmetric three_vectors_world 0%nat 2%nat)))
           (Vec3.mk two (- one) half) eq_refl eq_refl).
Defined.

Lemma feqb_self a : (a === a) = negb (isNaN a).
Proof.
  destruct a as [s|s| |s m e]; try reflexivity.
  - destruct s; reflexivity.
  - unfold feqb, SFeqb. rewrite SFcompare_refl; reflexivity.
Qed.

(** [Vector3.equals] is symmetric but not reflexive: a vector equals
    itself exactly when none of its components is NaN. With
    [equalsWithEpsilon] a vector is within epsilon of itself exactly
    when its components are finite and epsilon is not negative. *)
Theorem Vector3_equals_reflexive_without_NaN :
  forall (w : world) (vector1 vector2 : ref) (v1 : Vec3.t) (epsilon : number),
    vector3_at w vector1 = Some v1 ->
    Vector3.equals vector1 vector2 w = Vector3.equals vector2 vector1 w /\
    Vector3.equalsWithEpsilon vector1 vector2 epsilon w
    = Vector3.equalsWithEpsilon vector2 vector1 epsilon w /\
    Vector3.equals vector1 vector1 w
    = Some (vec3_all (fun k => negb (isNaN k)) v1, w) /\
    Vector3.equalsWithEpsilon vector1 vector1 epsilon w
    = Some (vec3_all (fun k => is_finite k && (zero <= epsilon)) v1, w).
Proof.
  intros [h s d] vector1 vector2 v1 epsilon H1.
  apply vector3_at_heap in H1.
  destruct (h !! vector2) as [o2|] eqn:E2; try destruct o2 as [v2|v2|v2|v2];
    (split; [|split; [|split]]);
    unfold Vector3.equals, Vector3.equalsWithEpsilon, loadVector3, load, bind, ret, fail;
    repeat first [progress cbn [heap] | rewrite H1 | rewrite E2];
    try reflexivity;
    unfold vec3_all.
  all: try (rewrite (feqb_sym (Vec3.x v1)), (feqb_sym (Vec3.y v1)), (feqb_sym (Vec3.z v1));
            reflexivity).
  all: try (rewrite !feqb_self; reflexivity).
  all: try (rewrite (withinEpsilon_sym (Vec3.x v1)), (withinEpsilon_sym (Vec3.y v1)),
                    (withinEpsilon_sym (Vec3.z v1));
            reflexivity).
  all: rewrite !withinEpsilon_self; reflexivity.
Qed.

Lemma Vector3_equals_reflexive_without_NaN_witness :
  Vector3.equals 0%nat 0%nat unit_x_world = Some (true, unit_x_world) /\
  Vector3.equals 1%nat 1%nat unit_x_world = Some (false, unit_x_world).
Proof.
  split.
  - exact (proj1 (proj2 (proj2 (Vector3_equals_reflexive_without_NaN
             unit_x_world 0%nat 0%nat (Vec3.mk one zero zero) zero eq_refl)))).
  - exact (proj1 (proj2 (proj2 (Vector3_equals_reflexive_without_NaN
             unit_x_world 1%nat 1%nat (Vec3.mk NaN NaN NaN) zero eq_refl)))).
Defined.
End Vector3Algebra.

Section Vector3Bounds.
Local Open Scope js_scope.
Implicit Types (h : list object) (s : Z) (d : list number).

(** One coordinate of [clampToRef]. *)
Lemma clamp_coordinate x lo hi :
  (lo <= hi) = true -> isNaN x = false ->
  let x1 := if x > hi then hi else x in
  let x2 := if x1 < lo then lo else x1 in
  (lo <= x2) = true /\ (x2 <= hi) = true /\
  ((lo <= x) = true -> (x <= hi) = true -> x2 = x).
Proof.
  intros Hlh Hx. cbv zeta.
  destruct (fleb_not_nan _ _ Hlh) as [Hlo Hhi].
  destruct (hi < x) eqn:H1.
  - rewrite (fleb_fltb _ _ Hlh).
    repeat split; auto using fleb_refl.
    intros _ H. apply fleb_fltb in H. congruence.
  - destruct (x < lo) eqn:H2.
    + repeat split; auto using fleb_refl.
      intros H _. apply fleb_fltb in H. congruence.
    + repeat split; auto using not_fltb_fleb.
Qed.

Lemma run_Vector3_copyFromFloats x y z dest (r0 : Vec3.t) h s d :
  h !! dest = Some (ObjVector3 r0) ->
  Vector3.copyFromFloats x y z dest (World h s d)
  = Some (tt, World (<[dest:=ObjVector3 (Vec3.mk x y z)]> h) s d).
Proof. intros Hd. unfold Vector3.copyFromFloats. steps. reflexivity. Qed.

Lemma vec3_leb_inv u v :
  vec3_leb u v = true ->
  (Vec3.x u <= Vec3.x v) = true /\ (Vec3.y u <= Vec3.y v) = true /\
  (Vec3.z u <= Vec3.z v) = true.
Proof.
  unfold vec3_leb. intros H.
  apply andb_prop in H as [H Hz]. apply andb_prop in H as [Hx Hy]. auto.
Qed.

Lemma vec3_leb_intro u v :
  (Vec3.x u <= Vec3.x v) = true -> (Vec3.y u <= Vec3.y v) = true ->
  (Vec3.z u <= Vec3.z v) = true -> vec3_leb u v = true.
Proof. unfold vec3_leb. intros -> -> ->. reflexivity. Qed.

(** [Vector3.clamp]: when [min <= max] in every coordinate and no
    coordinate of the value is NaN, the result lies between [min] and
    [max] in every coordinate, and it has the coordinates of the value
    when the value lies between them. The result is a new object. *)
Theorem Vector3_clamp_within_bounds :
  forall (w : world) (value min max : ref) (v mn mx : Vec3.t),
    vector3_at w value = Some v ->
    vector3_at w min = Some mn ->
    vector3_at w max = Some mx ->
    vec3_leb mn mx = true ->
    vec3_all (fun k => negb (isNaN k)) v = true ->
    returns (Vector3.clamp value min max w) (fun r w' =>
      exists c, vector3_at w' r = Some c /\ vector3_at w r = None /\
                vec3_leb mn c = true /\ vec3_leb c mx = true /\
                (vec3_leb mn v = true -> vec3_leb v mx = true -> c = v)).
Proof.
  intros [h s d] value min max v mn mx Hv Hmn Hmx Hle Hnan.
  apply vector3_at_heap in Hv, Hmn, Hmx.
  apply vec3_leb_inv in Hle as (Hx & Hy & Hz).
  unfold vec3_all in Hnan.
  apply andb_prop in Hnan as [Hnan Hnz]. apply andb_prop in Hnan as [Hnx Hny].
  apply negb_true_iff in Hnx, Hny, Hnz.
  destruct (clamp_coordinate _ _ _ Hx Hnx) as (X1 & X2 & X3).
  destruct (clamp_coordinate _ _ _ Hy Hny) as (Y1 & Y2 & Y3).
  destruct (clamp_coordinate _ _ _ Hz Hnz) as (Z1 & Z2 & Z3).
  cbv zeta in X1, X2, X3, Y1, Y2, Y3, Z1, Z2, Z3.
  unfold Vector3.clamp, Vector3.clampToRef.
  do 4 rstep.
  rstep_with run_Vector3_copyFromFloats.
  cbv [returns ret].
  eexists. split; [apply vector3_at_heap; solve_lookup|].
  split.
  { unfold vector3_at. cbn [heap]. rewrite lookup_ge_None_2; [reflexivity|lia]. }
  split; [apply vec3_leb_intro; assumption|].
  split; [apply vec3_leb_intro; assumption|].
  intros H1 H2.
  apply vec3_leb_inv in H1 as (? & ? & ?). apply vec3_leb_inv in H2 as (? & ? & ?).
  cbn [Vec3.x Vec3.y Vec3.z] in *.
  rewrite X3, Y3, Z3 by assumption. destruct v; reflexivity.
Qed.

Lemma Vector3_clamp_within_bounds_witness :
  returns (Vector3.clamp 0%nat 1%nat 2%nat three_vectors_world) (fun r w' =>
    exists c, vector3_at w' r = Some c /\ vector3_at three_vectors_world r = None /\
              vec3_leb (Vec3.mk zero zero zero) c = true /\
              vec3_leb c (Vec3.mk one one one) = true /\
              (vec3_leb (Vec3.mk zero zero zero) (Vec3.mk two (- one) half) = true ->
               vec3_leb (Vec3.mk two (- one) half) (Vec3.mk one one one) = true ->
               c = Vec3.mk two (- one) half)).
Proof.
  exact (Vector3_clamp_within_bounds three_vectors_world 0%nat 1%nat 2%nat
           (Vec3.mk two (- one) half) (Vec3.mk zero zero zero) (Vec3.mk one one one)
           eq_refl eq_refl eq_refl eq_refl eq_refl).
Defined.

Lemma setVector3_if (c : bool) (r : ref) (f g : Vec3.t -> Vec3.t) :
  (if c then setVector3 r f else setVector3 r g) = setVector3 r (if c then f else g).
Proof. destruct c; reflexivity. Qed.

Lemma run_Vector3_minimize left right (l r : Vec3.t) h s d :
  h !! left = Some (ObjVector3 l) ->
  h !! right = Some (ObjVector3 r) ->
  Vector3.minimize left right (World h s d)
  = Some (length h,
          World (h ++ [ObjVector3 (Vec3.mk
                   (if Vec3.x l < Vec3.x r then Vec3.x l else Vec3.x r)
                   (if Vec3.y l < Vec3.y r then Vec3.y l else Vec3.y r)
                   (if Vec3.z l < Vec3.z r then Vec3.z l else Vec3.z r))]) s d).
Proof.
  intros Hl Hr. unfold Vector3.minimize, Vector3.minimizeInPlaceFromFloatsToRef.
  do 3 step. rewrite setVector3_if. do 2 step. rewrite setVector3_if. do 2 step.
  rewrite setVector3_if. step. last_step.
  destruct (Vec3.x l < Vec3.x r), (Vec3.y l < Vec3.y r), (Vec3.z l < Vec3.z r);
    reflexivity.
Qed.

Lemma run_Vector3_maximize left right (l r : Vec3.t) h s d :
  h !! left = Some (ObjVector3 l) ->
  h !! right = Some (ObjVector3 r) ->
  Vector3.maximize left right (World h s d)
  = Some (length h,
          World (h ++ [ObjVector3 (Vec3.mk
                   (if Vec3.x r > Vec3.x l then Vec3.x r else Vec3.x l)
                   (if Vec3.y r > Vec3.y l then Vec3.y r else Vec3.y l)
                   (if Vec3.z r > Vec3.z l then Vec3.z r else Vec3.z l))]) s d).
Proof.
  intros Hl Hr. unfold Vector3.maximize, Vector3.maximizeInPlaceFromFloatsToRef.
  do 3 step. rewrite setVector3_if. do 2 step. rewrite setVector3_if. do 2 step.
  rewrite setVector3_if. step. last_step.
  destruct (Vec3.x r > Vec3.x l), (Vec3.y r > Vec3.y l), (Vec3.z r > Vec3.z l);
    reflexivity.
Qed.

(** One coordinate of [minimize] and of [maximize]. *)
Lemma minimize_coordinate a b :
  isNaN a = false -> isNaN b = false ->
  let m := if a < b then a else b in
  let M := if b > a then b else a in
  (m <= a) = true /\ (m <= b) = true /\ (a <= M) = true /\ (b <= M) = true /\
  (m <= M) = true.
Proof.
  intros Ha Hb. cbv zeta. destruct (a < b) eqn:H.
  - repeat split; auto using fleb_refl, fltb_fleb.
  - repeat split; auto using fleb_refl, not_fltb_fleb.
Qed.

Lemma minimize_coordinate_NaN a b :
  isNaN a || isNaN b = true ->
  (if a < b then a else b) = b /\ (if b > a then b else a) = a.
Proof.
  intros H. destruct (a < b) eqn:Hlt; [|split; reflexivity].
  apply fltb_not_nan in Hlt as [Ha Hb]. unfold isNaN in H. rewrite Ha, Hb in H.
  discriminate H.
Qed.

(** [Vector3.minimize] and [Vector3.maximize]: without a NaN, the
    first result is below both operands and the second above both, in
    every coordinate. In a coordinate where an operand is NaN,
    [minimize] returns the coordinate of [right] and [maximize] the one
    of [left], whichever of the two is the NaN. *)
Theorem Vector3_minimize_maximize_bounds :
  forall (w : world) (left right : ref) (l r : Vec3.t),
    vector3_at w left = Some l ->
    vector3_at w right = Some r ->
    returns (Vector3.minimize left right w) (fun rmin w1 =>
      returns (Vector3.maximize left right w) (fun rmax w2 =>
        exists lo hi,
          vector3_at w1 rmin = Some lo /\ vector3_at w2 rmax = Some hi /\
          (vec3_all (fun k => negb (isNaN k)) l = true ->
           vec3_all (fun k => negb (isNaN k)) r = true ->
           vec3_leb lo l = true /\ vec3_leb lo r = true /\
           vec3_leb l hi = true /\ vec3_leb r hi = true /\ vec3_leb lo hi = true) /\
          Forall (fun f : Vec3.t -> number =>
                    isNaN (f l) || isNaN (f r) = true -> f lo = f r /\ f hi = f l)
                 [Vec3.x; Vec3.y; Vec3.z])).
Proof.
  intros [h s d] left right l r Hl Hr.
  apply vector3_at_heap in Hl, Hr.
  rewrite (run_Vector3_minimize left right l r h s d Hl Hr).
  rewrite (run_Vector3_maximize left right l r h s d Hl Hr).
  cbn [returns]. eexists _, _.
  split; [apply vector3_at_heap; solve_lookup|].
  split; [apply vector3_at_heap; solve_lookup|].
  split.
  - intros Hnl Hnr. unfold vec3_all in Hnl, Hnr.
    apply andb_prop in Hnl as [Hnl Hlz]. apply andb_prop in Hnl as [Hlx Hly].
    apply andb_prop in Hnr as [Hnr Hrz]. apply andb_prop in Hnr as [Hrx Hry].
    apply negb_true_iff in Hlx, Hly, Hlz, Hrx, Hry, Hrz.
    destruct (minimize_coordinate _ _ Hlx Hrx) as (X1 & X2 & X3 & X4 & X5).
    destruct (minimize_coordinate _ _ Hly Hry) as (Y1 & Y2 & Y3 & Y4 & Y5).
    destruct (minimize_coordinate _ _ Hlz Hrz) as (Z1 & Z2 & Z3 & Z4 & Z5).
    cbv zeta in *.
    repeat split; apply vec3_leb_intro; assumption.
  - constructor; [|constructor; [|constructor; [|constructor]]];
      cbn [Vec3.x Vec3.y Vec3.z]; intros H; apply minimize_coordinate_NaN; exact H.
Qed.

Lemma Vector3_minimize_maximize_bounds_witness :
  returns (Vector3.minimize 0%nat 2%nat three_vectors_world) (fun rmin w1 =>
    returns (Vector3.maximize 0%nat 2%nat three_vectors_world) (fun rmax w2 =>
      exists lo hi,
        vector3_at w1 rmin = Some lo /\ vector3_at w2 rmax = Some hi /\
        (vec3_all (fun k => negb (isNaN k)) (Vec3.mk two (- one) half) = true ->
         vec3_all (fun k => negb (isNaN k)) (Vec3.mk one one one) = true ->
         vec3_leb lo (Vec3.mk two (- one) half) = true /\
         vec3_leb lo (Vec3.mk one one one) = true /\
         vec3_leb (Vec3.mk two (- one) half) hi = true /\
         vec3_leb (Vec3.mk one one one) hi = true /\ vec3_leb lo hi = true) /\
        Forall (fun f : Vec3.t -> number =>
                  isNaN (f (Vec3.mk two (- one) half)) || isNaN (f (Vec3.mk one one one)) = true ->
                  f lo = f (Vec3.mk one one one) /\ f hi = f (Vec3.mk two (- one) half))
               [Vec3.x; Vec3.y; Vec3.z])).
Proof.
  exact (Vector3_minimize_maximize_bounds three_vectors_world 0%nat 2%nat
           (Vec3.mk two (- one) half) (Vec3.mk one one one) eq_refl eq_refl).
Defined.
End Vector3Bounds.

Section Vector3Interpolation.
Local Open Scope js_scope.
Implicit Types (h : list object) (s : Z) (d : list number).

Lemma vec3_all_inv (P : number -> bool) (v : Vec3.t) :
  vec3_all P v = true ->
  P (Vec3.x v) = true /\ P (Vec3.y v) = true /\ P (Vec3.z v) = true.
Proof.
  unfold vec3_all. intros H.
  apply andb_prop in H as [H Hz]. apply andb_prop in H as [Hx Hy]. auto.
Qed.

Lemma vec3_eqb_intro (c v : Vec3.t) :
  same_value (Vec3.x c) (Vec3.x v) -> same_value (Vec3.y c) (Vec3.y v) ->
  same_value (Vec3.z c) (Vec3.z v) -> vec3_all is_finite v = true ->
  vec3_eqb c v = true.
Proof.
  intros Hx Hy Hz Hf. apply vec3_all_inv in Hf as (Fx & Fy & Fz).
  unfold vec3_eqb.
  rewrite (same_value_feqb _ _ Hx Fx), (same_value_feqb _ _ Hy Fy),
          (same_value_feqb _ _ Hz Fz).
  reflexivity.
Qed.

Lemma vec3_all_finite64_finite (v : Vec3.t) :
  vec3_all finite64 v = true -> vec3_all is_finite v = true.
Proof.
  intros H. apply vec3_all_inv in H as (Hx & Hy & Hz). unfold vec3_all.
  rewrite (finite64_finite _ Hx), (finite64_finite _ Hy), (finite64_finite _ Hz).
  reflexivity.
Qed.

Lemma run_Vector3_lerp start end_ amount (vs ve : Vec3.t) h s d :
  h !! start = Some (ObjVector3 vs) ->
  h !! end_ = Some (ObjVector3 ve) ->
  Vector3.lerp start end_ amount (World h s d)
  = Some (length h,
          World (h ++ [ObjVector3 (Vec3.mk
                   (Vec3.x vs + (Vec3.x ve - Vec3.x vs) * amount)
                   (Vec3.y vs + (Vec3.y ve - Vec3.y vs) * amount)
                   (Vec3.z vs + (Vec3.z ve - Vec3.z vs) * amount))]) s d).
Proof.
  intros Hs He. unfold Vector3.lerp, Vector3.lerpToRef. steps. reflexivity.
Qed.

(** [Vector3.lerp] at amount 0 returns a vector [===] to [start], when
    the components of [start] are finite and the differences
    [end - start] do not overflow; between a vector and itself it
    returns that vector for every finite amount. At amount 1 the result
    is [start + (end - start)], which rounding can keep away from
    [end]: from (10^16, 10^16, 10^16) to (1, 1, 1) it is (0, 0, 0). *)
Theorem Vector3_lerp_endpoints :
  forall (w : world) (start end_ : ref) (vs ve : Vec3.t) (amount : number),
    vector3_at w start = Some vs ->
    vector3_at w end_ = Some ve ->
    vec3_all finite64 vs = true ->
    (vec3_all is_finite (vec3_sub ve vs) = true ->
     returns (Vector3.lerp start end_ zero w) (fun r w' =>
       exists c, vector3_at w' r = Some c /\ vec3_eqb c vs = true)) /\
    (is_finite amount = true ->
     returns (Vector3.lerp start start amount w) (fun r w' =>
       exists c, vector3_at w' r = Some c /\ vec3_eqb c vs = true)) /\
    returns (Vector3.lerp 0%nat 1%nat one far_vectors_world) (fun r w' =>
      vector3_at w' r = Some (Vec3.mk zero zero zero)).
Proof.
  intros [h s d] start end_ vs ve amount Hs He Hfin.
  apply vector3_at_heap in Hs, He.
  pose proof (vec3_all_finite64_finite _ Hfin) as Hfin'.
  apply vec3_all_inv in Hfin as (Fx & Fy & Fz).
  split; [|split].
  - intros Hd. apply vec3_all_inv in Hd as (Dx & Dy & Dz).
    cbn [vec3_sub Vec3.x Vec3.y Vec3.z] in Dx, Dy, Dz.
    rewrite (run_Vector3_lerp start end_ zero vs ve h s d Hs He). cbn [returns].
    eexists. split; [apply vector3_at_heap; solve_lookup|].
    apply vec3_eqb_intro; [| | |exact Hfin']; cbn [Vec3.x Vec3.y Vec3.z]; solve_same.
  - intros Ha.
    rewrite (run_Vector3_lerp start start amount vs vs h s d Hs Hs). cbn [returns].
    eexists. split; [apply vector3_at_heap; solve_lookup|].
    rewrite !fsub_diag by (apply finite64_finite; assumption).
    apply vec3_eqb_intro; [| | |exact Hfin']; cbn [Vec3.x Vec3.y Vec3.z]; solve_same.
  - vm_compute. reflexivity.
Qed.

Lemma Vector3_lerp_endpoints_witness :
  returns (Vector3.lerp 0%nat 2%nat zero three_vectors_world) (fun r w' =>
    exists c, vector3_at w' r = Some c /\ vec3_eqb c (Vec3.mk two (- one) half) = true).
Proof.
  exact (proj1 (Vector3_lerp_endpoints three_vectors_world 0%nat 2%nat
                  (Vec3.mk two (- one) half) (Vec3.mk one one one) zero
                  eq_refl eq_refl eq_refl) eq_refl).
Defined.
End Vector3Interpolation.

Section Vector3Transforms.
Local Open Scope js_scope.
Implicit Types (h : list object) (s : Z) (d : list number).

Lemma run_Vector3_hermite value1 tangent1 value2 tangent2 amount
    (v1 t1 v2 t2 : Vec3.t) h s d :
  h !! value1 = Some (ObjVector3 v1) ->
  h !! tangent1 = Some (ObjVector3 t1) ->
  h !! value2 = Some (ObjVector3 v2) ->
  h !! tangent2 = Some (ObjVector3 t2) ->
  Vector3.hermite value1 tangent1 value2 tangent2 amount (World h s d)
  = Some (length h,
          World (h ++ [ObjVector3 (Vec3.mk
            (Scalar.hermite (Vec3.x v1) (Vec3.x t1) (Vec3.x v2) (Vec3.x t2) amount)
            (Scalar.hermite (Vec3.y v1) (Vec3.y t1) (Vec3.y v2) (Vec3.y t2) amount)
            (Scalar.hermite (Vec3.z v1) (Vec3.z t1) (Vec3.z v2) (Vec3.z t2) amount))])
            s d).
Proof.
  intros H1 H2 H3 H4. unfold Vector3.hermite. steps. reflexivity.
Qed.

Lemma hermite_at_zero v1 t1 v2 t2 :
  finite64 v1 = true -> finite64 t1 = true -> finite64 v2 = true -> finite64 t2 = true ->
  same_value (Scalar.hermite v1 t1 v2 t2 zero) v1.
Proof.
  intros Hv1 Ht1 Hv2 Ht2. unfold Scalar.hermite. cbv zeta. eval_numbers. solve_same.
Qed.

Lemma hermite_at_one v1 t1 v2 t2 :
  finite64 v1 = true -> finite64 t1 = true -> finite64 v2 = true -> finite64 t2 = true ->
  same_value (Scalar.hermite v1 t1 v2 t2 one) v2.
Proof.
  intros Hv1 Ht1 Hv2 Ht2. unfold Scalar.hermite. cbv zeta. eval_numbers. solve_same.
Qed.

(** [Scalar.hermite] and [Vector3.hermite], which computes the same
    polynomial on each component, pass through their two end points:
    with finite values and tangents, the result at amount 0 is [===] to
    [value1] and the result at amount 1 is [===] to [value2]. *)
Theorem hermite_endpoints :
  forall (w : world) (value1 tangent1 value2 tangent2 : ref) (v1 t1 v2 t2 : Vec3.t),
    vector3_at w value1 = Some v1 ->
    vector3_at w tangent1 = Some t1 ->
    vector3_at w value2 = Some v2 ->
    vector3_at w tangent2 = Some t2 ->
    vec3_all finite64 v1 = true -> vec3_all finite64 t1 = true ->
    vec3_all finite64 v2 = true -> vec3_all finite64 t2 = true ->
    (Scalar.hermite (Vec3.x v1) (Vec3.x t1) (Vec3.x v2) (Vec3.x t2) zero === Vec3.x v1)
    = true /\
    (Scalar.hermite (Vec3.x v1) (Vec3.x t1) (Vec3.x v2) (Vec3.x t2) one === Vec3.x v2)
    = true /\
    returns (Vector3.hermite value1 tangent1 value2 tangent2 zero w) (fun r w' =>
      exists c, vector3_at w' r = Some c /\ vec3_eqb c v1 = true) /\
    returns (Vector3.hermite value1 tangent1 value2 tangent2 one w) (fun r w' =>
      exists c, vector3_at w' r = Some c /\ vec3_eqb c v2 = true).
Proof.
  intros [h s d] value1 tangent1 value2 tangent2 v1 t1 v2 t2 H1 H2 H3 H4 F1 F2 F3 F4.
  apply vector3_at_heap in H1, H2, H3, H4.
  pose proof (vec3_all_finite64_finite _ F1) as F1'.
  pose proof (vec3_all_finite64_finite _ F3) as F3'.
  apply vec3_all_inv in F1 as (? & ? & ?). apply vec3_all_inv in F2 as (? & ? & ?).
  apply vec3_all_inv in F3 as (? & ? & ?). apply vec3_all_inv in F4 as (? & ? & ?).
  split; [|split; [|split]].
  - apply same_value_feqb; [apply hermite_at_zero; assumption | solve_finite].
  - apply same_value_feqb; [apply hermite_at_one; assumption | solve_finite].
  - rewrite (run_Vector3_hermite _ _ _ _ zero v1 t1 v2 t2 h s d H1 H2 H3 H4).
    cbn [returns]. eexists. split; [apply vector3_at_heap; solve_lookup|].
    apply vec3_eqb_intro; [| | |exact F1']; cbn [Vec3.x Vec3.y Vec3.z];
      apply hermite_at_zero; assumption.
  - rewrite (run_Vector3_hermite _ _ _ _ one v1 t1 v2 t2 h s d H1 H2 H3 H4).
    cbn [returns]. eexists. split; [apply vector3_at_heap; solve_lookup|].
    apply vec3_eqb_intro; [| | |exact F3']; cbn [Vec3.x Vec3.y Vec3.z];
      apply hermite_at_one; assumption.
Qed.

Lemma hermite_endpoints_witness :
  (Scalar.hermite two zero one zero zero === two) = true /\
  (Scalar.hermite two zero one zero one === one) = true /\
  returns (Vector3.hermite 0%nat 1%nat 2%nat 1%nat zero three_vectors_world) (fun r w' =>
    exists c, vector3_at w' r = Some c /\ vec3_eqb c (Vec3.mk two (- one) half) = true) /\
  returns (Vector3.hermite 0%nat 1%nat 2%nat 1%nat one three_vectors_world) (fun r w' =>
    exists c, vector3_at w' r = Some c /\ vec3_eqb c (Vec3.mk one one one) = true).
Proof.
  exact (hermite_endpoints three_vectors_world 0%nat 1%nat 2%nat 1%nat
           (Vec3.mk two (- one) half) (Vec3.mk zero zero zero)
           (Vec3.mk one one one) (Vec3.mk zero zero zero)
           eq_refl eq_refl eq_refl eq_refl eq_refl eq_refl eq_refl eq_refl).
Defined.

Lemma run_Vector3_transformCoordinates vector transformation (v : Vec3.t) (t : Mat.t) h s d :
  h !! vector = Some (ObjVector3 v) ->
  h !! transformation = Some (ObjMatrix t) ->
  let m := Mat._m t in
  let x := Vec3.x v in let y := Vec3.y v in let z := Vec3.z v in
  let rw := fdiv one (x * get16 m 3 + y * get16 m 7 + z * get16 m 11 + get16 m 15) in
  Vector3.transformCoordinates vector transformation (World h s d)
  = Some (length h,
          World (h ++ [ObjVector3 (Vec3.mk
                   ((x * get16 m 0 + y * get16 m 4 + z * get16 m 8 + get16 m 12) * rw)
                   ((x * get16 m 1 + y * get16 m 5 + z * get16 m 9 + get16 m 13) * rw)
                   ((x * get16 m 2 + y * get16 m 6 + z * get16 m 10 + get16 m 14) * rw))])
                s (d ++ [x * get16 m 3 + y * get16 m 7 + z * get16 m 11 + get16 m 15])).
Proof.
  intros Hv Ht. cbv zeta.
  unfold Vector3.transformCoordinates, Vector3.transformCoordinatesToRef,
    Vector3.transformCoordinatesFromFloatsToRef.
  steps. reflexivity.
Qed.

Lemma run_Vector3_transformNormal vector transformation (v : Vec3.t) (t : Mat.t) h s d :
  h !! vector = Some (ObjVector3 v) ->
  h !! transformation = Some (ObjMatrix t) ->
  let m := Mat._m t in
  let x := Vec3.x v in let y := Vec3.y v in let z := Vec3.z v in
  Vector3.transformNormal vector transformation (World h s d)
  = Some (length h,
          World (h ++ [ObjVector3 (Vec3.mk
                   (x * get16 m 0 + y * get16 m 4 + z * get16 m 8)
                   (x * get16 m 1 + y * get16 m 5 + z * get16 m 9)
                   (x * get16 m 2 + y * get16 m 6 + z * get16 m 10))]) s d).
Proof.
  intros Hv Ht. cbv zeta.
  unfold Vector3.transformNormal, Vector3.transformNormalToRef,
    Vector3.transformNormalFromFloatsToRef.
  steps. reflexivity.
Qed.

(** [Vector3.transformCoordinates] and [Vector3.transformNormal] with
    a matrix that holds the entries of the identity, flagged or not,
    return a vector [===] to the given one when its components are
    finite; the one division of [transformCoordinates] is by 1. *)
Theorem Vector3_transform_by_identity :
  forall (w : world) (vector transformation : ref) (v : Vec3.t) (t : Mat.t),
    vector3_at w vector = Some v ->
    matrix_at w transformation = Some t ->
    Mat._m t = identity16 ->
    vec3_all finite64 v = true ->
    returns (Vector3.transformCoordinates vector transformation w) (fun r w' =>
      exists c, vector3_at w' r = Some c /\ vec3_eqb c v = true /\
                new_divisors w w' = [one]) /\
    returns (Vector3.transformNormal vector transformation w) (fun r w' =>
      exists c, vector3_at w' r = Some c /\ vec3_eqb c v = true /\
                new_divisors w w' = []).
Proof.
  intros [h s d] vector transformation v t Hv Ht Hid Hfin.
  apply vector3_at_heap in Hv. apply matrix_at_heap in Ht.
  pose proof (vec3_all_finite64_finite _ Hfin) as Hfin'.
  apply vec3_all_inv in Hfin as (Fx & Fy & Fz).
  split.
  - rewrite (run_Vector3_transformCoordinates _ _ v t h s d Hv Ht). cbv zeta.
    rewrite Hid. cbn [get16 identity16 e0 e1 e2 e3 e4 e5 e6 e7 e8 e9 e10 e11 e12 e13 e14 e15].
    assert (E : (Vec3.x v * zero + Vec3.y v * zero + Vec3.z v * zero + one) = one).
    { apply zero_plus_one. solve_zero. }
    rewrite E, fdiv_one_one. cbn [returns].
    eexists. split; [apply vector3_at_heap; solve_lookup|].
    split; [|apply new_divisors_app].
    apply vec3_eqb_intro; [| | |exact Hfin']; cbn [Vec3.x Vec3.y Vec3.z]; solve_same.
  - rewrite (run_Vector3_transformNormal _ _ v t h s d Hv Ht). cbv zeta.
    rewrite Hid. cbn [get16 identity16 e0 e1 e2 e3 e4 e5 e6 e7 e8 e9 e10 e11 e12 e13 e14 e15].
    cbn [returns].
    eexists. split; [apply vector3_at_heap; solve_lookup|].
    split; [|apply new_divisors_same].
    apply vec3_eqb_intro; [| | |exact Hfin']; cbn [Vec3.x Vec3.y Vec3.z]; solve_same.
Qed.

Lemma Vector3_transform_by_identity_witness :
  returns (Vector3.transformCoordinates 0%nat 1%nat identity_operands_world) (fun r w' =>
    exists c, vector3_at w' r = Some c /\ vec3_eqb c (Vec3.mk two (- one) half) = true /\
              new_divisors identity_operands_world w' = [one]) /\
  returns (Vector3.transformNormal 0%nat 1%nat identity_operands_world) (fun r w' =>
    exists c, vector3_at w' r = Some c /\ vec3_eqb c (Vec3.mk two (- one) half) = true /\
              new_divisors identity_operands_world w' = []).
Proof.
  exact (Vector3_transform_by_identity identity_operands_world 0%nat 1%nat
           (Vec3.mk two (- one) half) (Mat.mk 0 false false true true identity16)
           eq_refl eq_refl eq_refl eq_refl).
Defined.

Lemma run_Vector3_rotate vector q (v : Vec3.t) (qq : Quat.t) h s d :
  h !! vector = Some (ObjVector3 v) ->
  h !! q = Some (ObjQuaternion qq) ->
  let x := Vec3.x v in let y := Vec3.y v in let z := Vec3.z v in
  let qx := Quat.x qq in let qy := Quat.y qq in
  let qz := Quat.z qq in let qw := Quat.w qq in
  let ix := qw * x + qy * z - qz * y in
  let iy := qw * y + qz * x - qx * z in
  let iz := qw * z + qx * y - qy * x in
  let iw := - qx * x - qy * y - qz * z in
  Vector3.rotate vector q (World h s d)
  = Some (length h,
          World (h ++ [ObjVector3 (Vec3.mk
                   (ix * qw + iw * - qx + iy * - qz - iz * - qy)
                   (iy * qw + iw * - qy + iz * - qx - ix * - qz)
                   (iz * qw + iw * - qz + ix * - qy - iy * - qx))]) s d).
Proof.
  intros Hv Hq. cbv zeta. unfold Vector3.rotate, Vector3.rotateToRef.
  steps. reflexivity.
Qed.

(** [Vector3.rotate] by the quaternion (0, 0, 0, 1) returns a vector
    [===] to the given one, when its components are finite; neither
    operand is written. *)
Theorem Vector3_rotate_by_identity :
  forall (w : world) (vector q : ref) (v : Vec3.t),
    vector3_at w vector = Some v ->
    quaternion_at w q = Some (Quat.mk zero zero zero one) ->
    vec3_all finite64 v = true ->
    returns (Vector3.rotate vector q w) (fun r w' =>
      exists c, vector3_at w' r = Some c /\ vec3_eqb c v = true /\
                vector3_at w' vector = Some v /\
                quaternion_at w' q = Some (Quat.mk zero zero zero one)).
Proof.
  intros [h s d] vector q v Hv Hq Hfin.
  apply vector3_at_heap in Hv. apply quaternion_at_heap in Hq.
  pose proof (vec3_all_finite64_finite _ Hfin) as Hfin'.
  apply vec3_all_inv in Hfin as (Fx & Fy & Fz).
  rewrite (run_Vector3_rotate _ _ v _ h s d Hv Hq). cbv zeta.
  cbn [Quat.x Quat.y Quat.z Quat.w returns].
  eval_numbers.
  set (ix := (one * Vec3.x v + zero * Vec3.z v - zero * Vec3.y v)).
  set (iy := (one * Vec3.y v + zero * Vec3.x v - zero * Vec3.z v)).
  set (iz := (one * Vec3.z v + zero * Vec3.y v - zero * Vec3.x v)).
  assert (Hix : same_value ix (Vec3.x v)) by (unfold ix; solve_same).
  assert (Hiy : same_value iy (Vec3.y v)) by (unfold iy; solve_same).
  assert (Hiz : same_value iz (Vec3.z v)) by (unfold iz; solve_same).
  pose proof (same_value_finite _ _ Hix (finite64_finite _ Fx)) as Fix.
  pose proof (same_value_finite _ _ Hiy (finite64_finite _ Fy)) as Fiy.
  pose proof (same_value_finite _ _ Hiz (finite64_finite _ Fz)) as Fiz.
  eexists. split; [apply vector3_at_heap; solve_lookup|].
  split; [|split; [apply vector3_at_heap; solve_lookup
                  |apply quaternion_at_heap; solve_lookup]].
  apply vec3_eqb_intro; [| | |exact Hfin']; cbn [Vec3.x Vec3.y Vec3.z]; solve_same.
Qed.

Lemma Vector3_rotate_by_identity_witness :
  returns (Vector3.rotate 0%nat 2%nat identity_operands_world) (fun r w' =>
    exists c, vector3_at w' r = Some c /\ vec3_eqb c (Vec3.mk two (- one) half) = true /\
              vector3_at w' 0%nat = Some (Vec3.mk two (- one) half) /\
              quaternion_at w' 2%nat = Some (Quat.mk zero zero zero one)).
Proof.
  exact (Vector3_rotate_by_identity identity_operands_world 0%nat 2%nat
           (Vec3.mk two (- one) half) eq_refl eq_refl eq_refl).
Defined.
End Vector3Transforms.
(* ================================================================= *)
(** * Matrix: transposition, products, flags and comparisons *)

(** A step that keeps the matrices of the heap evaluated. *)
Ltac mstep :=
  step;
  cbn [with_m set16 get16 Mat._m Mat.updateFlag Mat.isIdentity Mat.isIdentity3x2
       Mat._isIdentityDirty Mat._isIdentity3x2Dirty
       e0 e1 e2 e3 e4 e5 e6 e7 e8 e9 e10 e11 e12 e13 e14 e15].

Section MatrixTranspose.
Local Open Scope js_scope.
Implicit Types (h : list object) (s : Z) (d : list number).

Lemma run_transposeToRef_distinct matrix result (mm mr : Mat.t) h s d :
  h !! matrix = Some (ObjMatrix mm) ->
  h !! result = Some (ObjMatrix mr) ->
  matrix <> result ->
  Matrix.transposeToRef matrix result (World h s d)
  = Some (tt,
          World (<[result:=ObjMatrix
                     (with_status s (Mat.isIdentity mm) (Mat._isIdentityDirty mm) false true
                        (with_entries (transposed (Mat._m mm)) mr))]> h)
                (seed_succ s) d).
Proof.
  intros Hm Hr Hne. unfold Matrix.transposeToRef.
  do 33 step.
  etransitivity; [eapply run__updateIdentityStatus; solve_lookup|].
  rewrite insert_insert_same.
  destruct mr as [f i i32 id i32d [b0 b1 b2 b3 b4 b5 b6 b7 b8 b9 b10 b11 b12 b13 b14 b15]].
  destruct mm as [f' i' i32' id' i32d' [c0 c1 c2 c3 c4 c5 c6 c7 c8 c9 c10 c11 c12 c13 c14 c15]].
  reflexivity.
Qed.

Lemma run_transposeToRef_in_place matrix (mm : Mat.t) h s d :
  h !! matrix = Some (ObjMatrix mm) ->
  Matrix.transposeToRef matrix matrix (World h s d)
  = Some (tt,
          World (<[matrix:=ObjMatrix
                     (with_status s (Mat.isIdentity mm) (Mat._isIdentityDirty mm) false true
                        (with_entries (lower_symmetric (Mat._m mm)) mm))]> h)
                (seed_succ s) d).
Proof.
  destruct mm as [f' i' i32' id' i32d' [c0 c1 c2 c3 c4 c5 c6 c7 c8 c9 c10 c11 c12 c13 c14 c15]].
  intros Hm. unfold Matrix.transposeToRef.
  do 33 mstep.
  etransitivity; [eapply run__updateIdentityStatus; solve_lookup|].
  rewrite insert_insert_same. reflexivity.
Qed.

Lemma run_Matrix_transpose matrix (mm : Mat.t) h s d :
  h !! matrix = Some (ObjMatrix mm) ->
  Matrix.transpose matrix (World h s d)
  = Some (length h,
          World (h ++ [ObjMatrix
                   (with_status (seed_succ s) (Mat.isIdentity mm) (Mat._isIdentityDirty mm)
                      false true
                      (with_entries (transposed (Mat._m mm))
                         (Mat.mk s false false false true zero16)))])
                (seed_succ (seed_succ s)) d).
Proof.
  intros Hm. unfold Matrix.transpose.
  step_with run_Matrix_create.
  etransitivity.
  { eapply run_bind. eapply run_transposeToRef_distinct; [solve_lookup..|].
    apply lookup_lt_Some in Hm. lia. }
  cbv beta. rewrite insert_snoc_new. reflexivity.
Qed.

Lemma transposed_involutive a : transposed (transposed a) = a.
Proof. destruct a. reflexivity. Qed.

(** [Matrix.transpose] is an involution on the entries: the transpose
    of the transpose of a matrix holds the entries the matrix holds,
    and the [isIdentity] flag of the matrix.
    Each call returns a new matrix and leaves its operand as it was. *)
Theorem Matrix_transpose_involution :
  forall (w : world) (matrix : ref) (mm : Mat.t),
    matrix_at w matrix = Some mm ->
    returns ((t <- Matrix.transpose matrix ;;
              tt_ <- Matrix.transpose t ;;
              ret (t, tt_)) w)
      (fun r w' =>
         exists m1 m2,
           matrix_at w' (fst r) = Some m1 /\ matrix_at w' (snd r) = Some m2 /\
           matrix_at w' matrix = Some mm /\
           matrix_at w (fst r) = None /\ matrix_at w (snd r) = None /\
           fst r <> snd r /\
           Mat._m m1 = transposed (Mat._m mm) /\
           Mat._m m2 = Mat._m mm /\
           Mat.isIdentity m2 = Mat.isIdentity mm).
Proof.
  intros [h s d] matrix mm Hm. apply matrix_at_heap in Hm.
  rstep_with run_Matrix_transpose.
  rstep_with run_Matrix_transpose.
  cbv [returns ret]. cbn [fst snd].
  eexists _, _.
  split; [apply matrix_at_heap; solve_lookup|].
  split; [apply matrix_at_heap; rewrite length_app; cbn [length];
          replace (length h + 1)%nat with (length (h ++ [ObjMatrix
            (with_status (seed_succ s) (Mat.isIdentity mm) (Mat._isIdentityDirty mm)
               false true (with_entries (transposed (Mat._m mm))
                             (Mat.mk s false false false true zero16)))]))
            by (rewrite length_app; reflexivity);
          apply lookup_snoc_new|].
  split; [apply matrix_at_heap; solve_lookup|].
  split; [unfold matrix_at; cbn [heap]; rewrite lookup_ge_None_2; [reflexivity|lia]|].
  split; [unfold matrix_at; cbn [heap]; rewrite lookup_ge_None_2;
          [reflexivity|rewrite length_app; cbn [length]; lia]|].
  split; [rewrite length_app; cbn [length]; lia|].
  cbn [Mat._m with_status with_entries Mat.isIdentity Mat._isIdentityDirty].
  rewrite transposed_involutive.
  repeat split.
Qed.

Lemma Matrix_transpose_involution_witness :
  returns ((t <- Matrix.transpose 0%nat ;;
            tt_ <- Matrix.transpose t ;;
            ret (t, tt_)) two_matrices_world)
    (fun r w' =>
       exists m1 m2,
         matrix_at w' (fst r) = Some m1 /\ matrix_at w' (snd r) = Some m2 /\
         matrix_at w' 0%nat = Some (Mat.mk 0 false false false true zero16) /\
         matrix_at two_matrices_world (fst r) = None /\
         matrix_at two_matrices_world (snd r) = None /\
         fst r <> snd r /\
         Mat._m m1 = transposed zero16 /\
         Mat._m m2 = zero16 /\
         Mat.isIdentity m2 = false).
Proof.
  exact (Matrix_transpose_involution two_matrices_world 0%nat
           (Mat.mk 0 false false false true zero16) eq_refl).
Defined.

Lemma lower_symmetric_transposed a :
  lower_symmetric a = transposed a <-> transposed a = a.
Proof.
  destruct a as [a0 a1 a2 a3 a4 a5 a6 a7 a8 a9 a10 a11 a12 a13 a14 a15].
  unfold lower_symmetric, transposed.
  cbn [e0 e1 e2 e3 e4 e5 e6 e7 e8 e9 e10 e11 e12 e13 e14 e15].
  split; intros H; injection H; intros; subst; reflexivity.
Qed.

Lemma lower_symmetric_symmetric a :
  transposed (lower_symmetric a) = lower_symmetric a.
Proof. destruct a. reflexivity. Qed.

(** [Matrix.transposeToRef] with the matrix itself as the result does
    not transpose: it copies the entries below the diagonal over those
    above it. What is left is a symmetric matrix, which is the
    transpose only when the matrix was symmetric; and the flags are
    those of the operand, so that a matrix whose [isIdentity] told the
    truth can end with one that does not. *)
Theorem Matrix_transposeToRef_in_place :
  forall (w : world) (matrix : ref) (mm : Mat.t),
    matrix_at w matrix = Some mm ->
    returns (Matrix.transposeToRef matrix matrix w) (fun _ w' =>
      exists m', matrix_at w' matrix = Some m' /\
                 Mat._m m' = lower_symmetric (Mat._m mm) /\
                 transposed (Mat._m m') = Mat._m m' /\
                 (Mat._m m' = transposed (Mat._m mm) <->
                  transposed (Mat._m mm) = Mat._m mm) /\
                 Mat.isIdentity m' = Mat.isIdentity mm) /\
    truthful almost_identity /\
    returns (Matrix.transposeToRef 0%nat 0%nat (World [ObjMatrix almost_identity] 1 []))
      (fun _ w' => exists m', matrix_at w' 0%nat = Some m' /\ ~ truthful m').
Proof.
  intros [h s d] matrix mm Hm. apply matrix_at_heap in Hm.
  split; [|split].
  - rewrite (run_transposeToRef_in_place matrix mm h s d Hm). cbn [returns].
    eexists. split; [apply matrix_at_heap; solve_lookup|].
    cbn [Mat._m with_status with_entries Mat.isIdentity].
    split; [reflexivity|].
    split; [apply lower_symmetric_symmetric|].
    split; [apply lower_symmetric_transposed|reflexivity].
  - reflexivity.
  - rewrite (run_transposeToRef_in_place 0%nat almost_identity
               [ObjMatrix almost_identity] 1 [] eq_refl).
    cbn [returns]. eexists. split; [reflexivity|].
    intros H. vm_compute in H. discriminate H.
Qed.

Lemma Matrix_transposeToRef_in_place_witness :
  returns (Matrix.transposeToRef 0%nat 0%nat (World [ObjMatrix almost_identity] 1 []))
    (fun _ w' =>
       exists m', matrix_at w' 0%nat = Some m' /\
                  Mat._m m' = lower_symmetric (Mat._m almost_identity) /\
                  transposed (Mat._m m') = Mat._m m' /\
                  (Mat._m m' = transposed (Mat._m almost_identity) <->
                   transposed (Mat._m almost_identity) = Mat._m almost_identity) /\
                  Mat.isIdentity m' = Mat.isIdentity almost_identity).
Proof.
  exact (proj1 (Matrix_transposeToRef_in_place (World [ObjMatrix almost_identity] 1 [])
                  0%nat almost_identity eq_refl)).
Defined.
End MatrixTranspose.

Section MatrixFlags.
Local Open Scope js_scope.
Implicit Types (h : list object) (s : Z) (d : list number).

Lemma identity_test_of_eq (m : Mat.t) :
  identity_test_of m
  = let a := Mat._m m in
    (e0 a === one) && (e1 a === zero) && (e2 a === zero) && (e3 a === zero) &&
    (e4 a === zero) && (e5 a === one) && (e6 a === zero) && (e7 a === zero) &&
    (e8 a === zero) && (e9 a === zero) && (e10 a === one) && (e11 a === zero) &&
    (e12 a === zero) && (e13 a === zero) && (e14 a === zero) && (e15 a === one).
Proof.
  destruct m as [f i i32 id i32d []].
  unfold identity_test_of, entries_eqb, entries.
  cbn [combine forallb fst snd Mat._m identity16
       e0 e1 e2 e3 e4 e5 e6 e7 e8 e9 e10 e11 e12 e13 e14 e15].
  rewrite andb_true_r, !andb_assoc. reflexivity.
Qed.

Lemma identity_test_of_entries (m m' : Mat.t) :
  Mat._m m = Mat._m m' -> identity_test_of m = identity_test_of m'.
Proof. intros H. rewrite !identity_test_of_eq, H. reflexivity. Qed.

Lemma run_isIdentityUpdate_dirty self (m : Mat.t) h s d :
  h !! self = Some (ObjMatrix m) ->
  Mat._isIdentityDirty m = true ->
  Matrix.isIdentityUpdate self (World h s d)
  = Some (identity_test_of m,
          World (<[self:=ObjMatrix
                     (with_isIdentity (identity_test_of m)
                        (with_isIdentityDirty false m))]> h) s d).
Proof.
  intros Hm Hd. unfold Matrix.isIdentityUpdate.
  step. rewrite Hd. cbv iota. do 4 step. last_step.
  rewrite identity_test_of_eq.
  destruct m as [f i i32 id i32d []]. reflexivity.
Qed.

Lemma run_isIdentityUpdate_clean self (m : Mat.t) h s d :
  h !! self = Some (ObjMatrix m) ->
  Mat._isIdentityDirty m = false ->
  Matrix.isIdentityUpdate self (World h s d) = Some (Mat.isIdentity m, World h s d).
Proof.
  intros Hm Hd. unfold Matrix.isIdentityUpdate.
  step. rewrite Hd. cbv iota. step. step. last_step. reflexivity.
Qed.

Lemma run_scalingToRef x y z result (m : Mat.t) h s d :
  h !! result = Some (ObjMatrix m) ->
  Matrix.scalingToRef x y z result (World h s d)
  = Some (tt,
          World (<[result:=ObjMatrix
                     (with_status (seed_succ s)
                        ((x === one) && (y === one) && (z === one)) false false true
                        (Mat.mk s false false true true
                           (M16 x zero zero zero zero y zero zero
                                zero zero z zero zero zero zero one)))]> h)
                (seed_succ (seed_succ s)) d).
Proof.
  intros Hm. unfold Matrix.scalingToRef.
  step_with run_fromValuesToRef.
  etransitivity; [eapply run__updateIdentityStatus; solve_lookup|].
  rewrite insert_insert_same. reflexivity.
Qed.

Lemma run_translationToRef x y z result (m : Mat.t) h s d :
  h !! result = Some (ObjMatrix m) ->
  Matrix.translationToRef x y z result (World h s d)
  = Some (tt,
          World (<[result:=ObjMatrix
                     (with_status (seed_succ s)
                        ((x === zero) && (y === zero) && (z === zero)) false false true
                        (Mat.mk s false false true true
                           (M16 one zero zero zero zero one zero zero
                                zero zero one zero x y z one)))]> h)
                (seed_succ (seed_succ s)) d).
Proof.
  intros Hm. unfold Matrix.translationToRef.
  step_with run_fromValuesToRef.
  etransitivity; [eapply run__updateIdentityStatus; solve_lookup|].
  rewrite insert_insert_same. reflexivity.
Qed.

Lemma run_reset self (m : Mat.t) h s d :
  h !! self = Some (ObjMatrix m) ->
  Matrix.reset self (World h s d)
  = Some (tt,
          World (<[self:=ObjMatrix (Mat.mk (seed_succ s) false false false true zero16)]> h)
                (seed_succ (seed_succ s)) d).
Proof.
  intros Hm. unfold Matrix.reset.
  step_with run_fromValuesToRef.
  etransitivity; [eapply run__updateIdentityStatus; solve_lookup|].
  rewrite insert_insert_same. reflexivity.
Qed.

Lemma run_IdentityToRef result (m : Mat.t) h s d :
  h !! result = Some (ObjMatrix m) ->
  Matrix.IdentityToRef result (World h s d)
  = Some (tt,
          World (<[result:=ObjMatrix (Mat.mk (seed_succ s) true true false false identity16)]> h)
                (seed_succ (seed_succ s)) d).
Proof.
  intros Hm. unfold Matrix.IdentityToRef.
  step_with run_fromValuesToRef.
  etransitivity; [eapply run__updateIdentityStatus; solve_lookup|].
  rewrite insert_insert_same. reflexivity.
Qed.

Lemma run_Matrix_Zero h s d :
  Matrix.Zero (World h s d)
  = Some (length h,
          World (h ++ [ObjMatrix
                         (Mat.mk (seed_succ (seed_succ s)) false false false true zero16)])
                (seed_succ (seed_succ (seed_succ s))) d).
Proof.
  unfold Matrix.Zero.
  step_with run_fromValues.
  step_with run__updateIdentityStatus.
  last_step. reflexivity.
Qed.

Lemma run_removeRotationAndScaling self (m : Mat.t) h s d :
  h !! self = Some (ObjMatrix m) ->
  let a := Mat._m m in
  Matrix.removeRotationAndScaling self (World h s d)
  = Some (self,
          World (<[self:=ObjMatrix
                     (with_status (seed_succ s)
                        ((e12 a === zero) && (e13 a === zero) &&
                         (e14 a === zero) && (e15 a === one)) false false true
                        (Mat.mk s false false true true
                           (M16 one zero zero zero zero one zero zero
                                zero zero one zero (e12 a) (e13 a) (e14 a) (e15 a))))]> h)
                (seed_succ (seed_succ s)) d).
Proof.
  destruct m as [f i i32 id i32d [b0 b1 b2 b3 b4 b5 b6 b7 b8 b9 b10 b11 b12 b13 b14 b15]].
  intros Hm. cbv zeta. unfold Matrix.removeRotationAndScaling.
  mstep.
  step_with run_fromValuesToRef.
  mstep.
  step_with run__updateIdentityStatus.
  last_step. reflexivity.
Qed.

Lemma feqb_one_one : (one === one) = true.
Proof. reflexivity. Qed.

Lemma feqb_zero_zero : (zero === zero) = true.
Proof. reflexivity. Qed.

Lemma feqb_zero_one : (zero === one) = false.
Proof. reflexivity. Qed.

Lemma truthful_dirty (m : Mat.t) :
  Mat.isIdentity m = false -> Mat._isIdentityDirty m = true -> truthful m.
Proof. unfold truthful. intros -> ->. reflexivity. Qed.

Lemma truthful_copy f (mf m : Mat.t) i32 i32d :
  truthful mf -> identity_test_of m = identity_test_of mf ->
  truthful (with_status f (Mat.isIdentity mf) (Mat._isIdentityDirty mf) i32 i32d m).
Proof.
  unfold truthful. intros Ht Hm.
  cbn [with_status Mat.isIdentity Mat._isIdentityDirty].
  rewrite (identity_test_of_entries _ m) by reflexivity. rewrite Hm.
  destruct (Mat.isIdentity mf), (Mat._isIdentityDirty mf), (identity_test_of mf);
    cbn in *; congruence.
Qed.

Lemma identity_test_transposed (m m' : Mat.t) :
  Mat._m m' = transposed (Mat._m m) -> identity_test_of m' = identity_test_of m.
Proof.
  intros H. rewrite !identity_test_of_eq, H. cbv zeta.
  destruct m as [f i i32 id i32d [b0 b1 b2 b3 b4 b5 b6 b7 b8 b9 b10 b11 b12 b13 b14 b15]].
  cbn [Mat._m transposed e0 e1 e2 e3 e4 e5 e6 e7 e8 e9 e10 e11 e12 e13 e14 e15].
  apply eq_true_iff_eq. rewrite !andb_true_iff. tauto.
Qed.

(** The flag of a matrix that was just written and stamped. *)
Ltac solve_truthful :=
  unfold truthful;
  rewrite identity_test_of_eq; cbv zeta;
  cbn [with_status marked Mat.isIdentity Mat._isIdentityDirty orb
       Mat._m e0 e1 e2 e3 e4 e5 e6 e7 e8 e9 e10 e11 e12 e13 e14 e15 zero16 identity16];
  rewrite ?feqb_zero_zero, ?feqb_one_one, ?feqb_zero_one;
  repeat match goal with
         | |- context [?a === ?b] => destruct (a === b)
         end;
  reflexivity.

Ltac at_result :=
  cbn [returns]; eexists; split; [apply matrix_at_heap; solve_lookup|].

Lemma run_Matrix_scaling x y z h s d :
  Matrix.scaling x y z (World h s d)
  = Some (length h,
          World (h ++ [ObjMatrix
                   (with_status (seed_succ (seed_succ s))
                      ((x === one) && (y === one) && (z === one)) false false true
                      (Mat.mk (seed_succ s) false false true true
                         (M16 x zero zero zero zero y zero zero
                              zero zero z zero zero zero zero one)))])
                (seed_succ (seed_succ (seed_succ s))) d).
Proof.
  unfold Matrix.scaling.
  step_with run_Matrix_create.
  step_with run_scalingToRef.
  last_step. reflexivity.
Qed.

Lemma run_Matrix_translation x y z h s d :
  Matrix.translation x y z (World h s d)
  = Some (length h,
          World (h ++ [ObjMatrix
                   (with_status (seed_succ (seed_succ s))
                      ((x === zero) && (y === zero) && (z === zero)) false false true
                      (Mat.mk (seed_succ s) false false true true
                         (M16 one zero zero zero zero one zero zero
                              zero zero one zero x y z one)))])
                (seed_succ (seed_succ (seed_succ s))) d).
Proof.
  unfold Matrix.translation.
  step_with run_Matrix_create.
  step_with run_translationToRef.
  last_step. reflexivity.
Qed.

(** The matrices that [create], [Identity], [Zero], [fromValues],
    [scaling] and [translation] return carry an [isIdentity] flag that
    tells the truth, and so does any matrix after [reset],
    [IdentityToRef], [fromValuesToRef], [scalingToRef],
    [translationToRef] or [removeRotationAndScaling] wrote it, whatever
    it held before. *)
Theorem Matrix_written_flags_truthful :
  forall (w : world) (x y z : number) (a : Matrix4x4) (r : ref) (m : Mat.t),
    matrix_at w r = Some m ->
    returns (Matrix.create w) truthful_at /\
    returns (Matrix.Identity w) truthful_at /\
    returns (Matrix.Zero w) truthful_at /\
    returns (Matrix.fromValues (e0 a) (e1 a) (e2 a) (e3 a) (e4 a) (e5 a) (e6 a) (e7 a)
               (e8 a) (e9 a) (e10 a) (e11 a) (e12 a) (e13 a) (e14 a) (e15 a) w)
            truthful_at /\
    returns (Matrix.scaling x y z w) truthful_at /\
    returns (Matrix.translation x y z w) truthful_at /\
    returns (Matrix.reset r w) (fun _ => truthful_at r) /\
    returns (Matrix.IdentityToRef r w) (fun _ => truthful_at r) /\
    returns (Matrix.fromValuesToRef (e0 a) (e1 a) (e2 a) (e3 a) (e4 a) (e5 a) (e6 a)
               (e7 a) (e8 a) (e9 a) (e10 a) (e11 a) (e12 a) (e13 a) (e14 a) (e15 a) r w)
            (fun _ => truthful_at r) /\
    returns (Matrix.scalingToRef x y z r w) (fun _ => truthful_at r) /\
    returns (Matrix.translationToRef x y z r w) (fun _ => truthful_at r) /\
    returns (Matrix.removeRotationAndScaling r w) (fun _ => truthful_at r).
Proof.
  intros [h s d] x y z a r m Hm. apply matrix_at_heap in Hm.
  unfold truthful_at.
  repeat split.
  - rewrite (run_Matrix_create h s d). at_result. solve_truthful.
  - rewrite (run_Matrix_Identity h s d). at_result. solve_truthful.
  - rewrite (run_Matrix_Zero h s d). at_result. solve_truthful.
  - rewrite (run_fromValues _ _ _ _ _ _ _ _ _ _ _ _ _ _ _ _ h s d). at_result. apply truthful_dirty; reflexivity.
  - rewrite (run_Matrix_scaling x y z h s d). at_result. solve_truthful.
  - rewrite (run_Matrix_translation x y z h s d). at_result. solve_truthful.
  - rewrite (run_reset r m h s d Hm). at_result. solve_truthful.
  - rewrite (run_IdentityToRef r m h s d Hm). at_result. solve_truthful.
  - rewrite (run_fromValuesToRef _ _ _ _ _ _ _ _ _ _ _ _ _ _ _ _ r m h s d Hm). at_result. apply truthful_dirty; reflexivity.
  - rewrite (run_scalingToRef x y z r m h s d Hm). at_result. solve_truthful.
  - rewrite (run_translationToRef x y z r m h s d Hm). at_result. solve_truthful.
  - rewrite (run_removeRotationAndScaling r m h s d Hm). at_result. solve_truthful.
Qed.

Lemma Matrix_written_flags_truthful_witness :
  returns (Matrix.removeRotationAndScaling 0%nat (World [ObjMatrix almost_identity] 1 []))
    (fun _ => truthful_at 0%nat).
Proof.
  exact (proj2 (proj2 (proj2 (proj2 (proj2 (proj2 (proj2 (proj2 (proj2 (proj2 (proj2
           (Matrix_written_flags_truthful (World [ObjMatrix almost_identity] 1 [])
              one one one identity16 0%nat almost_identity eq_refl)))))))))))).
Defined.

Lemma run_Matrix_clone self (m : Mat.t) h s d :
  h !! self = Some (ObjMatrix m) ->
  Matrix.clone self (World h s d)
  = Some (length h,
          World (h ++ [ObjMatrix
                   (with_status (seed_succ s) (Mat.isIdentity m) (Mat._isIdentityDirty m)
                      (Mat.isIdentity3x2 m) (Mat._isIdentity3x2Dirty m) m)])
                (seed_succ (seed_succ s)) d).
Proof.
  intros Hm. unfold Matrix.clone.
  step_with run_Matrix_create.
  step_with run_Matrix_copy.
  last_step. reflexivity.
Qed.

Lemma run_multiplyToArray self other result (ms mo mr : Mat.t) h s d :
  h !! self = Some (ObjMatrix ms) ->
  h !! other = Some (ObjMatrix mo) ->
  h !! result = Some (ObjMatrix mr) ->
  Matrix.multiplyToArray self other result 0 (World h s d)
  = Some (tt,
          World (<[result:=ObjMatrix (with_entries (product16 (Mat._m ms) (Mat._m mo)) mr)]> h)
                s d).
Proof.
  destruct ms as [? ? ? ? ? [a0 a1 a2 a3 a4 a5 a6 a7 a8 a9 a10 a11 a12 a13 a14 a15]].
  destruct mo as [? ? ? ? ? [b0 b1 b2 b3 b4 b5 b6 b7 b8 b9 b10 b11 b12 b13 b14 b15]].
  destruct mr as [? ? ? ? ? [c0 c1 c2 c3 c4 c5 c6 c7 c8 c9 c10 c11 c12 c13 c14 c15]].
  intros Hs Ho Hr. unfold Matrix.multiplyToArray.
  cbn [Nat.add].
  do 17 mstep.
  etransitivity; [eapply run_setMatrix; solve_lookup|].
  rewrite insert_insert_same. reflexivity.
Qed.

Lemma run_multiplyToRef self other result (ms mo mr : Mat.t) h s d :
  h !! self = Some (ObjMatrix ms) ->
  h !! other = Some (ObjMatrix mo) ->
  h !! result = Some (ObjMatrix mr) ->
  Matrix.multiplyToRef self other result (World h s d)
  = Some (tt,
          World (<[result:=ObjMatrix
                     (if Mat.isIdentity ms then
                        with_status s (Mat.isIdentity mo) (Mat._isIdentityDirty mo)
                          (Mat.isIdentity3x2 mo) (Mat._isIdentity3x2Dirty mo) mo
                      else if Mat.isIdentity mo then
                        with_status s (Mat.isIdentity ms) (Mat._isIdentityDirty ms)
                          (Mat.isIdentity3x2 ms) (Mat._isIdentity3x2Dirty ms) ms
                      else
                        marked s (with_entries (product16 (Mat._m ms) (Mat._m mo)) mr))]> h)
                (seed_succ s) d).
Proof.
  intros Hs Ho Hr. unfold Matrix.multiplyToRef.
  step. destruct (Mat.isIdentity ms) eqn:Es.
  { apply (run_Matrix_copy other result mo mr h s d Ho Hr). }
  step. destruct (Mat.isIdentity mo) eqn:Eo.
  { etransitivity; [apply (run_Matrix_copy self result ms mr h s d Hs Hr)|].
    rewrite Es. reflexivity. }
  step_with run_multiplyToArray.
  etransitivity; [eapply run__markAsUpdated; solve_lookup|].
  rewrite insert_insert_same. reflexivity.
Qed.

Lemma run_Matrix_multiply self other (ms mo : Mat.t) h s d :
  h !! self = Some (ObjMatrix ms) ->
  h !! other = Some (ObjMatrix mo) ->
  Matrix.multiply self other (World h s d)
  = Some (length h,
          World (h ++ [ObjMatrix
                   (if Mat.isIdentity ms then
                      with_status (seed_succ s) (Mat.isIdentity mo) (Mat._isIdentityDirty mo)
                        (Mat.isIdentity3x2 mo) (Mat._isIdentity3x2Dirty mo) mo
                    else if Mat.isIdentity mo then
                      with_status (seed_succ s) (Mat.isIdentity ms) (Mat._isIdentityDirty ms)
                        (Mat.isIdentity3x2 ms) (Mat._isIdentity3x2Dirty ms) ms
                    else
                      Mat.mk (seed_succ s) false false true true
                        (product16 (Mat._m ms) (Mat._m mo)))])
                (seed_succ (seed_succ s)) d).
Proof.
  intros Hs Ho. unfold Matrix.multiply.
  step_with run_Matrix_create.
  step_with run_multiplyToRef.
  last_step.
  destruct (Mat.isIdentity ms); [reflexivity|].
  destruct (Mat.isIdentity mo); reflexivity.
Qed.

Lemma run_setTranslationFromFloats self x y z (m : Mat.t) h s d :
  h !! self = Some (ObjMatrix m) ->
  Matrix.setTranslationFromFloats self x y z (World h s d)
  = Some (tt,
          World (<[self:=ObjMatrix
                     (marked s (with_entries
                        (let a := Mat._m m in
                         M16 (e0 a) (e1 a) (e2 a) (e3 a) (e4 a) (e5 a) (e6 a) (e7 a)
                             (e8 a) (e9 a) (e10 a) (e11 a) x y z (e15 a)) m))]> h)
                (seed_succ s) d).
Proof.
  destruct m as [? ? ? ? ? [a0 a1 a2 a3 a4 a5 a6 a7 a8 a9 a10 a11 a12 a13 a14 a15]].
  intros Hm. unfold Matrix.setTranslationFromFloats.
  do 3 mstep.
  etransitivity; [eapply run__markAsUpdated; solve_lookup|].
  rewrite insert_insert_same. reflexivity.
Qed.

Lemma run_toggleModelMatrixHandInPlace self (m : Mat.t) h s d :
  h !! self = Some (ObjMatrix m) ->
  Matrix.toggleModelMatrixHandInPlace self (World h s d)
  = Some (tt,
          World (<[self:=ObjMatrix
                     (marked s (with_entries
                        (let a := Mat._m m in
                         M16 (e0 a) (e1 a) (e2 a * - one) (e3 a)
                             (e4 a) (e5 a) (e6 a * - one) (e7 a)
                             (e8 a * - one) (e9 a * - one) (e10 a) (e11 a)
                             (e12 a) (e13 a) (e14 a * - one) (e15 a)) m))]> h)
                (seed_succ s) d).
Proof.
  destruct m as [? ? ? ? ? [a0 a1 a2 a3 a4 a5 a6 a7 a8 a9 a10 a11 a12 a13 a14 a15]].
  intros Hm. unfold Matrix.toggleModelMatrixHandInPlace.
  do 10 mstep.
  etransitivity; [eapply run__markAsUpdated; solve_lookup|].
  rewrite insert_insert_same. reflexivity.
Qed.

Lemma run_toggleProjectionMatrixHandInPlace self (m : Mat.t) h s d :
  h !! self = Some (ObjMatrix m) ->
  Matrix.toggleProjectionMatrixHandInPlace self (World h s d)
  = Some (tt,
          World (<[self:=ObjMatrix
                     (marked s (with_entries
                        (let a := Mat._m m in
                         M16 (e0 a) (e1 a) (e2 a) (e3 a)
                             (e4 a) (e5 a) (e6 a) (e7 a)
                             (e8 a * - one) (e9 a * - one) (e10 a * - one) (e11 a * - one)
                             (e12 a) (e13 a) (e14 a) (e15 a)) m))]> h)
                (seed_succ s) d).
Proof.
  destruct m as [? ? ? ? ? [a0 a1 a2 a3 a4 a5 a6 a7 a8 a9 a10 a11 a12 a13 a14 a15]].
  intros Hm. unfold Matrix.toggleProjectionMatrixHandInPlace.
  do 8 mstep.
  etransitivity; [eapply run__markAsUpdated; solve_lookup|].
  rewrite insert_insert_same. reflexivity.
Qed.

Lemma truthful_multiplied f (ma mb p : Mat.t) :
  truthful ma -> truthful mb ->
  Mat.isIdentity p = false -> Mat._isIdentityDirty p = true ->
  truthful (if Mat.isIdentity ma then
              with_status f (Mat.isIdentity mb) (Mat._isIdentityDirty mb)
                (Mat.isIdentity3x2 mb) (Mat._isIdentity3x2Dirty mb) mb
            else if Mat.isIdentity mb then
              with_status f (Mat.isIdentity ma) (Mat._isIdentityDirty ma)
                (Mat.isIdentity3x2 ma) (Mat._isIdentity3x2Dirty ma) ma
            else p).
Proof.
  intros Ta Tb Hi Hd.
  pose proof (truthful_copy f ma ma (Mat.isIdentity3x2 ma) (Mat._isIdentity3x2Dirty ma)
                Ta eq_refl) as Ca.
  pose proof (truthful_copy f mb mb (Mat.isIdentity3x2 mb) (Mat._isIdentity3x2Dirty mb)
                Tb eq_refl) as Cb.
  destruct (Mat.isIdentity ma); [exact Cb|].
  destruct (Mat.isIdentity mb); [exact Ca|].
  apply truthful_dirty; assumption.
Qed.

(** A matrix whose flag tells the truth is copied, cloned, transposed
    into another matrix, multiplied and tested with a flag that tells
    the truth still; and [setTranslationFromFloats] and the two
    handedness toggles always leave one that does. *)
Theorem Matrix_flags_stay_truthful :
  forall (w : world) (a b r : ref) (ma mb mr : Mat.t) (x y z : number),
    matrix_at w a = Some ma -> matrix_at w b = Some mb -> matrix_at w r = Some mr ->
    truthful ma -> truthful mb ->
    returns (Matrix.copy a r w) (fun _ => truthful_at r) /\
    returns (Matrix.clone a w) truthful_at /\
    (a <> r -> returns (Matrix.transposeToRef a r w) (fun _ => truthful_at r)) /\
    returns (Matrix.transpose a w) truthful_at /\
    returns (Matrix.multiplyToRef a b r w) (fun _ => truthful_at r) /\
    returns (Matrix.multiply a b w) truthful_at /\
    returns (Matrix.isIdentityUpdate a w) (fun _ => truthful_at a) /\
    returns (Matrix.setTranslationFromFloats r x y z w) (fun _ => truthful_at r) /\
    returns (Matrix.toggleModelMatrixHandInPlace r w) (fun _ => truthful_at r) /\
    returns (Matrix.toggleProjectionMatrixHandInPlace r w) (fun _ => truthful_at r).
Proof.
  intros [h s d] a b r ma mb mr x y z Ha Hb Hr Ta Tb.
  apply matrix_at_heap in Ha, Hb, Hr. unfold truthful_at.
  split; [|split; [|split; [|split; [|split; [|split; [|split; [|split; [|split]]]]]]]].
  - rewrite (run_Matrix_copy a r ma mr h s d Ha Hr). at_result.
    apply truthful_copy; [exact Ta|reflexivity].
  - rewrite (run_Matrix_clone a ma h s d Ha). at_result.
    apply truthful_copy; [exact Ta|reflexivity].
  - intros Hne. rewrite (run_transposeToRef_distinct a r ma mr h s d Ha Hr Hne). at_result.
    apply truthful_copy; [exact Ta|]. apply identity_test_transposed. reflexivity.
  - rewrite (run_Matrix_transpose a ma h s d Ha). at_result.
    apply truthful_copy; [exact Ta|]. apply identity_test_transposed. reflexivity.
  - rewrite (run_multiplyToRef a b r ma mb mr h s d Ha Hb Hr). at_result.
    apply truthful_multiplied; [exact Ta|exact Tb|reflexivity..].
  - rewrite (run_Matrix_multiply a b ma mb h s d Ha Hb). at_result.
    apply truthful_multiplied; [exact Ta|exact Tb|reflexivity..].
  - destruct (Mat._isIdentityDirty ma) eqn:Hd.
    + rewrite (run_isIdentityUpdate_dirty a ma h s d Ha Hd). at_result.
      unfold truthful.
      cbn [with_isIdentity with_isIdentityDirty Mat.isIdentity Mat._isIdentityDirty negb andb].
      apply identity_test_of_entries. reflexivity.
    + rewrite (run_isIdentityUpdate_clean a ma h s d Ha Hd). at_result. exact Ta.
  - rewrite (run_setTranslationFromFloats r x y z mr h s d Hr). at_result.
    apply truthful_dirty; reflexivity.
  - rewrite (run_toggleModelMatrixHandInPlace r mr h s d Hr). at_result.
    apply truthful_dirty; reflexivity.
  - rewrite (run_toggleProjectionMatrixHandInPlace r mr h s d Hr). at_result.
    apply truthful_dirty; reflexivity.
Qed.

Lemma Matrix_flags_stay_truthful_witness :
  returns (Matrix.multiply 0%nat 0%nat (World [ObjMatrix almost_identity] 1 [])) truthful_at.
Proof.
  exact (proj1 (proj2 (proj2 (proj2 (proj2 (proj2
           (Matrix_flags_stay_truthful (World [ObjMatrix almost_identity] 1 [])
              0%nat 0%nat 0%nat almost_identity almost_identity almost_identity
              one one one eq_refl eq_refl eq_refl eq_refl eq_refl))))))).
Defined.

Lemma entries_eqb_eq (a b : Matrix4x4) :
  entries_eqb a b
  = (e0 a === e0 b) && (e1 a === e1 b) && (e2 a === e2 b) && (e3 a === e3 b) &&
    (e4 a === e4 b) && (e5 a === e5 b) && (e6 a === e6 b) && (e7 a === e7 b) &&
    (e8 a === e8 b) && (e9 a === e9 b) && (e10 a === e10 b) && (e11 a === e11 b) &&
    (e12 a === e12 b) && (e13 a === e13 b) && (e14 a === e14 b) && (e15 a === e15 b).
Proof.
  unfold entries_eqb, entries. cbn [combine forallb fst snd].
  rewrite andb_true_r, !andb_assoc. reflexivity.
Qed.

Lemma run_Matrix_equals self value (ms mo : Mat.t) h s d :
  h !! self = Some (ObjMatrix ms) ->
  h !! value = Some (ObjMatrix mo) ->
  Matrix.equals self value (World h s d)
  = Some (if (Mat.isIdentity ms || Mat.isIdentity mo) &&
             (negb (Mat._isIdentityDirty ms) && negb (Mat._isIdentityDirty mo))
          then Mat.isIdentity ms && Mat.isIdentity mo
          else entries_eqb (Mat._m ms) (Mat._m mo),
          World h s d).
Proof.
  intros Hs Ho. unfold Matrix.equals. cbv zeta.
  do 2 step.
  destruct ((Mat.isIdentity ms || Mat.isIdentity mo) &&
            (negb (Mat._isIdentityDirty ms) && negb (Mat._isIdentityDirty mo))).
  - last_step. reflexivity.
  - last_step. rewrite entries_eqb_eq.
    destruct ms as [? ? ? ? ? []], mo as [? ? ? ? ? []]. reflexivity.
Qed.

(** [===] against a number that is [===] to [c] is [===] against [c]. *)
Lemma feqb_congr_l a b c : (a === c) = true -> (a === b) = (b === c).
Proof.
  intros H. apply feqb_same_value in H. rewrite (feqb_sym b c).
  unfold feqb, SFeqb. rewrite (SFcompare_same_value_l a c b H). reflexivity.
Qed.

Lemma entries_eqb_sym (a b : Matrix4x4) : entries_eqb a b = entries_eqb b a.
Proof.
  rewrite !entries_eqb_eq.
  rewrite (feqb_sym (e0 a)), (feqb_sym (e1 a)), (feqb_sym (e2 a)), (feqb_sym (e3 a)),
    (feqb_sym (e4 a)), (feqb_sym (e5 a)), (feqb_sym (e6 a)), (feqb_sym (e7 a)),
    (feqb_sym (e8 a)), (feqb_sym (e9 a)), (feqb_sym (e10 a)), (feqb_sym (e11 a)),
    (feqb_sym (e12 a)), (feqb_sym (e13 a)), (feqb_sym (e14 a)), (feqb_sym (e15 a)).
  reflexivity.
Qed.

(** Against entries that are [===] to the identity's, the comparison of
    entries is the identity test. *)
Lemma entries_eqb_identity_l (a b : Matrix4x4) :
  entries_eqb a identity16 = true -> entries_eqb a b = entries_eqb b identity16.
Proof.
  rewrite !entries_eqb_eq.
  cbn [identity16 e0 e1 e2 e3 e4 e5 e6 e7 e8 e9 e10 e11 e12 e13 e14 e15].
  rewrite !andb_true_iff.
  intros [[[[[[[[[[[[[[[H0 H1] H2] H3] H4] H5] H6] H7] H8] H9] H10] H11] H12] H13] H14] H15].
  rewrite (feqb_congr_l _ (e0 b) _ H0), (feqb_congr_l _ (e1 b) _ H1),
    (feqb_congr_l _ (e2 b) _ H2), (feqb_congr_l _ (e3 b) _ H3),
    (feqb_congr_l _ (e4 b) _ H4), (feqb_congr_l _ (e5 b) _ H5),
    (feqb_congr_l _ (e6 b) _ H6), (feqb_congr_l _ (e7 b) _ H7),
    (feqb_congr_l _ (e8 b) _ H8), (feqb_congr_l _ (e9 b) _ H9),
    (feqb_congr_l _ (e10 b) _ H10), (feqb_congr_l _ (e11 b) _ H11),
    (feqb_congr_l _ (e12 b) _ H12), (feqb_congr_l _ (e13 b) _ H13),
    (feqb_congr_l _ (e14 b) _ H14), (feqb_congr_l _ (e15 b) _ H15).
  reflexivity.
Qed.

(** On matrices whose flags tell the truth the two tests decide on
    the entries alone: [isIdentityUpdate] returns whether the sixteen
    entries are [===] to those of the identity, [equals] whether those
    of the two matrices are [===] to each other, whatever the flags;
    [isIdentityUpdate] changes no entry and [equals] nothing at all. *)
Theorem Matrix_tests_decide_on_entries :
  forall (w : world) (a b : ref) (ma mb : Mat.t),
    matrix_at w a = Some ma -> matrix_at w b = Some mb ->
    truthful ma -> truthful mb ->
    returns (Matrix.isIdentityUpdate a w) (fun r w' =>
      r = entries_eqb (Mat._m ma) identity16 /\
      exists m', matrix_at w' a = Some m' /\ Mat._m m' = Mat._m ma /\
                 Mat._isIdentityDirty m' = false) /\
    returns (Matrix.equals a b w) (fun r w' =>
      r = entries_eqb (Mat._m ma) (Mat._m mb) /\ w' = w).
Proof.
  intros [h s d] a b ma mb Ha Hb Ta Tb. apply matrix_at_heap in Ha, Hb.
  unfold truthful, identity_test_of in Ta, Tb.
  split.
  - destruct (Mat._isIdentityDirty ma) eqn:Hd.
    + rewrite (run_isIdentityUpdate_dirty a ma h s d Ha Hd). cbn [returns].
      split; [reflexivity|].
      eexists. split; [apply matrix_at_heap; solve_lookup|].
      split; reflexivity.
    + rewrite (run_isIdentityUpdate_clean a ma h s d Ha Hd). cbn [returns].
      split; [exact Ta|].
      exists ma. split; [apply matrix_at_heap; exact Ha|].
      split; [reflexivity|exact Hd].
  - rewrite (run_Matrix_equals a b ma mb h s d Ha Hb). cbn [returns].
    split; [|reflexivity].
    destruct (Mat._isIdentityDirty ma), (Mat._isIdentityDirty mb);
      cbn [negb andb] in Ta, Tb |- *; rewrite ?Ta, ?Tb, ?andb_false_r; cbn [orb andb];
      try reflexivity.
    destruct (entries_eqb (Mat._m ma) identity16) eqn:Ea.
    + cbn [orb andb]. symmetry. apply entries_eqb_identity_l. exact Ea.
    + destruct (entries_eqb (Mat._m mb) identity16) eqn:Eb; [|reflexivity].
      cbn [orb andb]. rewrite entries_eqb_sym.
      rewrite (entries_eqb_identity_l _ _ Eb). symmetry. exact Ea.
Qed.

Lemma Matrix_tests_decide_on_entries_witness :
  returns (Matrix.equals 0%nat 0%nat (World [ObjMatrix almost_identity] 1 []))
    (fun r w' =>
       r = entries_eqb (Mat._m almost_identity) (Mat._m almost_identity) /\
       w' = World [ObjMatrix almost_identity] 1 []).
Proof.
  exact (proj2 (Matrix_tests_decide_on_entries (World [ObjMatrix almost_identity] 1 [])
                  0%nat 0%nat almost_identity almost_identity
                  eq_refl eq_refl eq_refl eq_refl)).
Defined.

Lemma run_isIdentityAs3x2Update_dirty self (m : Mat.t) h s d :
  h !! self = Some (ObjMatrix m) ->
  Mat._isIdentity3x2Dirty m = true ->
  Matrix.isIdentityAs3x2Update self (World h s d)
  = Some (identity3x2_test_of m,
          World (<[self:=ObjMatrix
                     (with_isIdentity3x2 (identity3x2_test_of m)
                        (with_isIdentity3x2Dirty false m))]> h) s d).
Proof.
  destruct m as [f i i32 id i32d [a0 a1 a2 a3 a4 a5 a6 a7 a8 a9 a10 a11 a12 a13 a14 a15]].
  cbn [Mat._isIdentity3x2Dirty]. intros Hm ->.
  unfold Matrix.isIdentityAs3x2Update, identity3x2_test_of.
  mstep. mstep. mstep. cbn [forallb]. cbv beta.
  cbn [with_isIdentity3x2Dirty with_isIdentity3x2 Mat._m
       e0 e1 e2 e3 e4 e5 e6 e7 e8 e9 e10 e11 e12 e13 e14 e15].
  destruct (a0 === one); cbn [negb orb andb];
    [|mstep; mstep; last_step; reflexivity].
  destruct (a5 === one); cbn [negb orb andb];
    [|mstep; mstep; last_step; reflexivity].
  destruct (a15 === one); cbn [negb orb andb];
    [|mstep; mstep; last_step; reflexivity].
  repeat lazymatch goal with
         | |- context [negb (?x === zero)] =>
             destruct (x === zero); cbn [negb orb andb];
             [|rewrite ?orb_true_r; mstep; mstep; last_step; reflexivity]
         end.
  mstep. mstep. last_step. reflexivity.
Qed.

Lemma run_isIdentityAs3x2Update_clean self (m : Mat.t) h s d :
  h !! self = Some (ObjMatrix m) ->
  Mat._isIdentity3x2Dirty m = false ->
  Matrix.isIdentityAs3x2Update self (World h s d)
  = Some (Mat.isIdentity3x2 m, World h s d).
Proof.
  intros Hm Hd. unfold Matrix.isIdentityAs3x2Update.
  step. rewrite Hd. cbv iota. step. step. last_step. reflexivity.
Qed.

(** When [isIdentityAs3x2Update] tests the entries of a matrix, it
    asks entry 10 to be 0 with the twelve others off the places 0, 5
    and 15, so that no matrix it finds to be the identity as 3x2 has
    the entries of the identity; and the matrix that [Identity]
    returns, whose flag is set without a test, is reported as the
    identity as 3x2 although it would not pass the test. *)
Theorem Matrix_isIdentityAs3x2Update_excludes_identity :
  forall (w : world) (r : ref) (m : Mat.t),
    matrix_at w r = Some m ->
    Mat._isIdentity3x2Dirty m = true ->
    returns (Matrix.isIdentityAs3x2Update r w) (fun b w' =>
      b = identity3x2_test_of m /\
      (b = true -> entries_eqb (Mat._m m) identity16 = false) /\
      exists m', matrix_at w' r = Some m' /\ Mat._m m' = Mat._m m /\
                 Mat.isIdentity3x2 m' = b /\ Mat._isIdentity3x2Dirty m' = false) /\
    returns (bind Matrix.Identity Matrix.isIdentityAs3x2Update w) (fun b w' =>
      b = true /\
      exists m', matrix_at w' (length (heap w)) = Some m' /\
                 Mat._m m' = identity16 /\ identity3x2_test_of m' = false).
Proof.
  intros [h s d] r m Hm Hd. apply matrix_at_heap in Hm.
  split.
  - rewrite (run_isIdentityAs3x2Update_dirty r m h s d Hm Hd). cbn [returns].
    split; [reflexivity|]. split.
    + unfold identity3x2_test_of. cbv zeta. cbn [forallb].
      rewrite entries_eqb_eq, !andb_true_iff.
      cbn [identity16 e0 e1 e2 e3 e4 e5 e6 e7 e8 e9 e10 e11 e12 e13 e14 e15].
      intros H.
      assert (E : (e10 (Mat._m m) === zero) = true) by tauto.
      apply feqb_same_value in E.
      assert (E' : (e10 (Mat._m m) === one) = false).
      { unfold feqb, SFeqb. rewrite (SFcompare_same_value_l _ _ one E). reflexivity. }
      rewrite E'. rewrite !andb_false_r. reflexivity.
    + eexists. split; [apply matrix_at_heap; solve_lookup|].
      destruct m as [? ? ? ? ? []]. repeat split; reflexivity.
  - rstep_with run_Matrix_Identity.
    erewrite run_isIdentityAs3x2Update_clean by (solve_lookup || reflexivity).
    cbn [returns]. split; [reflexivity|].
    eexists. split; [apply matrix_at_heap; cbn [heap]; solve_lookup|].
    split; reflexivity.
Qed.

Lemma Matrix_isIdentityAs3x2Update_excludes_identity_witness :
  returns (Matrix.isIdentityAs3x2Update 0%nat (World [ObjMatrix almost_identity] 1 []))
    (fun b w' =>
       b = identity3x2_test_of almost_identity /\
       (b = true -> entries_eqb (Mat._m almost_identity) identity16 = false) /\
       exists m', matrix_at w' 0%nat = Some m' /\ Mat._m m' = Mat._m almost_identity /\
                  Mat.isIdentity3x2 m' = b /\ Mat._isIdentity3x2Dirty m' = false).
Proof.
  exact (proj1 (Matrix_isIdentityAs3x2Update_excludes_identity
                  (World [ObjMatrix almost_identity] 1 []) 0%nat almost_identity
                  eq_refl eq_refl)).
Defined.

End MatrixFlags.

Section MatrixAlgebra.
Local Open Scope js_scope.
Implicit Types (h : list object) (s : Z) (d : list number).

Lemma entries_eqb_intro (a b : Matrix4x4) :
  Forall2 same_value (entries a) (entries b) ->
  forallb is_finite (entries b) = true ->
  entries_eqb a b = true.
Proof.
  unfold entries_eqb. generalize (entries a) (entries b).
  induction 1 as [|x y l l' Hxy Hl IH]; [reflexivity|].
  cbn [forallb combine fst snd]. intros Hf. apply andb_prop in Hf as [Hy Hf].
  rewrite (same_value_feqb _ _ Hxy Hy), (IH Hf). reflexivity.
Qed.

Lemma forallb_finite64_finite (l : list number) :
  forallb finite64 l = true -> forallb is_finite l = true.
Proof.
  induction l as [|x l IH]; [reflexivity|].
  cbn [forallb]. intros H. apply andb_prop in H as [Hx Hl].
  rewrite (finite64_finite _ Hx), (IH Hl). reflexivity.
Qed.

(** The sixteen entries, one hypothesis each. *)
Ltac entries_inv H :=
  cbn [entries forallb e0 e1 e2 e3 e4 e5 e6 e7 e8 e9 e10 e11 e12 e13 e14 e15 Mat._m] in H;
  rewrite !andb_true_iff in H;
  destruct H as (?F & ?F & ?F & ?F & ?F & ?F & ?F & ?F &
                 ?F & ?F & ?F & ?F & ?F & ?F & ?F & ?F & _).

Ltac forall2_16 :=
  unfold entries, product16, map2_16, identity16;
  cbn [e0 e1 e2 e3 e4 e5 e6 e7 e8 e9 e10 e11 e12 e13 e14 e15 Mat._m];
  repeat lazymatch goal with
         | |- Forall2 _ [] [] => apply Forall2_nil_2
         | |- Forall2 _ (_ :: _) (_ :: _) => apply Forall2_cons_2
         end.

Lemma product16_identity_r (a : Matrix4x4) :
  forallb finite64 (entries a) = true ->
  entries_eqb (product16 a identity16) a = true.
Proof.
  intros Hf. pose proof (forallb_finite64_finite _ Hf) as Hf'.
  apply entries_eqb_intro; [|exact Hf'].
  destruct a as [a0 a1 a2 a3 a4 a5 a6 a7 a8 a9 a10 a11 a12 a13 a14 a15].
  entries_inv Hf.
  forall2_16; solve_same.
Qed.

Lemma product16_identity_l (a : Matrix4x4) :
  forallb finite64 (entries a) = true ->
  entries_eqb (product16 identity16 a) a = true.
Proof.
  intros Hf. pose proof (forallb_finite64_finite _ Hf) as Hf'.
  apply entries_eqb_intro; [|exact Hf'].
  destruct a as [a0 a1 a2 a3 a4 a5 a6 a7 a8 a9 a10 a11 a12 a13 a14 a15].
  entries_inv Hf.
  forall2_16; solve_same.
Qed.

(** [Matrix.multiplyToRef] into any matrix, one of the operands
    included. An operand flagged as the identity is skipped: the result
    holds the entries of the other operand, whatever the entries of the
    flagged one. With no flag set the result holds the sixteen sums of
    products of the entries the operands had at the call, and against
    an unflagged matrix with the entries of the identity on either side
    they are [===] to those of the other operand when these are
    finite. *)
Theorem Matrix_multiply_by_identity :
  forall (w : world) (a b r : ref) (ma mb mr : Mat.t),
    matrix_at w a = Some ma -> matrix_at w b = Some mb -> matrix_at w r = Some mr ->
    returns (Matrix.multiplyToRef a b r w) (fun _ w' =>
      exists m', matrix_at w' r = Some m' /\
        (Mat.isIdentity ma = true -> Mat._m m' = Mat._m mb) /\
        (Mat.isIdentity ma = false -> Mat.isIdentity mb = true -> Mat._m m' = Mat._m ma) /\
        (Mat.isIdentity ma = false -> Mat.isIdentity mb = false ->
         Mat._m m' = product16 (Mat._m ma) (Mat._m mb) /\
         (Mat._m mb = identity16 -> forallb finite64 (entries (Mat._m ma)) = true ->
          entries_eqb (Mat._m m') (Mat._m ma) = true) /\
         (Mat._m ma = identity16 -> forallb finite64 (entries (Mat._m mb)) = true ->
          entries_eqb (Mat._m m') (Mat._m mb) = true))).
Proof.
  intros [h s d] a b r ma mb mr Ha Hb Hr. apply matrix_at_heap in Ha, Hb, Hr.
  rewrite (run_multiplyToRef a b r ma mb mr h s d Ha Hb Hr). cbn [returns].
  eexists. split; [apply matrix_at_heap; solve_lookup|].
  split; [|split].
  - intros ->. reflexivity.
  - intros -> ->. reflexivity.
  - intros -> ->. cbn [marked with_entries Mat._m].
    split; [reflexivity|]. split.
    + intros -> Hf. apply product16_identity_r. exact Hf.
    + intros -> Hf. apply product16_identity_l. exact Hf.
Qed.

Lemma Matrix_multiply_by_identity_witness :
  returns (Matrix.multiplyToRef 0%nat 1%nat 0%nat
             (World [ObjMatrix almost_identity;
                     ObjMatrix (Mat.mk 0 false false true true identity16)] 1 []))
    (fun _ w' =>
       exists m', matrix_at w' 0%nat = Some m' /\
                  entries_eqb (Mat._m m') (Mat._m almost_identity) = true).
Proof.
  refine (returns_impl _ _ _ _
            (Matrix_multiply_by_identity
               (World [ObjMatrix almost_identity;
                       ObjMatrix (Mat.mk 0 false false true true identity16)] 1 [])
               0%nat 1%nat 0%nat almost_identity
               (Mat.mk 0 false false true true identity16) almost_identity
               eq_refl eq_refl eq_refl)).
  intros _ w' (m' & Hm & _ & _ & H).
  exists m'. split; [exact Hm|].
  exact (proj1 (proj2 (H eq_refl eq_refl)) eq_refl eq_refl).
Defined.

Lemma run_Matrix_lerp startValue endValue gradient (ms me : Mat.t) h s d :
  h !! startValue = Some (ObjMatrix ms) ->
  h !! endValue = Some (ObjMatrix me) ->
  Matrix.lerp startValue endValue gradient (World h s d)
  = Some (length h,
          World (h ++ [ObjMatrix
                   (Mat.mk (seed_succ s) false false true true
                      (map2_16 (fun a b => a * (one - gradient) + b * gradient)
                         (Mat._m ms) (Mat._m me)))])
                (seed_succ (seed_succ s)) d).
Proof.
  destruct ms as [? ? ? ? ? [a0 a1 a2 a3 a4 a5 a6 a7 a8 a9 a10 a11 a12 a13 a14 a15]].
  destruct me as [? ? ? ? ? [b0 b1 b2 b3 b4 b5 b6 b7 b8 b9 b10 b11 b12 b13 b14 b15]].
  intros Hs He. unfold Matrix.lerp, Matrix.lerpToRef.
  step_with run_Matrix_create.
  cbn [Matrix.lerpToRef_from].
  do 48 mstep. step.
  step_with run__markAsUpdated.
  last_step. reflexivity.
Qed.

(** [Matrix.lerp] returns a matrix whose entries are [===] to those of
    [startValue] at gradient 0 and to those of [endValue] at gradient
    1, when the entries of both are finite. *)
Theorem Matrix_lerp_endpoints :
  forall (w : world) (startValue endValue : ref) (ms me : Mat.t),
    matrix_at w startValue = Some ms -> matrix_at w endValue = Some me ->
    forallb finite64 (entries (Mat._m ms)) = true ->
    forallb finite64 (entries (Mat._m me)) = true ->
    returns (Matrix.lerp startValue endValue zero w) (fun r w' =>
      exists m', matrix_at w' r = Some m' /\ entries_eqb (Mat._m m') (Mat._m ms) = true) /\
    returns (Matrix.lerp startValue endValue one w) (fun r w' =>
      exists m', matrix_at w' r = Some m' /\ entries_eqb (Mat._m m') (Mat._m me) = true).
Proof.
  intros [h s d] a b ms me Ha Hb Fs Fe. apply matrix_at_heap in Ha, Hb.
  pose proof (forallb_finite64_finite _ Fs) as Fs'.
  pose proof (forallb_finite64_finite _ Fe) as Fe'.
  destruct ms as [? ? ? ? ? [a0 a1 a2 a3 a4 a5 a6 a7 a8 a9 a10 a11 a12 a13 a14 a15]].
  destruct me as [? ? ? ? ? [b0 b1 b2 b3 b4 b5 b6 b7 b8 b9 b10 b11 b12 b13 b14 b15]].
  entries_inv Fs. entries_inv Fe.
  split.
  - rewrite (run_Matrix_lerp a b zero _ _ h s d Ha Hb). cbn [returns].
    eexists. split; [apply matrix_at_heap; solve_lookup|].
    apply entries_eqb_intro; [|exact Fs'].
    forall2_16; eval_numbers; solve_same.
  - rewrite (run_Matrix_lerp a b one _ _ h s d Ha Hb). cbn [returns].
    eexists. split; [apply matrix_at_heap; solve_lookup|].
    apply entries_eqb_intro; [|exact Fe'].
    forall2_16; eval_numbers; solve_same.
Qed.

Lemma Matrix_lerp_endpoints_witness :
  returns (Matrix.lerp 0%nat 1%nat zero
             (World [ObjMatrix almost_identity;
                     ObjMatrix (Mat.mk 0 false false true true identity16)] 1 []))
    (fun r w' =>
       exists m', matrix_at w' r = Some m' /\
                  entries_eqb (Mat._m m') (Mat._m almost_identity) = true).
Proof.
  exact (proj1 (Matrix_lerp_endpoints
                  (World [ObjMatrix almost_identity;
                          ObjMatrix (Mat.mk 0 false false true true identity16)] 1 [])
                  0%nat 1%nat almost_identity (Mat.mk 0 false false true true identity16)
                  eq_refl eq_refl eq_refl eq_refl)).
Defined.

Lemma is_binary64_fneg x : is_binary64 (- x) = is_binary64 x.
Proof. destruct x; reflexivity. Qed.

Lemma toggle_twice x : is_binary64 x = true -> x * - one * - one = x.
Proof.
  intros H. rewrite (fmul_neg_one_r x H), fmul_neg_one_r, fneg_involutive;
    [reflexivity|].
  rewrite is_binary64_fneg. exact H.
Qed.

(** Each of the two handedness toggles, applied twice, restores every
    entry of the matrix. *)
Theorem Matrix_toggle_hand_twice :
  forall (w : world) (r : ref) (m : Mat.t),
    matrix_at w r = Some m ->
    forallb is_binary64 (entries (Mat._m m)) = true ->
    returns (bind (Matrix.toggleModelMatrixHandInPlace r)
               (fun _ => Matrix.toggleModelMatrixHandInPlace r) w)
      (fun _ w' => exists m', matrix_at w' r = Some m' /\ Mat._m m' = Mat._m m) /\
    returns (bind (Matrix.toggleProjectionMatrixHandInPlace r)
               (fun _ => Matrix.toggleProjectionMatrixHandInPlace r) w)
      (fun _ w' => exists m', matrix_at w' r = Some m' /\ Mat._m m' = Mat._m m).
Proof.
  intros [h s d] r m Hm Hb. apply matrix_at_heap in Hm.
  destruct m as [? ? ? ? ? [a0 a1 a2 a3 a4 a5 a6 a7 a8 a9 a10 a11 a12 a13 a14 a15]].
  entries_inv Hb.
  split.
  - rstep_with run_toggleModelMatrixHandInPlace.
    erewrite run_toggleModelMatrixHandInPlace by solve_lookup.
    rewrite insert_insert_same. cbn [returns].
    eexists. split; [apply matrix_at_heap; solve_lookup|].
    cbn [marked with_entries Mat._m e0 e1 e2 e3 e4 e5 e6 e7 e8 e9 e10 e11 e12 e13 e14 e15].
    rewrite !toggle_twice by assumption. reflexivity.
  - rstep_with run_toggleProjectionMatrixHandInPlace.
    erewrite run_toggleProjectionMatrixHandInPlace by solve_lookup.
    rewrite insert_insert_same. cbn [returns].
    eexists. split; [apply matrix_at_heap; solve_lookup|].
    cbn [marked with_entries Mat._m e0 e1 e2 e3 e4 e5 e6 e7 e8 e9 e10 e11 e12 e13 e14 e15].
    rewrite !toggle_twice by assumption. reflexivity.
Qed.

Lemma Matrix_toggle_hand_twice_witness :
  returns (bind (Matrix.toggleModelMatrixHandInPlace 0%nat)
             (fun _ => Matrix.toggleModelMatrixHandInPlace 0%nat)
             (World [ObjMatrix almost_identity] 1 []))
    (fun _ w' => exists m', matrix_at w' 0%nat = Some m' /\
                            Mat._m m' = Mat._m almost_identity).
Proof.
  exact (proj1 (Matrix_toggle_hand_twice (World [ObjMatrix almost_identity] 1 [])
                  0%nat almost_identity eq_refl eq_refl)).
Defined.

Lemma run_Matrix_getTranslation self (m : Mat.t) h s d :
  h !! self = Some (ObjMatrix m) ->
  Matrix.getTranslation self (World h s d)
  = Some (length h,
          World (h ++ [ObjVector3 (Vec3.mk (e12 (Mat._m m)) (e13 (Mat._m m))
                                           (e14 (Mat._m m)))]) s d).
Proof.
  intros Hm. unfold Matrix.getTranslation. step. last_step. reflexivity.
Qed.

Lemma run_Matrix_setTranslation self vector3 (m : Mat.t) (v : Vec3.t) h s d :
  h !! self = Some (ObjMatrix m) ->
  h !! vector3 = Some (ObjVector3 v) ->
  Matrix.setTranslation self vector3 (World h s d)
  = Some (tt,
          World (<[self:=ObjMatrix
                     (marked s (with_entries
                        (let a := Mat._m m in
                         M16 (e0 a) (e1 a) (e2 a) (e3 a) (e4 a) (e5 a) (e6 a) (e7 a)
                             (e8 a) (e9 a) (e10 a) (e11 a)
                             (Vec3.x v) (Vec3.y v) (Vec3.z v) (e15 a)) m))]> h)
                (seed_succ s) d).
Proof.
  intros Hm Hv. unfold Matrix.setTranslation. step.
  apply run_setTranslationFromFloats. exact Hm.
Qed.

(** The vector that [getTranslation] returns after [setTranslation]
    is a new one with the components of the vector that was set, and
    no other entry of the matrix has changed; the translation of the
    matrix that [Matrix.translation] builds from three numbers is
    these three numbers. *)
Theorem Matrix_translation_round_trip :
  forall (w : world) (self vector3 : ref) (m : Mat.t) (v : Vec3.t) (x y z : number),
    matrix_at w self = Some m -> vector3_at w vector3 = Some v ->
    returns (bind (Matrix.setTranslation self vector3)
               (fun _ => Matrix.getTranslation self) w)
      (fun r w' =>
         vector3_at w' r = Some v /\ vector3_at w r = None /\
         exists m', matrix_at w' self = Some m' /\
                    Mat._m m' = set16 (set16 (set16 (Mat._m m) 12 (Vec3.x v))
                                         13 (Vec3.y v)) 14 (Vec3.z v)) /\
    returns (bind (Matrix.translation x y z) Matrix.getTranslation w)
      (fun r w' => vector3_at w' r = Some (Vec3.mk x y z)).
Proof.
  intros [h s d] self vector3 m v x y z Hm Hv.
  apply matrix_at_heap in Hm. apply vector3_at_heap in Hv.
  split.
  - rstep_with run_Matrix_setTranslation.
    erewrite run_Matrix_getTranslation by solve_lookup.
    cbn [returns].
    split; [|split].
    + apply vector3_at_heap. destruct v. apply lookup_snoc_new.
    + unfold vector3_at. cbn [heap]. rewrite length_insert.
      rewrite lookup_ge_None_2; [reflexivity|lia].
    + eexists. split; [apply matrix_at_heap; solve_lookup|].
      destruct m as [? ? ? ? ? []]. reflexivity.
  - rstep_with run_Matrix_translation.
    erewrite run_Matrix_getTranslation by solve_lookup.
    cbn [returns]. apply vector3_at_heap. solve_lookup.
Qed.

Lemma Matrix_translation_round_trip_witness :
  returns (bind (Matrix.setTranslation 1%nat 0%nat)
             (fun _ => Matrix.getTranslation 1%nat) identity_operands_world)
    (fun r w' =>
       vector3_at w' r = Some (Vec3.mk two (- one) half) /\
       vector3_at identity_operands_world r = None /\
       exists m', matrix_at w' 1%nat = Some m' /\
                  Mat._m m' = set16 (set16 (set16 identity16 12 two) 13 (- one)) 14 half).
Proof.
  exact (proj1 (Matrix_translation_round_trip identity_operands_world 1%nat 0%nat
                  (Mat.mk 0 false false true true identity16)
                  (Vec3.mk two (- one) half) zero zero zero eq_refl eq_refl)).
Defined.
End MatrixAlgebra.

(* ================================================================= *)
(** ** Products: Quaternion.multiply and the stores of the ToRef forms *)

Section Products.
Local Open Scope js_scope.
Implicit Types (h : list object) (s : Z) (d : list number).

Lemma run_Quaternion_multiply self q1 (sq qq : Quat.t) h s d :
  h !! self = Some (ObjQuaternion sq) ->
  h !! q1 = Some (ObjQuaternion qq) ->
  Quaternion.multiply self q1 (World h s d)
  = Some (length h,
          World (h ++ [ObjQuaternion (quaternion_product sq qq)]) s d).
Proof.
  intros Hs Hq. unfold Quaternion.multiply, Quaternion.multiplyToRef.
  steps. reflexivity.
Qed.

Lemma run_Quaternion_multiplyToRef_in_place self q1 (sq qq : Quat.t) h s d :
  h !! self = Some (ObjQuaternion sq) ->
  h !! q1 = Some (ObjQuaternion qq) ->
  self <> q1 ->
  Quaternion.multiplyToRef self q1 self (World h s d)
  = Some (tt,
          World (<[self:=ObjQuaternion (quaternion_product_in_place sq qq)]> h) s d).
Proof.
  intros Hs Hq Hne. unfold Quaternion.multiplyToRef.
  steps. destruct sq, qq.
  unfold quaternion_product_in_place, quaternion_product. cbv zeta.
  cbn [qwith_x qwith_y qwith_z qwith_w Quat.x Quat.y Quat.z Quat.w].
  reflexivity.
Qed.

Lemma run_Vector3_crossToRef_in_place left right (l r : Vec3.t) h s d :
  h !! left = Some (ObjVector3 l) ->
  h !! right = Some (ObjVector3 r) ->
  left <> right ->
  Vector3.crossToRef left right left (World h s d)
  = Some (tt, World (<[left:=ObjVector3 (cross_product_in_place l r)]> h) s d).
Proof.
  intros Hl Hr Hne. unfold Vector3.crossToRef.
  steps. destruct l, r.
  unfold cross_product_in_place, cross_product. cbv zeta.
  cbn [with_x with_y with_z Vec3.x Vec3.y Vec3.z].
  reflexivity.
Qed.

Lemma quat_all_inv (P : number -> bool) (q : Quat.t) :
  quat_all P q = true ->
  P (Quat.x q) = true /\ P (Quat.y q) = true /\ P (Quat.z q) = true /\
  P (Quat.w q) = true.
Proof.
  unfold quat_all. intros H.
  apply andb_prop in H as [H Hw]. apply andb_prop in H as [H Hz].
  apply andb_prop in H as [Hx Hy]. auto.
Qed.

Lemma quat_eqb_intro (c q : Quat.t) :
  same_value (Quat.x c) (Quat.x q) -> same_value (Quat.y c) (Quat.y q) ->
  same_value (Quat.z c) (Quat.z q) -> same_value (Quat.w c) (Quat.w q) ->
  quat_all finite64 q = true ->
  quat_eqb c q = true.
Proof.
  intros Hx Hy Hz Hw Hf. apply quat_all_inv in Hf as (Fx & Fy & Fz & Fw).
  unfold quat_eqb.
  rewrite (same_value_feqb _ _ Hx (finite64_finite _ Fx)),
          (same_value_feqb _ _ Hy (finite64_finite _ Fy)),
          (same_value_feqb _ _ Hz (finite64_finite _ Fz)),
          (same_value_feqb _ _ Hw (finite64_finite _ Fw)).
  reflexivity.
Qed.

(** [Quaternion.multiply] by the quaternion (0, 0, 0, 1), on either
    side, returns a new quaternion [===] to the other operand, when the
    components of that operand are finite; the operands are not
    written. *)
Theorem Quaternion_multiply_by_identity :
  forall (w : world) (self i : ref) (q : Quat.t),
    quaternion_at w self = Some q ->
    quaternion_at w i = Some (Quat.mk zero zero zero one) ->
    quat_all finite64 q = true ->
    returns (Quaternion.multiply self i w) (fun r w' =>
      exists c, quaternion_at w' r = Some c /\ quat_eqb c q = true /\
                quaternion_at w r = None /\ quaternion_at w' self = Some q) /\
    returns (Quaternion.multiply i self w) (fun r w' =>
      exists c, quaternion_at w' r = Some c /\ quat_eqb c q = true /\
                quaternion_at w r = None /\ quaternion_at w' self = Some q).
Proof.
  intros [h s d] self i q Hq Hi Hfin.
  apply quaternion_at_heap in Hq, Hi.
  pose proof (quat_all_inv _ _ Hfin) as (Fx & Fy & Fz & Fw).
  assert (Hnew : quaternion_at (World h s d) (length h) = None).
  { unfold quaternion_at. cbn [heap]. rewrite lookup_ge_None_2; [reflexivity|lia]. }
  split.
  - rewrite (run_Quaternion_multiply self i q _ h s d Hq Hi). cbn [returns].
    eexists. split; [apply quaternion_at_heap; solve_lookup|].
    split; [|split; [exact Hnew|apply quaternion_at_heap; solve_lookup]].
    apply quat_eqb_intro; [| | | |exact Hfin];
      cbn [quaternion_product Quat.x Quat.y Quat.z Quat.w]; solve_same.
  - rewrite (run_Quaternion_multiply i self _ q h s d Hi Hq). cbn [returns].
    eexists. split; [apply quaternion_at_heap; solve_lookup|].
    split; [|split; [exact Hnew|apply quaternion_at_heap; solve_lookup]].
    apply quat_eqb_intro; [| | | |exact Hfin];
      cbn [quaternion_product Quat.x Quat.y Quat.z Quat.w]; eval_numbers; solve_same.
Qed.

Lemma Quaternion_multiply_by_identity_witness :
  returns (Quaternion.multiply 1%nat 2%nat
             (World [ObjVector3 (Vec3.mk one one one);
                     ObjQuaternion (Quat.mk one zero two half);
                     ObjQuaternion (Quat.mk zero zero zero one)] 0 []))
    (fun r w' =>
       exists c, quaternion_at w' r = Some c /\
                 quat_eqb c (Quat.mk one zero two half) = true /\
                 quaternion_at (World [ObjVector3 (Vec3.mk one one one);
                                       ObjQuaternion (Quat.mk one zero two half);
                                       ObjQuaternion (Quat.mk zero zero zero one)] 0 []) r
                 = None /\
                 quaternion_at w' 1%nat = Some (Quat.mk one zero two half)).
Proof.
  exact (proj1 (Quaternion_multiply_by_identity
                  (World [ObjVector3 (Vec3.mk one one one);
                          ObjQuaternion (Quat.mk one zero two half);
                          ObjQuaternion (Quat.mk zero zero zero one)] 0 [])
                  1%nat 2%nat (Quat.mk one zero two half) eq_refl eq_refl eq_refl)).
Defined.

(** [Quaternion.multiplyToRef] and [Vector3.crossToRef] store the
    components of their result one after the other and read the
    operands again for each: with the first operand as [result], every
    component after the first is computed from components already
    overwritten. The product of the quaternions i and k, which
    [multiply] returns as (0, -1, 0, 0), is stored in place as
    (0, 0, 0, 0), and the cross product of (1, 0, 0) and (0, 0, 1),
    which [cross] returns as (0, -1, 0), as (0, 0, 0). *)
Theorem products_in_place_read_their_own_stores :
  forall (w : world) (a b : ref),
    a <> b ->
    (forall (sq qq : Quat.t),
       quaternion_at w a = Some sq -> quaternion_at w b = Some qq ->
       returns (Quaternion.multiply a b w) (fun r w' =>
         quaternion_at w' r = Some (quaternion_product sq qq)) /\
       returns (Quaternion.multiplyToRef a b a w) (fun _ w' =>
         quaternion_at w' a = Some (quaternion_product_in_place sq qq))) /\
    (forall (l r : Vec3.t),
       vector3_at w a = Some l -> vector3_at w b = Some r ->
       returns (Vector3.cross a b w) (fun c w' =>
         vector3_at w' c = Some (cross_product l r)) /\
       returns (Vector3.crossToRef a b a w) (fun _ w' =>
         vector3_at w' a = Some (cross_product_in_place l r))) /\
    returns (Quaternion.multiply 0%nat 1%nat units_world) (fun r w' =>
      exists c, quaternion_at w' r = Some c /\
                quat_eqb c (Quat.mk zero (- one) zero zero) = true) /\
    returns (Quaternion.multiplyToRef 0%nat 1%nat 0%nat units_world) (fun _ w' =>
      exists c, quaternion_at w' 0%nat = Some c /\
                quat_eqb c (Quat.mk zero zero zero zero) = true) /\
    returns (Vector3.cross 2%nat 3%nat units_world) (fun r w' =>
      exists c, vector3_at w' r = Some c /\
                vec3_eqb c (Vec3.mk zero (- one) zero) = true) /\
    returns (Vector3.crossToRef 2%nat 3%nat 2%nat units_world) (fun _ w' =>
      exists c, vector3_at w' 2%nat = Some c /\
                vec3_eqb c (Vec3.mk zero zero zero) = true).
Proof.
  intros [h s d] a b Hne.
  split; [|split; [|split; [|split; [|split]]]].
  - intros sq qq Ha Hb. apply quaternion_at_heap in Ha, Hb. split.
    + rewrite (run_Quaternion_multiply a b sq qq h s d Ha Hb). cbn [returns].
      apply quaternion_at_heap. solve_lookup.
    + rewrite (run_Quaternion_multiplyToRef_in_place a b sq qq h s d Ha Hb Hne).
      cbn [returns]. apply quaternion_at_heap. solve_lookup.
  - intros l r Ha Hb. apply vector3_at_heap in Ha, Hb. split.
    + rewrite (run_Vector3_cross a b l r h s d Ha Hb). cbn [returns].
      apply vector3_at_heap. solve_lookup.
    + rewrite (run_Vector3_crossToRef_in_place a b l r h s d Ha Hb Hne).
      cbn [returns]. apply vector3_at_heap. solve_lookup.
  - unfold units_world.
    erewrite run_Quaternion_multiply by reflexivity.
    cbn [returns]. eexists. split; [reflexivity|]. vm_compute. reflexivity.
  - unfold units_world.
    erewrite run_Quaternion_multiplyToRef_in_place by (reflexivity || lia).
    cbn [returns]. eexists. split; [reflexivity|]. vm_compute. reflexivity.
  - unfold units_world.
    erewrite run_Vector3_cross by reflexivity.
    cbn [returns]. eexists. split; [reflexivity|]. vm_compute. reflexivity.
  - unfold units_world.
    erewrite run_Vector3_crossToRef_in_place by (reflexivity || lia).
    cbn [returns]. eexists. split; [reflexivity|]. vm_compute. reflexivity.
Qed.

Lemma products_in_place_read_their_own_stores_witness :
  returns (Quaternion.multiplyToRef 0%nat 1%nat 0%nat units_world) (fun _ w' =>
    quaternion_at w' 0%nat
    = Some (quaternion_product_in_place (Quat.mk one zero zero zero)
              (Quat.mk zero zero one zero))).
Proof.
  exact (proj2 (proj1 (products_in_place_read_their_own_stores units_world 0%nat 1%nat
                         (fun E => eq_ind 0%nat (fun n => match n with O => True | S _ => False end)
                                     I 1%nat E))
                  (Quat.mk one zero zero zero) (Quat.mk zero zero one zero)
                  eq_refl eq_refl)).
Defined.
End Products.

(* ================================================================= *)
(** ** Plane: distances, transform and copyFromPoints *)

Section PlaneMore.
Local Open Scope js_scope.
Implicit Types (h : list object) (s : Z) (d : list number).

(** [Plane.signedDistanceTo], which goes through [Vector3.dot] with the
    point first, and [Plane.dotCoordinate], which multiplies with the
    normal first, return the same number on every plane and point, and
    change nothing. *)
Theorem Plane_signedDistanceTo_is_dotCoordinate :
  forall (w : world) (plane point : ref) (p : Pln.t) (n pt : Vec3.t),
    plane_at w plane = Some p ->
    vector3_at w (Pln.normal p) = Some n ->
    vector3_at w point = Some pt ->
    Plane.signedDistanceTo plane point w = Plane.dotCoordinate plane point w /\
    returns (Plane.dotCoordinate plane point w) (fun v w' =>
      w' = w /\
      v = Vec3.x n * Vec3.x pt + Vec3.y n * Vec3.y pt + Vec3.z n * Vec3.z pt + Pln.d p).
Proof.
  intros [h s d] plane point p n pt Hp Hn Hpt.
  apply plane_at_heap in Hp. apply vector3_at_heap in Hn, Hpt.
  assert (E : Plane.dotCoordinate plane point (World h s d)
              = Some (Vec3.x n * Vec3.x pt + Vec3.y n * Vec3.y pt + Vec3.z n * Vec3.z pt
                      + Pln.d p, World h s d)).
  { unfold Plane.dotCoordinate. steps. reflexivity. }
  split.
  - rewrite E. unfold Plane.signedDistanceTo, Vector3.dot.
    steps.
    rewrite (fmul_comm (Vec3.x pt)), (fmul_comm (Vec3.y pt)), (fmul_comm (Vec3.z pt)).
    reflexivity.
  - rewrite E. cbn [returns]. split; reflexivity.
Qed.

Lemma Plane_signedDistanceTo_is_dotCoordinate_witness :
  Plane.signedDistanceTo 1%nat 2%nat
    (World [ObjVector3 (Vec3.mk two zero zero); ObjPlane (Pln.mk 0%nat (of_Z 4));
            ObjVector3 (Vec3.mk one one one)] 0 [])
  = Plane.dotCoordinate 1%nat 2%nat
      (World [ObjVector3 (Vec3.mk two zero zero); ObjPlane (Pln.mk 0%nat (of_Z 4));
              ObjVector3 (Vec3.mk one one one)] 0 []).
Proof.
  exact (proj1 (Plane_signedDistanceTo_is_dotCoordinate
                  (World [ObjVector3 (Vec3.mk two zero zero);
                          ObjPlane (Pln.mk 0%nat (of_Z 4));
                          ObjVector3 (Vec3.mk one one one)] 0 [])
                  1%nat 2%nat (Pln.mk 0%nat (of_Z 4)) (Vec3.mk two zero zero)
                  (Vec3.mk one one one) eq_refl eq_refl eq_refl)).
Defined.




Lemma fsqrt_zero : Math_sqrt zero = zero.
Proof. reflexivity. Qed.

(** [Plane.copyFromPoints] never divides by zero: the one division it
    can make is by a square root that is not [===] to 0. On three
    points with the same finite coordinates it does not divide at all,
    and returns a new plane whose normal is (0, 0, 0) and whose [d] is
    a zero. *)
Theorem Plane_copyFromPoints_divisions :
  forall (w : world) (point1 point2 point3 : ref) (v1 v2 v3 : Vec3.t),
    vector3_at w point1 = Some v1 ->
    vector3_at w point2 = Some v2 ->
    vector3_at w point3 = Some v3 ->
    returns (Plane.copyFromPoints point1 point2 point3 w) (fun r w' =>
      Forall (fun x => (x === zero) = false) (new_divisors w w') /\
      (length (new_divisors w w') <= 1)%nat /\
      exists p n, plane_at w' r = Some p /\ vector3_at w' (Pln.normal p) = Some n /\
                  plane_at w r = None /\ vector3_at w (Pln.normal p) = None /\
                  (v2 = v1 -> v3 = v1 -> vec3_all finite64 v1 = true ->
                   new_divisors w w' = [] /\ n = Vec3.mk zero zero zero /\
                   is_zero (Pln.d p))).
Proof.
  intros [h s d] point1 point2 point3 v1 v2 v3 H1 H2 H3.
  apply vector3_at_heap in H1, H2, H3.
  unfold Plane.copyFromPoints.
  do 3 rstep.
  set (x1 := Vec3.x v2 - Vec3.x v1). set (y1 := Vec3.y v2 - Vec3.y v1).
  set (z1 := Vec3.z v2 - Vec3.z v1). set (x2 := Vec3.x v3 - Vec3.x v1).
  set (y2 := Vec3.y v3 - Vec3.y v1). set (z2 := Vec3.z v3 - Vec3.z v1).
  set (yz := y1 * z2 - z1 * y2). set (xz := z1 * x2 - x1 * z2).
  set (xy := x1 * y2 - y1 * x2).
  set (pyth := Math_sqrt (yz * yz + xz * xz + xy * xy)).
  assert (Hnone : forall k, (length h <= k)%nat ->
            plane_at (World h s d) k = None /\ vector3_at (World h s d) k = None).
  { intros k Hk. unfold plane_at, vector3_at. cbn [heap].
    rewrite lookup_ge_None_2 by exact Hk. split; reflexivity. }
  assert (Hsame : v2 = v1 -> v3 = v1 -> vec3_all finite64 v1 = true -> pyth = zero).
  { intros -> -> Hf. pose proof (vec3_all_finite64_finite _ Hf) as Hf'.
    apply vec3_all_inv in Hf' as (Fx & Fy & Fz).
    unfold pyth, yz, xz, xy, x1, y1, z1, x2, y2, z2.
    rewrite (fsub_diag _ Fx), (fsub_diag _ Fy), (fsub_diag _ Fz).
    reflexivity. }
  destruct (pyth === zero) eqn:E; cbn [negb].
  - do 4 rstep. rewrite run_alloc. cbn [returns].
    rewrite new_divisors_same.
    split; [constructor|]. split; [cbn [length]; lia|].
    eexists _, _.
    split; [apply plane_at_heap; solve_lookup|].
    split; [apply vector3_at_heap; cbn [Pln.normal]; solve_lookup|].
    split; [apply Hnone; rewrite length_app; lia|].
    split; [apply Hnone; cbn [Pln.normal]; lia|].
    intros E2 E3 Hf. split; [reflexivity|].
    pose proof (vec3_all_finite64_finite _ Hf) as Hf'.
    apply vec3_all_inv in Hf' as (Fx & Fy & Fz).
    subst v2 v3.
    unfold yz, xz, xy, x1, y1, z1, x2, y2, z2.
    rewrite (fsub_diag _ Fx), (fsub_diag _ Fy), (fsub_diag _ Fz).
    eval_numbers. split; [reflexivity|].
    cbn [Pln.d Vec3.x Vec3.y Vec3.z]. solve_zero.
  - do 4 rstep. rewrite run_alloc. cbn [returns].
    rewrite new_divisors_app.
    split; [constructor; [exact E|constructor]|]. split; [cbn [length]; lia|].
    eexists _, _.
    split; [apply plane_at_heap; solve_lookup|].
    split; [apply vector3_at_heap; cbn [Pln.normal]; solve_lookup|].
    split; [apply Hnone; rewrite length_app; lia|].
    split; [apply Hnone; cbn [Pln.normal]; lia|].
    intros E2 E3 Hf. rewrite (Hsame E2 E3 Hf) in E. discriminate E.
Qed.

Lemma Plane_copyFromPoints_divisions_witness :
  returns (Plane.copyFromPoints 0%nat 1%nat 2%nat three_vectors_world) (fun r w' =>
    Forall (fun x => (x === zero) = false) (new_divisors three_vectors_world w') /\
    (length (new_divisors three_vectors_world w') <= 1)%nat).
Proof.
  refine (returns_impl _ _ _ _
            (Plane_copyFromPoints_divisions three_vectors_world 0%nat 1%nat 2%nat
               (Vec3.mk two (- one) half) (Vec3.mk zero zero zero) (Vec3.mk one one one)
               eq_refl eq_refl eq_refl)).
  intros r w' (Hd & Hl & _). split; [exact Hd|exact Hl].
Defined.
End PlaneMore.

(* ================================================================= *)
(** ** Color4.checkColors4 *)

Section CheckColors4.

Lemma array_set_end (a : list element) (i : nat) (v : element) :
  length a = i -> array_set a i v = a ++ [v].
Proof.
  intros <-. unfold array_set. rewrite Nat.ltb_irrefl, Nat.sub_diag. reflexivity.
Qed.

Lemma array_get_app (a b : list element) (i j : nat) :
  length a = i -> array_get (a ++ b) (i + j) = array_get b j.
Proof.
  intros <-. unfold array_get. rewrite lookup_app_r by lia.
  replace (length a + j - length a)%nat with j by lia. reflexivity.
Qed.

Lemma length_rgb_elements l : length (rgb_elements l) = (length l * 3)%nat.
Proof.
  induction l as [|c l IH]; [reflexivity|].
  unfold rgb_elements in *. cbn [flat_map length app]. rewrite IH. lia.
Qed.

Lemma length_rgba_elements l : length (rgba_elements l) = (length l * 4)%nat.
Proof.
  induction l as [|c l IH]; [reflexivity|].
  unfold rgba_elements in *. cbn [flat_map length app]. rewrite IH. lia.
Qed.

Lemma rgb_elements_app l l' : rgb_elements (l ++ l') = rgb_elements l ++ rgb_elements l'.
Proof. unfold rgb_elements. apply flat_map_app. Qed.

Lemma rgba_elements_app l l' :
  rgba_elements (l ++ l') = rgba_elements l ++ rgba_elements l'.
Proof. unfold rgba_elements. apply flat_map_app. Qed.

(** The loop after the colors [done], with the colors [rest] to go. *)
Lemma checkColors4_from_spec (rest done : list (element * element * element)) (fuel : nat) :
  (length rest <= fuel)%nat ->
  Color4.checkColors4_from (rgb_elements (done ++ rest)) (rgba_elements done)
    (length done * 3) fuel
  = rgba_elements (done ++ rest).
Proof.
  revert done fuel. induction rest as [|c rest IH]; intros done fuel Hfuel.
  - rewrite app_nil_r. destruct fuel; [reflexivity|].
    cbn [Color4.checkColors4_from]. rewrite length_rgb_elements, Nat.ltb_irrefl.
    reflexivity.
  - destruct fuel as [|fuel]; [cbn [length] in Hfuel; lia|].
    cbn [Color4.checkColors4_from]. cbv zeta.
    assert (Hlt : (length done * 3 <? length (rgb_elements (done ++ c :: rest)))%nat = true).
    { apply Nat.ltb_lt. rewrite length_rgb_elements, length_app. cbn [length]. lia. }
    rewrite Hlt. rewrite Nat.div_mul by lia.
    rewrite (rgb_elements_app done (c :: rest)).
    pose proof (length_rgb_elements done) as Hl3.
    pose proof (length_rgba_elements done) as Hl4.
    rewrite <- (Nat.add_0_r (length done * 3)) at 1.
    rewrite !(array_get_app _ _ _ _ Hl3).
    destruct c as [[r g] b].
    change (rgb_elements ((r, g, b) :: rest)) with (r :: g :: b :: rgb_elements rest).
    unfold array_get. cbn [lookup list_lookup].
    rewrite (array_set_end (rgba_elements done) _ r Hl4).
    rewrite (array_set_end _ _ g) by (rewrite length_app, Hl4; cbn [length]; lia).
    rewrite (array_set_end _ _ b) by (rewrite !length_app, Hl4; cbn [length]; lia).
    rewrite (array_set_end _ _ (Num one)) by (rewrite !length_app, Hl4; cbn [length]; lia).
    rewrite <- !app_assoc. cbn [app].
    replace (rgba_elements done ++ [r; g; b; Num one])
      with (rgba_elements (done ++ [(r, g, b)]))
      by (rewrite rgba_elements_app; reflexivity).
    replace (rgb_elements done ++ r :: g :: b :: rgb_elements rest)
      with (rgb_elements ((done ++ [(r, g, b)]) ++ rest))
      by (rewrite !rgb_elements_app; rewrite <- app_assoc; reflexivity).
    replace (length done * 3 + 3)%nat with (length (done ++ [(r, g, b)]) * 3)%nat
      by (rewrite length_app; cbn [length]; lia).
    rewrite IH by (cbn [length] in Hfuel; lia).
    rewrite <- app_assoc. reflexivity.
Qed.

(** [Color4.checkColors4] on an array that holds three components for
    each of [count] colors returns a new array with the same
    components and an alpha of 1 after each color; on an array of any
    other length it returns the array it was given. *)
Theorem Color4_checkColors4_adds_alpha :
  forall (l : list (element * element * element)) (colors : list element) (count : nat),
    Color4.checkColors4 (rgb_elements l) (length l) = rgba_elements l /\
    (length colors <> (count * 3)%nat -> Color4.checkColors4 colors count = colors).
Proof.
  intros l colors count. split.
  - unfold Color4.checkColors4.
    rewrite length_rgb_elements, Nat.eqb_refl.
    apply (checkColors4_from_spec l [] (length l * 3)). lia.
  - intros Hne. unfold Color4.checkColors4.
    apply Nat.eqb_neq in Hne. rewrite Hne. reflexivity.
Qed.
End CheckColors4.
